(** * Nutrition-Facts chat assistant: a shallow embedding of
    [App/nutrichatassistant.py] and the properties of its query pipeline.

    Python values are modelled as follows.
    - [str] is a sequence of Unicode code points ([pystr]).
    - [int] is [Z]; [float] is IEEE-754 binary64, through the executable
      specification of [SpecFloat] at precision 53 and maximal exponent 1024.
      The conversions between [int] and [str] raise [ValueError] beyond
      [int_max_str_digits] decimal digits, the default of CPython 3.11.
    - [dict] is an association list in insertion order; [list] is [list].
    - An exception is a value of [exn]; a call that can raise returns
      [result].
    - The three services (search index, sentence encoder, chat completion
      API), the wall clock and the library functions [json.loads] and [repr]
      are the fields of an environment [Env]; the requests sent to the
      services are recorded in a [World] that the calls thread through. *)

From Stdlib Require Import ZArith NArith List String Ascii Bool Lia DecimalString.
From Stdlib Require Import Floats.SpecFloat.
Import ListNotations.

Set Warnings "-register-all".
Local Open Scope Z_scope.

(** ** Strings *)

Definition char := N.
Definition pystr := list char.

(** A literal of the source, as code points. *)
Definition py (s : string) : pystr :=
  List.map N_of_ascii (list_ascii_of_string s).

Fixpoint pystr_eqb (a b : pystr) : bool :=
  match a, b with
  | [], [] => true
  | x :: a', y :: b' => N.eqb x y && pystr_eqb a' b'
  | _, _ => false
  end.

(** [str.isspace] on one code point: the characters [str.strip()] removes. *)
Definition isspace (c : char) : bool :=
  ((9 <=? c) && (c <=? 13))%N || ((28 <=? c) && (c <=? 32))%N
  || N.eqb c 133 || N.eqb c 160 || N.eqb c 5760
  || ((8192 <=? c) && (c <=? 8202))%N
  || N.eqb c 8232 || N.eqb c 8233 || N.eqb c 8239 || N.eqb c 8287
  || N.eqb c 12288.

Fixpoint lstrip (s : pystr) : pystr :=
  match s with
  | [] => []
  | c :: s' => if isspace c then lstrip s' else s
  end.

(** [rstrip] keeps a character when it is not white space or when something
    that is kept follows it. *)
Fixpoint rstrip (s : pystr) : pystr :=
  match s with
  | [] => []
  | c :: s' =>
      match rstrip s' with
      | [] => if isspace c then [] else [c]
      | r => c :: r
      end
  end.

(** [s.strip()] *)
Definition strip (s : pystr) : pystr := rstrip (lstrip s).

(** [sep.join(l)] *)
Fixpoint join (sep : pystr) (l : list pystr) : pystr :=
  match l with
  | [] => []
  | [x] => x
  | x :: l' => x ++ sep ++ join sep l'
  end.

(** [s.split(sep)] for a separator of one character: one piece more than
    there are separators, empty pieces kept. *)
Fixpoint split (sep : char) (s : pystr) : list pystr :=
  match s with
  | [] => [[]]
  | c :: s' =>
      if N.eqb c sep then [] :: split sep s'
      else match split sep s' with
           | [] => [[c]]
           | w :: ws => (c :: w) :: ws
           end
  end.

(** ** Exceptions *)

Inductive exn :=
| JSONDecodeError
| KeyError (key : pystr)
| TypeError
| IndexError
| OverflowError
| RecursionError
| ValueError
| ServiceError (code : N).

Inductive result (A : Type) :=
| Ok (a : A)
| Raise (e : exn).
Arguments Ok {A} a.
Arguments Raise {A} e.

Definition rbind {A B} (r : result A) (k : A -> result B) : result B :=
  match r with
  | Ok a => k a
  | Raise e => Raise e
  end.

(** [l[-1]] *)
Definition last_item {A} (l : list A) : result A :=
  match l with
  | [] => Raise IndexError
  | x :: rest => Ok (last rest x)
  end.

(** ** Values *)

Inductive pyval :=
| PNone
| PBool (b : bool)
| PInt (z : Z)
| PFloat (f : spec_float)
| PStr (s : pystr)
| PList (l : list pyval)
| PDict (kvs : list (pystr * pyval)).

Fixpoint assoc_get {V} (k : pystr) (kvs : list (pystr * V)) : option V :=
  match kvs with
  | [] => None
  | (k', v) :: rest => if pystr_eqb k k' then Some v else assoc_get k rest
  end.

(** [d[k] = v] on a dict: an existing key keeps its position. *)
Fixpoint assoc_set {V} (k : pystr) (v : V) (kvs : list (pystr * V))
  : list (pystr * V) :=
  match kvs with
  | [] => [(k, v)]
  | (k', v') :: rest =>
      if pystr_eqb k k' then (k, v) :: rest else (k', v') :: assoc_set k v rest
  end.

(** [v[k]] for a string key [k]: only a dict can be indexed by a string;
    a list or a string raises [TypeError], as does a value that is not
    subscriptable. *)
Definition getitem (v : pyval) (k : pystr) : result pyval :=
  match v with
  | PDict kvs =>
      match assoc_get k kvs with
      | Some x => Ok x
      | None => Raise (KeyError k)
      end
  | _ => Raise TypeError
  end.

(** [for x in v]: the items of a list, the keys of a dict, the characters of
    a string. *)
Definition iter (v : pyval) : result (list pyval) :=
  match v with
  | PList l => Ok l
  | PDict kvs => Ok (List.map (fun kv => PStr (fst kv)) kvs)
  | PStr s => Ok (List.map (fun c => PStr [c]) s)
  | _ => Raise TypeError
  end.

(** [sys.get_int_max_str_digits()]: the number of decimal digits up to which
    an [int] is converted to and from a [str]. *)
Definition int_max_str_digits : nat := 4300.

(** The number of decimal digits of an integer. *)
Definition decimal_digits (z : Z) : nat :=
  match Z.to_int z with
  | Decimal.Pos d | Decimal.Neg d => Decimal.nb_digits d
  end.

(** ** Floats: IEEE-754 binary64 *)

Module Float.

Definition prec : Z := 53.
Definition emax : Z := 1024.

Definition mul : spec_float -> spec_float -> spec_float := SFmul prec emax.
Definition add : spec_float -> spec_float -> spec_float := SFadd prec emax.
Definition sub : spec_float -> spec_float -> spec_float := SFsub prec emax.
Definition div : spec_float -> spec_float -> spec_float := SFdiv prec emax.

(** [x <= y] on floats. *)
Definition leb : spec_float -> spec_float -> bool := SFleb.

(** The nearest float of an integer, ties to even. *)
Definition round_Z (z : Z) : spec_float := binary_normalize prec emax z 0 false.

(** [float(z)], the conversion [int * float] and [float / int] apply to the
    integer operand: the nearest float, [OverflowError] when that is out of
    range. *)
Definition of_Z (z : Z) : result spec_float :=
  match round_Z z with
  | S754_infinity _ => Raise OverflowError
  | f => Ok f
  end.

(** The float denoted by the decimal literal [m]e[-k], that is the float
    nearest to [m / 10^k]: numerator and denominator are kept exact and the
    quotient is rounded once. *)
Definition of_decimal (m : positive) (k : N) : spec_float :=
  div (S754_finite false m 0)
      (S754_finite false (Z.to_pos (10 ^ Z.of_N k)) 0).

(** [float(text)] for a decimal numeral of sign [neg], digits [m] and
    decimal exponent [e]: the float nearest to [m * 10^e]. *)
Definition of_scientific (neg : bool) (m : N) (e : Z) : spec_float :=
  match m with
  | N0 => S754_zero neg
  | Npos p =>
      if 0 <=? e then
        binary_normalize prec emax (cond_Zopp neg (Zpos p * 10 ^ e)) 0 false
      else
        SFdiv prec emax (S754_finite neg p 0)
          (S754_finite false (Z.to_pos (10 ^ (- e))) 0)
  end.

End Float.

(** ** A reference [json.loads]

    The decoder of the [json] module on a [str]: the grammar it accepts
    (with [NaN], [Infinity] and [-Infinity]), strict strings, duplicate keys
    resolved as [dict] does.  It raises [JSONDecodeError] on a text that is
    not JSON, [RecursionError] on a container nested deeper than the
    interpreter's stack allows at the call, and [ValueError] on an integer of
    more digits than [int] converts. *)

Module Json.

Definition ch (a : ascii) : char := N_of_ascii a.

(** The double quote. *)
Definition quote : char := 34%N.

Definition is_ws (c : char) : bool :=
  N.eqb c 32 || N.eqb c 9 || N.eqb c 10 || N.eqb c 13.

Fixpoint skip_ws (s : pystr) : pystr :=
  match s with
  | c :: r => if is_ws c then skip_ws r else s
  | [] => []
  end.

(** [s] without the prefix [lit], when it starts with it. *)
Fixpoint eat (lit s : pystr) : option pystr :=
  match lit, s with
  | [], _ => Some s
  | a :: lit', b :: s' => if N.eqb a b then eat lit' s' else None
  | _ :: _, [] => None
  end.

Definition is_digit (c : char) : bool := ((48 <=? c) && (c <=? 57))%N.

Definition hex_digit (c : char) : option N :=
  if is_digit c then Some (c - 48)%N
  else if ((65 <=? c) && (c <=? 70))%N then Some (c - 55)%N
  else if ((97 <=? c) && (c <=? 102))%N then Some (c - 87)%N
  else None.

(** The four hexadecimal digits of a [\u] escape. *)
Definition hex4 (a b c d : char) : option N :=
  match hex_digit a, hex_digit b, hex_digit c, hex_digit d with
  | Some x, Some y, Some z, Some t =>
      Some (((x * 16 + y) * 16 + z) * 16 + t)%N
  | _, _, _, _ => None
  end.

(** The character a one-letter escape stands for. *)
Definition backslash (c : char) : option char :=
  if N.eqb c quote then Some quote
  else if N.eqb c (ch "\") then Some (ch "\")
  else if N.eqb c (ch "/") then Some (ch "/")
  else if N.eqb c (ch "b") then Some 8%N
  else if N.eqb c (ch "f") then Some 12%N
  else if N.eqb c (ch "n") then Some 10%N
  else if N.eqb c (ch "r") then Some 13%N
  else if N.eqb c (ch "t") then Some 9%N
  else None.

(** The character in front of what the rest of a string scans to. *)
Definition cons_char (c : char) (r : result (pystr * pystr))
  : result (pystr * pystr) :=
  rbind r (fun '(cs, rest) => Ok (c :: cs, rest)).

(** A string, from after its opening quote: its characters and what follows
    the closing quote. *)
Fixpoint scanstring (s : pystr) : result (pystr * pystr) :=
  match s with
  | [] => Raise JSONDecodeError
  | c :: r =>
      if N.eqb c quote then Ok ([], r)
      else if N.eqb c (ch "\") then
        match r with
        | [] => Raise JSONDecodeError
        | e :: r1 =>
            if N.eqb e (ch "u") then
              match r1 with
              | a1 :: b1 :: c1 :: d1 :: r2 =>
                  match hex4 a1 b1 c1 d1 with
                  | None => Raise JSONDecodeError
                  | Some u1 =>
                      if ((55296 <=? u1) && (u1 <=? 56319))%N then
                        match r2 with
                        | x :: y :: r3 =>
                            if N.eqb x (ch "\") && N.eqb y (ch "u") then
                              match r3 with
                              | a2 :: b2 :: c2 :: d2 :: r4 =>
                                  match hex4 a2 b2 c2 d2 with
                                  | None => Raise JSONDecodeError
                                  | Some u2 =>
                                      if ((56320 <=? u2) && (u2 <=? 57343))%N
                                      then
                                        cons_char
                                          (65536 + (u1 - 55296) * 1024
                                           + (u2 - 56320))%N
                                          (scanstring r4)
                                      else cons_char u1 (scanstring r2)
                                  end
                              | _ => Raise JSONDecodeError
                              end
                            else cons_char u1 (scanstring r2)
                        | _ => cons_char u1 (scanstring r2)
                        end
                      else cons_char u1 (scanstring r2)
                  end
              | _ => Raise JSONDecodeError
              end
            else
              match backslash e with
              | None => Raise JSONDecodeError
              | Some x => cons_char x (scanstring r1)
              end
        end
      else if (c <? 32)%N then Raise JSONDecodeError
      else cons_char c (scanstring r)
  end.

(** The longest prefix of digits, as their values. *)
Fixpoint digits (s : pystr) : list N * pystr :=
  match s with
  | c :: r =>
      if is_digit c then let '(ds, rest) := digits r in ((c - 48)%N :: ds, rest)
      else ([], s)
  | [] => ([], [])
  end.

Definition digits_value (ds : list N) : N :=
  fold_left (fun acc d => (acc * 10 + d)%N) ds 0%N.

(** A number, by the longest match of [NUMBER_RE]: an optional minus sign,
    then a zero or a non-zero digit followed by digits, then optionally a
    point and at least one digit, then optionally [e] or [E], a sign and at
    least one digit.  An [int] when it has neither fraction nor exponent, a
    [float] otherwise; [int] refuses more than [int_max_str_digits]
    digits. *)
Definition number (s : pystr) : option (result (pyval * pystr)) :=
  let '(neg, s1) :=
    match eat [ch "-"] s with Some r => (true, r) | None => (false, s) end in
  let int_part :=
    match s1 with
    | d :: r =>
        if N.eqb d 48 then Some ([0%N], r)
        else if is_digit d then
          let '(ds, rest) := digits r in Some ((d - 48)%N :: ds, rest)
        else None
    | [] => None
    end in
  match int_part with
  | None => None
  | Some (ip, s2) =>
      let '(frac, s3) :=
        match eat [ch "."] s2 with
        | Some r =>
            match digits r with
            | ([], _) => (None, s2)
            | (fs, rest) => (Some fs, rest)
            end
        | None => (None, s2)
        end in
      let '(expo, s4) :=
        match s3 with
        | e :: r =>
            if N.eqb e (ch "e") || N.eqb e (ch "E") then
              let '(eneg, r1) :=
                match r with
                | sg :: r' =>
                    if N.eqb sg (ch "-") then (true, r')
                    else if N.eqb sg (ch "+") then (false, r')
                    else (false, r)
                | [] => (false, r)
                end in
              match digits r1 with
              | ([], _) => (None, s3)
              | (es, rest) =>
                  (Some (cond_Zopp eneg (Z.of_N (digits_value es))), rest)
              end
            else (None, s3)
        | [] => (None, s3)
        end in
      match frac, expo with
      | None, None =>
          if (int_max_str_digits <? List.length ip)%nat then
            Some (Raise ValueError)
          else Some (Ok (PInt (cond_Zopp neg (Z.of_N (digits_value ip))), s4))
      | _, _ =>
          let fs := match frac with Some fs => fs | None => [] end in
          let e := match expo with Some e => e | None => 0 end in
          Some (Ok (PFloat (Float.of_scientific neg (digits_value (ip ++ fs))
                              (e - Z.of_nat (List.length fs))), s4))
      end
  end.

(** A value that is neither a string nor a container. *)
Definition scalar (s : pystr) : result (pyval * pystr) :=
  match eat (py "null") s, eat (py "true") s, eat (py "false") s with
  | Some rest, _, _ => Ok (PNone, rest)
  | _, Some rest, _ => Ok (PBool true, rest)
  | _, _, Some rest => Ok (PBool false, rest)
  | None, None, None =>
      match number s with
      | Some vr => vr
      | None =>
          match eat (py "NaN") s, eat (py "Infinity") s,
                eat (py "-Infinity") s with
          | Some rest, _, _ => Ok (PFloat S754_nan, rest)
          | _, Some rest, _ => Ok (PFloat (S754_infinity false), rest)
          | _, _, Some rest => Ok (PFloat (S754_infinity true), rest)
          | None, None, None => Raise JSONDecodeError
          end
      end
  end.

(** [dict(pairs)] *)
Definition dict_of_pairs (pairs : list (pystr * pyval))
  : list (pystr * pyval) :=
  fold_left (fun d kv => assoc_set (fst kv) (snd kv) d) pairs [].

(** [scan_once] reads one value; [members] reads the pairs of an object from
    the first character of a key's string, [elements] the items of an array
    from the first character of an item.  Both get what was read so far, in
    reverse.

    [depth] is the number of containers, one inside the other, that the
    interpreter's stack still allows: entering one more raises
    [RecursionError].  [steps] bounds the calls, for the definition to be
    accepted; the result is [None] when it is used up, which does not happen
    from twice the length of the text (lemma [scan_once_steps]). *)
Fixpoint scan_once (steps depth : nat) (s : pystr)
  : option (result (pyval * pystr)) :=
  match steps with
  | O => None
  | S steps' =>
      match s with
      | [] => Some (Raise JSONDecodeError)
      | c :: r =>
          if N.eqb c quote then
            Some (rbind (scanstring r) (fun '(cs, rest) => Ok (PStr cs, rest)))
          else if N.eqb c (ch "{") then
            match depth with
            | O => Some (Raise RecursionError)
            | S depth' =>
                match skip_ws r with
                | c1 :: r2 =>
                    if N.eqb c1 (ch "}") then Some (Ok (PDict [], r2))
                    else if N.eqb c1 quote then members steps' depth' [] r2
                    else Some (Raise JSONDecodeError)
                | [] => Some (Raise JSONDecodeError)
                end
            end
          else if N.eqb c (ch "[") then
            match depth with
            | O => Some (Raise RecursionError)
            | S depth' =>
                match skip_ws r with
                | c1 :: r2 =>
                    if N.eqb c1 (ch "]") then Some (Ok (PList [], r2))
                    else elements steps' depth' [] (c1 :: r2)
                | [] => Some (Raise JSONDecodeError)
                end
            end
          else Some (scalar s)
      end
  end
with members (steps depth : nat) (acc : list (pystr * pyval)) (s : pystr)
  : option (result (pyval * pystr)) :=
  match steps with
  | O => None
  | S steps' =>
      match scanstring s with
      | Raise e => Some (Raise e)
      | Ok (key, r) =>
          match eat [ch ":"] (skip_ws r) with
          | None => Some (Raise JSONDecodeError)
          | Some r1 =>
              match scan_once steps' depth (skip_ws r1) with
              | None => None
              | Some (Raise e) => Some (Raise e)
              | Some (Ok (value, r2)) =>
                  let acc' := (key, value) :: acc in
                  match skip_ws r2 with
                  | c :: r3 =>
                      if N.eqb c (ch "}") then
                        Some (Ok (PDict (dict_of_pairs (rev acc')), r3))
                      else if N.eqb c (ch ",") then
                        match eat [quote] (skip_ws r3) with
                        | Some r4 => members steps' depth acc' r4
                        | None => Some (Raise JSONDecodeError)
                        end
                      else Some (Raise JSONDecodeError)
                  | [] => Some (Raise JSONDecodeError)
                  end
              end
          end
      end
  end
with elements (steps depth : nat) (acc : list pyval) (s : pystr)
  : option (result (pyval * pystr)) :=
  match steps with
  | O => None
  | S steps' =>
      match scan_once steps' depth s with
      | None => None
      | Some (Raise e) => Some (Raise e)
      | Some (Ok (value, r)) =>
          let acc' := value :: acc in
          match skip_ws r with
          | c :: r1 =>
              if N.eqb c (ch "]") then Some (Ok (PList (rev acc'), r1))
              else if N.eqb c (ch ",") then
                elements steps' depth acc' (skip_ws r1)
              else Some (Raise JSONDecodeError)
          | [] => Some (Raise JSONDecodeError)
          end
      end
  end.

(** [json.loads(s)], where the stack allows [depth] nested containers. *)
Definition loads (depth : nat) (s : pystr) : result pyval :=
  match s with
  | 65279%N :: _ => Raise JSONDecodeError
  | _ =>
      match scan_once (2 * List.length s + 2) depth (skip_ws s) with
      | None => Raise RecursionError
      | Some r =>
          rbind r (fun '(obj, rest) =>
          match skip_ws rest with
          | [] => Ok obj
          | _ :: _ => Raise JSONDecodeError
          end)
      end
  end.

End Json.

(** ** The services and the world *)

(** One message of a chat request, [{"role": r, "content": c}]. *)
Record Message := { role : pystr; content : pystr }.

(** The keyword arguments of [chat.completions.create]. *)
Record ChatRequest := { req_model : pystr; req_messages : list Message }.

(** [response.usage], and the [tokens] dict [llm] builds from it. *)
Record Usage := {
  prompt_tokens : Z;
  completion_tokens : Z;
  total_tokens : Z
}.

(** What [llm] reads of a completion: [choices[0].message.content] and
    [usage]. *)
Record ChatResponse := { resp_content : pystr; resp_usage : Usage }.

(** The requests sent so far, oldest first, and the number of clock
    readings. *)
Record World := {
  es_log : list (pystr * pyval);
  llm_log : list ChatRequest;
  clock_reads : nat
}.

Definition world0 : World :=
  {| es_log := []; llm_log := []; clock_reads := 0 |}.

(** What the program calls and does not define.  A service answers a request
    knowing how many requests came before it, so that two equal requests may
    get different answers. *)
Record Env := {
  es_search : nat -> pystr -> pyval -> result pyval;
  encode : pystr -> result pyval;
  chat_create : nat -> ChatRequest -> result ChatResponse;
  time_time : nat -> spec_float;
  json_loads : pystr -> result pyval;
  py_repr : pyval -> result pystr
}.

(** Computations that send requests and may raise. *)
Definition M (A : Type) : Type := World -> result A * World.

Definition ret {A} (a : A) : M A := fun w => (Ok a, w).

Definition bind {A B} (m : M A) (k : A -> M B) : M B :=
  fun w =>
    match m w with
    | (Ok a, w') => k a w'
    | (Raise e, w') => (Raise e, w')
    end.

Definition lift {A} (r : result A) : M A := fun w => (r, w).

Notation "x <- m ;; k" := (bind m (fun x => k))
  (at level 61, m at next level, right associativity).
Notation "' p <- m ;; k" := (bind m (fun x => let 'p := x in k))
  (at level 61, p pattern, m at next level, right associativity).

Section Program.

Variable env : Env.

(** [es_client.search(index=index_name, body=search_query)] *)
Definition es_client_search (index_name : pystr) (body : pyval) : M pyval :=
  fun w =>
    (es_search env (List.length (es_log w)) index_name body,
     {| es_log := es_log w ++ [(index_name, body)];
        llm_log := llm_log w;
        clock_reads := clock_reads w |}).

(** [openai_client.chat.completions.create(model=..., messages=...)] *)
Definition chat_completions_create (rq : ChatRequest) : M ChatResponse :=
  fun w =>
    (chat_create env (List.length (llm_log w)) rq,
     {| es_log := es_log w;
        llm_log := llm_log w ++ [rq];
        clock_reads := clock_reads w |}).

(** [time.time()] *)
Definition time_now : M spec_float :=
  fun w =>
    (Ok (time_time env (clock_reads w)),
     {| es_log := es_log w;
        llm_log := llm_log w;
        clock_reads := S (clock_reads w) |}).

(** [[hit["_source"] for hit in response["hits"]["hits"]]] *)
Definition hit_sources (response : pyval) : result (list pyval) :=
  rbind (getitem response (py "hits")) (fun h =>
  rbind (getitem h (py "hits")) (fun hs =>
  rbind (iter hs) (fun hits =>
    fold_right
      (fun hit acc =>
         rbind (getitem hit (py "_source")) (fun src =>
         rbind acc (fun rest => Ok (src :: rest))))
      (Ok []) hits))).

Definition default_index : pystr := py "nutrition-facts".

(** The body of the keyword search. *)
Definition text_query (query category : pystr) : pyval :=
  PDict [
    (py "size", PInt 5);
    (py "query", PDict [
      (py "bool", PDict [
        (py "must", PDict [
          (py "multi_match", PDict [
            (py "query", PStr query);
            (py "fields", PList [
               PStr (py "Food^3"); PStr (py "Measure"); PStr (py "Grams");
               PStr (py "Calories"); PStr (py "Protein"); PStr (py "Fat");
               PStr (py "SatFat"); PStr (py "Fiber"); PStr (py "Carbs")]);
            (py "type", PStr (py "best_fields"))])]);
        (py "filter", PDict [
          (py "term", PDict [(py "Category", PStr category)])])])])].

Definition elastic_search_text (query category index_name : pystr)
  : M (list pyval) :=
  response <- es_client_search index_name (text_query query category) ;;
  lift (hit_sources response).

(** The [knn] clause of the vector search. *)
Definition knn_clause (field : pystr) (vector : pyval) (category : pystr)
  : pyval :=
  PDict [
    (py "field", PStr field);
    (py "query_vector", vector);
    (py "k", PInt 5);
    (py "num_candidates", PInt 10000);
    (py "filter", PDict [
      (py "term", PDict [(py "Category", PStr category)])])].

(** The body of the vector search. *)
Definition knn_query (field : pystr) (vector : pyval) (category : pystr)
  : pyval :=
  PDict [
    (py "knn", knn_clause field vector category);
    (py "_source", PList [
       PStr (py "Food"); PStr (py "Measure"); PStr (py "Grams");
       PStr (py "Calories"); PStr (py "Protein"); PStr (py "Fat");
       PStr (py "SatFat"); PStr (py "Fiber"); PStr (py "Carbs");
       PStr (py "Category"); PStr (py "id")])].

Definition elastic_search_knn (field : pystr) (vector : pyval)
    (category index_name : pystr) : M (list pyval) :=
  es_results <- es_client_search index_name (knn_query field vector category) ;;
  lift (hit_sources es_results).

(** *** Templates and formatting *)

(** A format string, parsed: literal text and replacement fields. *)
Inductive piece :=
| Lit (text : pystr)
| Hole (name : pystr).

(** [template.format(...)] with keyword arguments, inserted as they are. *)
Fixpoint format (template : list piece) (kwargs : list (pystr * pystr))
  : result pystr :=
  match template with
  | [] => Ok []
  | Lit text :: rest => rbind (format rest kwargs) (fun r => Ok (text ++ r))
  | Hole name :: rest =>
      match assoc_get name kwargs with
      | Some v => rbind (format rest kwargs) (fun r => Ok (v ++ r))
      | None => Raise (KeyError name)
      end
  end.

Definition nl : pystr := [10%N].
Definition dq : pystr := [34%N].
Definition quoted (s : string) : pystr := dq ++ py s ++ dq.

(** [str(z)]: [ValueError] for an integer of more than
    [int_max_str_digits] digits. *)
Definition str_of_Z (z : Z) : result pystr :=
  if (int_max_str_digits <? decimal_digits z)%nat then Raise ValueError
  else Ok (py (DecimalString.NilZero.string_of_int (Z.to_int z))).

(** [format(v, '')], what a replacement field of an f-string inserts. *)
Definition str_of (v : pyval) : result pystr :=
  match v with
  | PStr s => Ok s
  | PInt z => str_of_Z z
  | PBool true => Ok (py "True")
  | PBool false => Ok (py "False")
  | PNone => Ok (py "None")
  | _ => py_repr env v
  end.

(** A replacement field [{doc['key']}]: the lookup, then the conversion of
    the value. *)
Definition fstring_field (doc : pyval) (key : pystr) : result pystr :=
  rbind (getitem doc key) str_of.

(** *** [build_prompt] *)

(** The text of [prompt_template] before [{question}], the template being
    stripped. *)
Definition prompt_head : pystr :=
  py "You're a nutritionist working as a nutrition facts chat assistant. Answer the QUESTION based on the CONTEXT from the nutrition database."
  ++ nl ++
  py "Use only the facts from the CONTEXT when answering the QUESTION. Be specific about measurements and nutritional values."
  ++ nl ++ nl ++
  py "QUESTION: ".

(** The text between [{question}] and [{context}]. *)
Definition prompt_mid : pystr := nl ++ nl ++ py "CONTEXT: " ++ nl.

(** [prompt_template], after its [.strip()]. *)
Definition prompt_template : list piece :=
  [ Lit prompt_head; Hole (py "question");
    Lit prompt_mid; Hole (py "context") ].

(** The f-string of one search result: its replacement fields are
    evaluated from left to right, each one looked up and converted before
    the next. *)
Definition render_doc (doc : pyval) : result pystr :=
  rbind (fstring_field doc (py "Food")) (fun food =>
  rbind (fstring_field doc (py "Measure")) (fun measure =>
  rbind (fstring_field doc (py "Calories")) (fun calories =>
  rbind (fstring_field doc (py "Protein")) (fun protein =>
  rbind (fstring_field doc (py "Fat")) (fun fat =>
  rbind (fstring_field doc (py "SatFat")) (fun satfat =>
  rbind (fstring_field doc (py "Fiber")) (fun fiber =>
  rbind (fstring_field doc (py "Carbs")) (fun carbs =>
  rbind (fstring_field doc (py "Category")) (fun category =>
  Ok (py "Food: " ++ food ++ nl ++
      py "Measure: " ++ measure ++ nl ++
      py "Nutritional Facts:" ++ nl ++
      py "- Calories: " ++ calories ++ nl ++
      py "- Protein: " ++ protein ++ py "g" ++ nl ++
      py "- Fat: " ++ fat ++ py "g" ++ nl ++
      py "- Saturated Fat: " ++ satfat ++ py "g" ++ nl ++
      py "- Fiber: " ++ fiber ++ py "g" ++ nl ++
      py "- Carbs: " ++ carbs ++ py "g" ++ nl ++
      py "Category: " ++ category)))))))))).

(** The list comprehension: the blocks in the order of the results, the
    first result that cannot be rendered raising. *)
Fixpoint render_docs (search_results : list pyval) : result (list pystr) :=
  match search_results with
  | [] => Ok []
  | doc :: rest =>
      rbind (render_doc doc) (fun b =>
      rbind (render_docs rest) (fun bs => Ok (b :: bs)))
  end.

(** [context], the blocks joined by a blank line. *)
Definition build_context (search_results : list pyval) : result pystr :=
  rbind (render_docs search_results) (fun blocks =>
  Ok (join (nl ++ nl) blocks)).

Definition build_prompt (query : pystr) (search_results : list pyval)
  : result pystr :=
  rbind (build_context search_results) (fun context =>
  rbind (format prompt_template
           [(py "question", query); (py "context", context)]) (fun prompt =>
  Ok (strip prompt))).

(** *** [llm] *)

Definition llm (prompt model_choice : pystr)
  : M (pystr * Usage * spec_float) :=
  start_time <- time_now ;;
  model_name <- lift (last_item (split 47%N model_choice)) ;;
  response <- chat_completions_create
                {| req_model := model_name;
                   req_messages :=
                     [{| role := py "user"; content := prompt |}] |} ;;
  let answer := resp_content response in
  let tokens := resp_usage response in
  end_time <- time_now ;;
  let response_time := Float.sub end_time start_time in
  ret (answer, tokens, response_time).

(** *** [evaluate_relevance] *)

(** The text of the judge's [prompt_template] before [{question}], the
    template being stripped. *)
Definition judge_head : pystr :=
  py "You are an expert evaluator for a Nutrition Facts Retrieval-Augmented Generation (RAG) system."
  ++ nl ++
  py "    Your task is to analyze the relevance of the generated answer to the given nutrition question."
  ++ nl ++
  py "    Based on the relevance and accuracy of the nutritional information provided, classify it"
  ++ nl ++
  py "    as " ++ quoted "NON_RELEVANT" ++ py ", " ++
  quoted "PARTLY_RELEVANT" ++ py ", or " ++ quoted "RELEVANT" ++ py "."
  ++ nl ++ nl ++
  py "    Here is the data for evaluation:"
  ++ nl ++ nl ++
  py "    Question: ".

(** The text between [{question}] and [{answer}]. *)
Definition judge_mid : pystr := nl ++ py "    Generated Answer: ".

(** The text after [{answer}], the doubled braces being single ones. *)
Definition judge_tail : pystr :=
  nl ++ nl ++
  py "    Please analyze the content and context of the generated answer in relation to the question"
  ++ nl ++
  py "    and provide your evaluation in parsable JSON without using code blocks:"
  ++ nl ++ nl ++
  py "    {" ++ nl ++
  py "      " ++ quoted "Relevance" ++ py ": " ++ quoted "NON_RELEVANT"
  ++ py " | " ++ quoted "PARTLY_RELEVANT" ++ py " | "
  ++ quoted "RELEVANT" ++ py "," ++ nl ++
  py "      " ++ quoted "Explanation" ++ py ": " ++
  quoted "[Provide a brief explanation for your evaluation]" ++ nl ++
  py "    }".

(** The judge's [prompt_template], after its [.strip()]. *)
Definition eval_template : list piece :=
  [ Lit judge_head; Hole (py "question"); Lit judge_mid;
    Hole (py "answer"); Lit judge_tail ].

(** [try: body except json.JSONDecodeError: handler] *)
Definition except_JSONDecodeError {A} (body handler : result A) : result A :=
  match body with
  | Raise JSONDecodeError => handler
  | r => r
  end.

(** The judge model. *)
Definition judge_model : pystr := py "openai/gpt-4o-mini".

Definition evaluate_relevance (question answer : pystr)
  : M (pyval * pyval * Usage) :=
  prompt <- lift (format eval_template
                    [(py "question", question); (py "answer", answer)]) ;;
  '(evaluation, tokens, _) <- llm prompt judge_model ;;
  lift (except_JSONDecodeError
          (rbind (json_loads env evaluation) (fun json_eval =>
           rbind (getitem json_eval (py "Relevance")) (fun relevance =>
           rbind (getitem json_eval (py "Explanation")) (fun explanation =>
           Ok (relevance, explanation, tokens)))))
          (Ok (PStr (py "UNKNOWN"),
               PStr (py "Failed to parse evaluation"), tokens))).

(** *** [calculate_openai_cost] *)

(** [n * x] for an int [n] and a float [x] *)
Definition int_mul_float (n : Z) (x : spec_float) : result spec_float :=
  rbind (Float.of_Z n) (fun fn => Ok (Float.mul fn x)).

(** [x / n] for a float [x] and a non-zero int [n] *)
Definition float_div_int (x : spec_float) (n : Z) : result spec_float :=
  rbind (Float.of_Z n) (fun fn => Ok (Float.div x fn)).

(** The literals [0.0015], [0.002], [0.03] and [0.06]. *)
Definition lit_0_0015 : spec_float := Float.of_decimal 15 4.
Definition lit_0_002 : spec_float := Float.of_decimal 2 3.
Definition lit_0_03 : spec_float := Float.of_decimal 3 2.
Definition lit_0_06 : spec_float := Float.of_decimal 6 2.

Definition calculate_openai_cost (model_choice : pystr) (tokens : Usage)
  : result pyval :=
  if pystr_eqb model_choice (py "openai/gpt-3.5-turbo") then
    rbind (int_mul_float (prompt_tokens tokens) lit_0_0015) (fun a =>
    rbind (int_mul_float (completion_tokens tokens) lit_0_002) (fun b =>
    rbind (float_div_int (Float.add a b) 1000) (fun openai_cost =>
    Ok (PFloat openai_cost))))
  else if existsb (pystr_eqb model_choice)
            [py "openai/gpt-4o"; py "openai/gpt-4o-mini"] then
    rbind (int_mul_float (prompt_tokens tokens) lit_0_03) (fun a =>
    rbind (int_mul_float (completion_tokens tokens) lit_0_06) (fun b =>
    rbind (float_div_int (Float.add a b) 1000) (fun openai_cost =>
    Ok (PFloat openai_cost))))
  else Ok (PInt 0).

(** *** [get_answer] *)

(** [v == s] for a string literal [s]: false on a value that is not a
    string. *)
Definition eq_str (v : pyval) (s : pystr) : bool :=
  match v with
  | PStr t => pystr_eqb t s
  | _ => false
  end.

Definition get_answer (query category model_choice : pystr)
    (search_type : pyval) : M pyval :=
  search_results <-
    (if eq_str search_type (py "Vector") then
       vector <- lift (encode env query) ;;
       elastic_search_knn (py "full_vector") vector category default_index
     else
       elastic_search_text query category default_index) ;;
  prompt <- lift (build_prompt query search_results) ;;
  '(answer, tokens, response_time) <- llm prompt model_choice ;;
  '(relevance, explanation, eval_tokens) <- evaluate_relevance query answer ;;
  openai_cost <- lift (calculate_openai_cost model_choice tokens) ;;
  ret (PDict [
    (py "answer", PStr answer);
    (py "response_time", PFloat response_time);
    (py "relevance", relevance);
    (py "relevance_explanation", explanation);
    (py "model_used", PStr model_choice);
    (py "prompt_tokens", PInt (prompt_tokens tokens));
    (py "completion_tokens", PInt (completion_tokens tokens));
    (py "total_tokens", PInt (total_tokens tokens));
    (py "eval_prompt_tokens", PInt (prompt_tokens eval_tokens));
    (py "eval_completion_tokens", PInt (completion_tokens eval_tokens));
    (py "eval_total_tokens", PInt (total_tokens eval_tokens));
    (py "openai_cost", openai_cost)]).

End Program.

(** ** Definitions used to state the properties *)

(** The blocks of a context, the last one without its trailing white
    space. *)
Fixpoint rstrip_last (blocks : list pystr) : list pystr :=
  match blocks with
  | [] => []
  | [b] => [rstrip b]
  | b :: rest => b :: rstrip_last rest
  end.

(** [a] is a prefix of [b]. *)
Fixpoint prefix_of (a b : pystr) : bool :=
  match a, b with
  | [], _ => true
  | x :: a', y :: b' => N.eqb x y && prefix_of a' b'
  | _ :: _, [] => false
  end.

(** [a in b] on strings: [a] occurs in [b]. *)
Fixpoint infix_of (a b : pystr) : bool :=
  prefix_of a b ||
  match b with
  | [] => false
  | _ :: b' => infix_of a b'
  end.

(** *** A stub environment

    The services answer as in the end-to-end scenario: the index returns the
    given records whatever the request, the chat API answers the first
    request with a fixed answer and the usage 100/20/120 and every later
    request with [judge_reply], and [json.loads] is the reference decoder,
    called where the stack allows [stub_depth] nested containers. *)

Definition apple : pyval :=
  PDict [ (py "Food", PStr (py "Apple")); (py "Measure", PStr (py "1 medium"));
          (py "Grams", PInt 182); (py "Calories", PInt 95);
          (py "Protein", PInt 0); (py "Fat", PInt 0); (py "SatFat", PInt 0);
          (py "Fiber", PInt 4); (py "Carbs", PInt 25);
          (py "Category", PStr (py "Fruits")) ].

Definition banana : pyval :=
  PDict [ (py "Food", PStr (py "Banana")); (py "Measure", PStr (py "1 medium"));
          (py "Grams", PInt 118); (py "Calories", PInt 105);
          (py "Protein", PInt 1); (py "Fat", PInt 0); (py "SatFat", PInt 0);
          (py "Fiber", PInt 3); (py "Carbs", PInt 27);
          (py "Category", PStr (py "Fruits")) ].

(** A record whose category ends in a space. *)
Definition padded : pyval :=
  PDict [ (py "Food", PStr (py "Apple")); (py "Measure", PStr (py "1 medium"));
          (py "Grams", PInt 182); (py "Calories", PInt 95);
          (py "Protein", PInt 0); (py "Fat", PInt 0); (py "SatFat", PInt 0);
          (py "Fiber", PInt 4); (py "Carbs", PInt 25);
          (py "Category", PStr (py "Fruits ")) ].

(** The depth of containers that the stub's [json.loads] allows: the
    default recursion limit of 1000, less ten frames for the callers. *)
Definition stub_depth : nat := 990.

Definition stub_hits (docs : list pyval) : pyval :=
  PDict [ (py "hits",
           PDict [ (py "hits",
                    PList (List.map (fun d => PDict [(py "_source", d)])
                             docs)) ]) ].

Definition stub_answer : ChatResponse :=
  {| resp_content := py "A medium apple has 95 calories.";
     resp_usage := {| prompt_tokens := 100; completion_tokens := 20;
                      total_tokens := 120 |} |}.

Definition stub_judge (judge_reply : pystr) : ChatResponse :=
  {| resp_content := judge_reply;
     resp_usage := {| prompt_tokens := 300; completion_tokens := 30;
                      total_tokens := 330 |} |}.

Definition stub_env (docs : list pyval) (judge_reply : pystr) : Env :=
  {| es_search := fun _ _ _ => Ok (stub_hits docs);
     encode := fun _ => Ok (PList [PInt 1; PInt 0]);
     chat_create := fun n _ =>
       match n with
       | O => Ok stub_answer
       | S _ => Ok (stub_judge judge_reply)
       end;
     time_time := fun n => Float.round_Z (Z.of_nat n);
     json_loads := Json.loads stub_depth;
     py_repr := fun _ => Ok (py "?") |}.

(** The judge replies of the scenarios. *)
Definition reply_relevant : pystr :=
  py "{" ++ quoted "Relevance" ++ py ":" ++ quoted "RELEVANT" ++ py ","
  ++ quoted "Explanation" ++ py ":" ++ quoted "ok" ++ py "}".

Definition reply_no_relevance : pystr :=
  py "{" ++ quoted "Explanation" ++ py ":" ++ quoted "ok" ++ py "}".

Definition reply_not_json : pystr := py "not json".

Definition env_ok : Env := stub_env [apple; banana] reply_relevant.

(** *** Requests and phases of the pipeline *)

(** The request [llm] sends for a model name and a prompt. *)
Definition chat_request (name prompt : pystr) : ChatRequest :=
  {| req_model := name;
     req_messages := [{| role := py "user"; content := prompt |}] |}.

(** The prompt [evaluate_relevance] formats. *)
Definition judge_prompt (question answer : pystr) : pystr :=
  judge_head ++ question ++ judge_mid ++ answer ++ judge_tail.

(** The retrieval step of [get_answer]. *)
Definition retrieve (env : Env) (query category : pystr) (search_type : pyval)
  : M (list pyval) :=
  if eq_str search_type (py "Vector") then
    vector <- lift (encode env query) ;;
    elastic_search_knn env (py "full_vector") vector category default_index
  else
    elastic_search_text env query category default_index.

(** A computation that sends nothing to the index, and one that sends
    nothing to the chat API. *)
Definition keeps_es_log {A} (m : M A) : Prop :=
  forall w, es_log (snd (m w)) = es_log w.

Definition keeps_llm_log {A} (m : M A) : Prop :=
  forall w, llm_log (snd (m w)) = llm_log w.

(** The world after one request to the chat API. *)
Definition world1 : World :=
  {| es_log := [];
     llm_log := [chat_request (py "gpt-4o") (py "prompt")];
     clock_reads := 2 |}.

Definition env_not_json : Env := stub_env [apple; banana] reply_not_json.

(** A reply that is not JSON and that the decoder does not read to its end:
    3000 opening brackets. *)
Definition reply_deep : pystr := List.repeat 91%N 3000.

Definition env_deep : Env := stub_env [apple; banana] reply_deep.
Definition env_no_relevance : Env :=
  stub_env [apple; banana] reply_no_relevance.

(** The run of the scenario: a keyword search for "apple calories" in
    "Fruits", answered by [openai/gpt-4o]. *)
Definition demo_run : result pyval * World :=
  Eval vm_compute in
    get_answer env_ok (py "apple calories") (py "Fruits")
      (py "openai/gpt-4o") (PStr (py "Keyword")) world0.

Definition demo_report : pyval :=
  Eval vm_compute in
    match fst demo_run with
    | Ok report => report
    | Raise _ => PNone
    end.

(** *** Rounding, on integers

    A non-negative real is coded by an integer in units of [2 ^ unit_exp]:
    twice the integer part of its quotient by [2 ^ (unit_exp + 1)], plus one
    when that quotient is not an integer.  Rounding the real to a binary64
    float, to nearest and ties to even, is then rounding the code to 53
    bits. *)

Module Rounding.

(** The least exponent of a binary64 float. *)
Definition emin : Z := -1074.

(** Codes are integers in units of [2 ^ unit_exp]. *)
Definition unit_exp : Z := -2150.

(** The least exponent of a rounded code, in units. *)
Definition min_shift : Z := emin - unit_exp.

(** The number of binary digits of an integer. *)
Definition digits (z : Z) : Z := Zdigits2 z.

(** The number of low bits that rounding a code to 53 bits drops. *)
Definition shift_of (c : Z) : Z := Z.max (digits c - 53) min_shift.

(** [c / 2 ^ shift_of c], rounded to the nearest integer, ties to even. *)
Definition round_quot (c : Z) : Z :=
  let n := shift_of c in
  let q := c / 2 ^ n in
  let r := c mod 2 ^ n in
  match 2 * r ?= 2 ^ n with
  | Lt => q
  | Eq => if Z.even q then q else q + 1
  | Gt => q + 1
  end.

(** The code [c] rounded to 53 bits. *)
Definition round_code (c : Z) : Z := round_quot c * 2 ^ shift_of c.

(** The float of mantissa [m] and exponent [e], infinite above the range. *)
Definition mk_float (m : positive) (e : Z) : spec_float :=
  if e <=? 971 then S754_finite false m e else S754_infinity false.

(** The float of a non-negative code: its rounding to nearest, ties to
    even. *)
Definition to_float (c : Z) : spec_float :=
  match round_quot c with
  | Z0 => S754_zero false
  | Zpos m =>
      if Pos.eqb m (2 ^ 53)%positive
      then mk_float (2 ^ 52)%positive (unit_exp + shift_of c + 1)
      else mk_float m (unit_exp + shift_of c)
  | Zneg _ => S754_nan
  end.

(** Above every finite value. *)
Definition top : Z := 2 ^ (1024 - emin).

(** The value of a non-negative float in units of [2 ^ emin], [top] for
    infinity. *)
Definition value (f : spec_float) : Z :=
  match f with
  | S754_zero _ => 0
  | S754_finite _ m e => Zpos m * 2 ^ (e - emin)
  | S754_infinity _ => top
  | S754_nan => 0
  end.

(** The floats that the cost computation produces: plus zero, the positive
    finite floats in canonical form, plus infinity. *)
Definition good (f : spec_float) : Prop :=
  match f with
  | S754_zero s => s = false
  | S754_finite s m e =>
      s = false /\ e <= 971 /\
      ((digits (Zpos m) = 53 /\ emin <= e) \/ (digits (Zpos m) < 53 /\ e = emin))
  | S754_infinity s => s = false
  | S754_nan => False
  end.

(** The record [mrs] is what is left of the code [c] after its [j] low bits
    are shifted out: the quotient, the last bit shifted out, and whether a
    bit below it was set. *)
Definition truncates (c j : Z) (mrs : shr_record) : Prop :=
  shr_m mrs = c / 2 ^ j /\
  shr_r mrs = (2 ^ (j - 1) <=? c mod 2 ^ j) /\
  shr_s mrs = negb ((c mod 2 ^ j) mod 2 ^ (j - 1) =? 0).

(** The exact code of a float. *)
Definition code_of (f : spec_float) : Z := value f * 2 ^ min_shift.

(** Neither infinite nor a NaN. *)
Definition finite (f : spec_float) : Prop :=
  match f with
  | S754_zero _ | S754_finite _ _ _ => True
  | _ => False
  end.

(** The code of the quotient [n / d]: twice the integer quotient, plus one
    when the division is not exact. *)
Definition quot_code (n d : Z) : Z :=
  2 * (n / d) + (if n mod d =? 0 then 0 else 1).

End Rounding.

Export Rounding.

(** *** The rate table *)

(** Modelled from the spec: the static table of the cost accountant, a pair
    of input and output rates per 1000 tokens keyed by the exact model
    identifier.  The source has no table, it compares the identifier with
    three literals. *)
Definition rate_table : list (pystr * (spec_float * spec_float)) :=
  [ (py "openai/gpt-3.5-turbo", (lit_0_0015, lit_0_002));
    (py "openai/gpt-4o", (lit_0_03, lit_0_06));
    (py "openai/gpt-4o-mini", (lit_0_03, lit_0_06)) ].

(** Modelled from the spec:
    [(promptTokens * inputRate + completionTokens * outputRate) / 1000]. *)
Definition cost_of_rates (rates : spec_float * spec_float) (tokens : Usage)
  : result pyval :=
  rbind (int_mul_float (prompt_tokens tokens) (fst rates)) (fun a =>
  rbind (int_mul_float (completion_tokens tokens) (snd rates)) (fun b =>
  rbind (float_div_int (Float.add a b) 1000) (fun cost =>
  Ok (PFloat cost)))).

(** The token counts of the end-to-end scenario. *)
Definition tokens_100_20 : Usage :=
  {| prompt_tokens := 100; completion_tokens := 20; total_tokens := 120 |}.

(** *** Nutrition records *)

(** The fields of a nutrition record. *)
Definition record_fields : list pystr :=
  [ py "Food"; py "Measure"; py "Grams"; py "Calories"; py "Protein";
    py "Fat"; py "SatFat"; py "Fiber"; py "Carbs"; py "Category" ].

(** A value that an f-string can insert: a string, [None], a boolean, an
    integer of at most [int_max_str_digits] digits, or a value of another
    type that [repr] converts. *)
Definition printable (env : Env) (v : pyval) : Prop :=
  match v with
  | PInt z => (decimal_digits z <= int_max_str_digits)%nat
  | PStr _ | PBool _ | PNone => True
  | _ => exists s, py_repr env v = Ok s
  end.

(** A nutrition record: a dict that has every field, with a printable
    value. *)
Definition nutrition_record (env : Env) (doc : pyval) : Prop :=
  exists kvs,
    doc = PDict kvs /\
    Forall (fun field => exists v, assoc_get field kvs = Some v /\
                                   printable env v) record_fields.

(** *** Definitions for further properties *)

(** The fields [build_prompt] reads of a record, in the order it reads
    them. *)
Definition read_fields : list pystr :=
  [ py "Food"; py "Measure"; py "Calories"; py "Protein"; py "Fat";
    py "SatFat"; py "Fiber"; py "Carbs"; py "Category" ].

(** Records that do not render: one that stops after [Food], and one whose
    [Calories] is an integer of 4301 digits. *)
Definition pear_partial : pyval := PDict [(py "Food", PStr (py "Pear"))].

Definition pear_long : pyval :=
  PDict [ (py "Food", PStr (py "Pear")); (py "Measure", PStr (py "1 medium"));
          (py "Calories", PInt (10 ^ 4300)) ].

(** The record [apple] with another weight and an identifier. *)
Definition apple_relabelled : pyval :=
  PDict [ (py "id", PInt 7); (py "Food", PStr (py "Apple"));
          (py "Measure", PStr (py "1 medium")); (py "Grams", PInt 150);
          (py "Calories", PInt 95); (py "Protein", PInt 0);
          (py "Fat", PInt 0); (py "SatFat", PInt 0); (py "Fiber", PInt 4);
          (py "Carbs", PInt 25); (py "Category", PStr (py "Fruits")) ].

(** Judge replies that are valid JSON: an object whose verdict is none of
    the three labels and whose explanation is a number, and a list. *)
Definition reply_unlisted : pystr :=
  py "{" ++ quoted "Relevance" ++ py ":" ++ quoted "MAYBE" ++ py ","
  ++ quoted "Explanation" ++ py ":7}".


Definition env_unlisted : Env := stub_env [apple; banana] reply_unlisted.

(** The chat API answers the first request and fails on every later one,
    with the given exception. *)
Definition env_judge_down (e : exn) : Env :=
  {| es_search := fun _ _ _ => Ok (stub_hits [apple; banana]);
     encode := fun _ => Ok (PList [PInt 1; PInt 0]);
     chat_create := fun n _ =>
       match n with
       | O => Ok stub_answer
       | S _ => Raise e
       end;
     time_time := fun n => Float.round_Z (Z.of_nat n);
     json_loads := Json.loads stub_depth;
     py_repr := fun _ => Ok (py "?") |}.

(** The least natural number that [float] does not convert: above the
    largest float by half a unit of its last place. *)
Definition float_limit : Z := 2 ^ 1024 - 2 ^ 970.

(** The index is down, and the chat API is down. *)
Definition env_search_down : Env :=
  {| es_search := fun _ _ _ => Raise (ServiceError 503);
     encode := fun _ => Ok (PList [PInt 1; PInt 0]);
     chat_create := fun _ _ => Ok stub_answer;
     time_time := fun n => Float.round_Z (Z.of_nat n);
     json_loads := Json.loads stub_depth;
     py_repr := fun _ => Ok (py "?") |}.

Definition env_chat_down : Env :=
  {| es_search := fun _ _ _ => Ok (stub_hits [apple; banana]);
     encode := fun _ => Ok (PList [PInt 1; PInt 0]);
     chat_create := fun _ _ => Raise (ServiceError 503);
     time_time := fun n => Float.round_Z (Z.of_nat n);
     json_loads := Json.loads stub_depth;
     py_repr := fun _ => Ok (py "?") |}.

(** The index finds nothing. *)
Definition env_no_hits : Env := stub_env [] reply_relevant.

(** The report of [get_answer]. *)
Definition report_of (answer : pystr) (response_time : spec_float)
    (relevance explanation : pyval) (model_choice : pystr)
    (tokens eval_tokens : Usage) (openai_cost : pyval) : pyval :=
  PDict [
    (py "answer", PStr answer);
    (py "response_time", PFloat response_time);
    (py "relevance", relevance);
    (py "relevance_explanation", explanation);
    (py "model_used", PStr model_choice);
    (py "prompt_tokens", PInt (prompt_tokens tokens));
    (py "completion_tokens", PInt (completion_tokens tokens));
    (py "total_tokens", PInt (total_tokens tokens));
    (py "eval_prompt_tokens", PInt (prompt_tokens eval_tokens));
    (py "eval_completion_tokens", PInt (completion_tokens eval_tokens));
    (py "eval_total_tokens", PInt (total_tokens eval_tokens));
    (py "openai_cost", openai_cost)].

(** * Properties *)

(** ** The reference decoder uses up no bound *)

Module JsonSteps.

Import Json.

Lemma skip_ws_length (s : pystr) :
  (List.length (skip_ws s) <= List.length s)%nat.
Proof.
  induction s as [|c s IH]; simpl; [lia|].
  destruct (is_ws c); simpl; lia.
Qed.

Lemma eat_length (lit s r : pystr) :
  eat lit s = Some r -> (List.length r <= List.length s)%nat.
Proof.
  revert s; induction lit as [|a lit IH]; intros s; simpl.
  - intros H; injection H as <-; lia.
  - destruct s as [|b s]; [discriminate|].
    destruct (N.eqb a b); [|discriminate].
    intros H. apply IH in H. simpl. lia.
Qed.

Lemma cons_char_length (c : char) (r : result (pystr * pystr))
    (cs rest : pystr) (n : nat) :
  (forall cs' rest', r = Ok (cs', rest') -> (List.length rest' <= n)%nat) ->
  cons_char c r = Ok (cs, rest) -> (List.length rest <= n)%nat.
Proof.
  intros Hr H. unfold cons_char, rbind in H.
  destruct r as [[cs' rest']|e]; [|discriminate].
  injection H as _ <-. eapply Hr. reflexivity.
Qed.

Lemma scanstring_length_bounded (n : nat) :
  forall s cs rest,
    (List.length s <= n)%nat ->
    scanstring s = Ok (cs, rest) -> (List.length rest <= List.length s)%nat.
Proof.
  induction n as [|n IH]; intros s cs rest Hn H.
  - destruct s; [discriminate | simpl in Hn; lia].
  - assert (Hrec : forall c r,
              (List.length r <= n)%nat ->
              cons_char c (scanstring r) = Ok (cs, rest) ->
              (List.length rest <= List.length r)%nat).
    { intros c r Hr Hc. eapply cons_char_length; [|exact Hc].
      intros cs' rest' E. eapply IH; [exact Hr | exact E]. }
    destruct s as [|c r]; [discriminate|].
    cbn [scanstring] in H. cbn [List.length] in *.
    repeat match type of H with
           | (if ?b then _ else _) = _ => destruct b
           | match ?x with _ => _ end = _ =>
               first [ is_var x; destruct x | destruct x eqn:? ]
           end;
      try discriminate; cbn [List.length] in *;
      try (injection H as _ <-; lia);
      try (apply Hrec in H; cbn [List.length] in *; lia).
Qed.

Lemma scanstring_length (s cs rest : pystr) :
  scanstring s = Ok (cs, rest) -> (List.length rest <= List.length s)%nat.
Proof. apply (scanstring_length_bounded (List.length s)). lia. Qed.

Lemma digits_length (s : pystr) :
  (List.length (snd (digits s)) <= List.length s)%nat.
Proof.
  induction s as [|c s IH]; simpl; [lia|].
  destruct (is_digit c); [|simpl; lia].
  destruct (digits s) as [ds rest]. simpl in *. lia.
Qed.

Ltac number_step :=
  cbv beta iota zeta;
  match goal with
  | |- context [eat ?l ?x] =>
      let E := fresh "E" in
      destruct (eat l x) eqn:E; [apply eat_length in E|]
  | |- context [digits ?x] =>
      let D := fresh "D" in
      pose proof (digits_length x) as D; destruct (digits x)
  | |- context [if ?b then _ else _] => destruct b
  | |- context [match ?x with _ => _ end] => is_var x; destruct x
  end.

Ltac number_done :=
  cbv beta iota zeta; cbn [snd List.length] in *;
  let H := fresh "H" in
  intros H;
  first [discriminate H | injection H as _ <-; cbn [List.length] in *; lia].

Lemma number_length (s : pystr) (v : pyval) (rest : pystr) :
  number s = Some (Ok (v, rest)) -> (List.length rest <= List.length s)%nat.
Proof.
  unfold number. repeat number_step; number_done.
Qed.

Lemma scalar_length (s : pystr) (v : pyval) (rest : pystr) :
  scalar s = Ok (v, rest) -> (List.length rest <= List.length s)%nat.
Proof.
  unfold scalar.
  destruct (eat (py "null") s) eqn:E1;
    [apply eat_length in E1; intros H; injection H as _ <-; exact E1|].
  destruct (eat (py "true") s) eqn:E2;
    [apply eat_length in E2; intros H; injection H as _ <-; exact E2|].
  destruct (eat (py "false") s) eqn:E3;
    [apply eat_length in E3; intros H; injection H as _ <-; exact E3|].
  destruct (number s) as [[[v' rest']|e]|] eqn:N.
  - intros H; injection H as _ <-. exact (number_length _ _ _ N).
  - discriminate.
  - destruct (eat (py "NaN") s) eqn:E4;
      [apply eat_length in E4; intros H; injection H as _ <-; exact E4|].
    destruct (eat (py "Infinity") s) eqn:E5;
      [apply eat_length in E5; intros H; injection H as _ <-; exact E5|].
    destruct (eat (py "-Infinity") s) eqn:E6;
      [apply eat_length in E6; intros H; injection H as _ <-; exact E6|].
    discriminate.
Qed.

(** What a scan leaves is not longer than what it was given. *)
Lemma scan_length (steps : nat) :
  (forall depth s v rest,
     scan_once steps depth s = Some (Ok (v, rest)) ->
     (List.length rest <= List.length s)%nat) /\
  (forall depth acc s v rest,
     members steps depth acc s = Some (Ok (v, rest)) ->
     (List.length rest <= List.length s)%nat) /\
  (forall depth acc s v rest,
     elements steps depth acc s = Some (Ok (v, rest)) ->
     (List.length rest <= List.length s)%nat).
Proof.
  induction steps as [|n (IHs & IHm & IHe)];
    [repeat split; intros; discriminate|].
  split; [|split].
  - intros depth s v rest H. cbn [scan_once] in H.
    destruct s as [|c r]; [discriminate|]. cbn [List.length].
    pose proof (skip_ws_length r) as Hw.
    destruct (N.eqb c quote).
    { destruct (scanstring r) as [[cs rest']|e] eqn:E; [|discriminate].
      apply scanstring_length in E. cbn [rbind] in H.
      injection H as _ <-. lia. }
    destruct (N.eqb c (ch "{")).
    { destruct depth as [|depth']; [discriminate|].
      destruct (skip_ws r) as [|c1 r2]; [discriminate|].
      cbn [List.length] in Hw.
      destruct (N.eqb c1 (ch "}")); [injection H as _ <-; lia|].
      destruct (N.eqb c1 quote); [|discriminate].
      apply IHm in H. lia. }
    destruct (N.eqb c (ch "[")).
    { destruct depth as [|depth']; [discriminate|].
      destruct (skip_ws r) as [|c1 r2]; [discriminate|].
      cbn [List.length] in Hw.
      destruct (N.eqb c1 (ch "]")); [injection H as _ <-; lia|].
      apply IHe in H. cbn [List.length] in H. lia. }
    injection H as H. apply scalar_length in H. exact H.
  - intros depth acc s v rest H. cbn [members] in H.
    destruct (scanstring s) as [[key r]|e] eqn:E; [|discriminate].
    apply scanstring_length in E.
    pose proof (skip_ws_length r) as Hw.
    destruct (eat [ch ":"] (skip_ws r)) as [r1|] eqn:E1; [|discriminate].
    apply eat_length in E1.
    pose proof (skip_ws_length r1) as Hw1.
    destruct (scan_once n depth (skip_ws r1)) as [[[value r2]|e]|] eqn:E2;
      try discriminate.
    apply IHs in E2.
    pose proof (skip_ws_length r2) as Hw2.
    destruct (skip_ws r2) as [|c r3]; [discriminate|].
    cbn [List.length] in Hw2.
    destruct (N.eqb c (ch "}")); [injection H as _ <-; lia|].
    destruct (N.eqb c (ch ",")); [|discriminate].
    pose proof (skip_ws_length r3) as Hw3.
    destruct (eat [quote] (skip_ws r3)) as [r4|] eqn:E4; [|discriminate].
    apply eat_length in E4. apply IHm in H. lia.
  - intros depth acc s v rest H. cbn [elements] in H.
    destruct (scan_once n depth s) as [[[value r]|e]|] eqn:E;
      try discriminate.
    apply IHs in E.
    pose proof (skip_ws_length r) as Hw.
    destruct (skip_ws r) as [|c r1]; [discriminate|].
    cbn [List.length] in Hw.
    destruct (N.eqb c (ch "]")); [injection H as _ <-; lia|].
    destruct (N.eqb c (ch ",")); [|discriminate].
    pose proof (skip_ws_length r1) as Hw1.
    apply IHe in H. lia.
Qed.

(** Twice the length of the text and one step are enough for a value, and
    one more for the members of an object or the items of an array. *)
Lemma scan_steps (steps : nat) :
  (forall depth s,
     (2 * List.length s + 1 <= steps)%nat ->
     scan_once steps depth s <> None) /\
  (forall depth acc s,
     (2 * List.length s + 2 <= steps)%nat ->
     members steps depth acc s <> None) /\
  (forall depth acc s,
     (2 * List.length s + 2 <= steps)%nat ->
     elements steps depth acc s <> None).
Proof.
  induction steps as [|n (IHs & IHm & IHe)];
    [repeat split; intros; lia|].
  destruct (scan_length n) as (Ls & Lm & Le).
  split; [|split].
  - intros depth s Hn. cbn [scan_once].
    destruct s as [|c r]; [discriminate|]. cbn [List.length] in Hn.
    pose proof (skip_ws_length r) as Hw.
    destruct (N.eqb c quote); [discriminate|].
    destruct (N.eqb c (ch "{")).
    { destruct depth as [|depth']; [discriminate|].
      destruct (skip_ws r) as [|c1 r2]; [discriminate|].
      cbn [List.length] in Hw.
      destruct (N.eqb c1 (ch "}")); [discriminate|].
      destruct (N.eqb c1 quote); [|discriminate].
      apply IHm. lia. }
    destruct (N.eqb c (ch "[")); [|discriminate].
    destruct depth as [|depth']; [discriminate|].
    destruct (skip_ws r) as [|c1 r2]; [discriminate|].
    cbn [List.length] in Hw.
    destruct (N.eqb c1 (ch "]")); [discriminate|].
    apply IHe. cbn [List.length]. lia.
  - intros depth acc s Hn. cbn [members].
    destruct (scanstring s) as [[key r]|e] eqn:E; [|discriminate].
    apply scanstring_length in E.
    pose proof (skip_ws_length r) as Hw.
    destruct (eat [ch ":"] (skip_ws r)) as [r1|] eqn:E1; [|discriminate].
    apply eat_length in E1.
    pose proof (skip_ws_length r1) as Hw1.
    destruct (scan_once n depth (skip_ws r1)) as [[[value r2]|e]|] eqn:E2;
      [|discriminate|exfalso; revert E2; apply IHs; lia].
    apply Ls in E2.
    pose proof (skip_ws_length r2) as Hw2.
    destruct (skip_ws r2) as [|c r3]; [discriminate|].
    cbn [List.length] in Hw2.
    destruct (N.eqb c (ch "}")); [discriminate|].
    destruct (N.eqb c (ch ",")); [|discriminate].
    pose proof (skip_ws_length r3) as Hw3.
    destruct (eat [quote] (skip_ws r3)) as [r4|] eqn:E4; [|discriminate].
    apply eat_length in E4. apply IHm. lia.
  - intros depth acc s Hn. cbn [elements].
    destruct (scan_once n depth s) as [[[value r]|e]|] eqn:E;
      [|discriminate|exfalso; revert E; apply IHs; lia].
    apply Ls in E.
    pose proof (skip_ws_length r) as Hw.
    destruct (skip_ws r) as [|c r1]; [discriminate|].
    cbn [List.length] in Hw.
    destruct (N.eqb c (ch "]")); [discriminate|].
    destruct (N.eqb c (ch ",")); [|discriminate].
    pose proof (skip_ws_length r1) as Hw1.
    apply IHe. lia.
Qed.

End JsonSteps.

(** [Json.loads] never uses up its bound: the scan of the whole text
    returns. *)
Lemma scan_once_steps (depth : nat) (s : pystr) :
  exists r,
    Json.scan_once (2 * List.length s + 2) depth (Json.skip_ws s) = Some r.
Proof.
  destruct (Json.scan_once (2 * List.length s + 2) depth (Json.skip_ws s))
    as [r|] eqn:E; [exists r; reflexivity|].
  exfalso. revert E. apply (JsonSteps.scan_steps _).
  pose proof (JsonSteps.skip_ws_length s). lia.
Qed.

(** ** Strings *)

Lemma pystr_eqb_eq (a b : pystr) : pystr_eqb a b = true <-> a = b.
Proof.
  revert b; induction a as [|x a IH]; intros [|y b]; simpl;
    try (split; [discriminate | congruence]); try tauto.
  rewrite andb_true_iff, N.eqb_eq, IH. split.
  - intros [-> ->]; reflexivity.
  - intros H; injection H as -> ->; auto.
Qed.

Lemma pystr_eqb_refl (a : pystr) : pystr_eqb a a = true.
Proof. apply pystr_eqb_eq; reflexivity. Qed.

Lemma pystr_eqb_neq (a b : pystr) : pystr_eqb a b = false <-> a <> b.
Proof.
  rewrite <- pystr_eqb_eq. destruct (pystr_eqb a b); split; congruence.
Qed.

Lemma lstrip_nonspace (c : char) (s : pystr) :
  isspace c = false -> lstrip (c :: s) = c :: s.
Proof. intros H; simpl; rewrite H; reflexivity. Qed.

Lemma rstrip_cons_nonempty (c : char) (s : pystr) :
  rstrip s <> [] -> rstrip (c :: s) = c :: rstrip s.
Proof. simpl; destruct (rstrip s); congruence. Qed.

Lemma rstrip_nonspace_head (c : char) (s : pystr) :
  isspace c = false -> rstrip (c :: s) <> [].
Proof. intros H; simpl; rewrite H; destruct (rstrip s); discriminate. Qed.

Lemma rstrip_app (a b : pystr) :
  rstrip b <> [] -> rstrip (a ++ b) = a ++ rstrip b.
Proof.
  intros Hb; induction a as [|c a IH]; simpl app; [reflexivity|].
  assert (Hne : rstrip (a ++ b) <> []).
  { rewrite IH. destruct a; simpl; [assumption | discriminate]. }
  rewrite rstrip_cons_nonempty by exact Hne. rewrite IH. reflexivity.
Qed.

(** What [rstrip] removes is white space. *)
Lemma rstrip_spec (s : pystr) :
  exists tail, s = rstrip s ++ tail /\ forallb isspace tail = true.
Proof.
  induction s as [|c s (tail & E & W)]; [exists []; auto|].
  simpl. destruct (rstrip s) as [|d r] eqn:R.
  - destruct (isspace c) eqn:C.
    + exists (c :: s). split; [reflexivity|].
      simpl in E; subst tail; simpl; rewrite C, W; reflexivity.
    + exists tail. simpl in *; subst; auto.
  - exists tail. simpl in *. rewrite <- E. auto.
Qed.

(** A string whose last character is not white space is left as it is. *)
Lemma rstrip_id (s : pystr) (c : char) :
  isspace c = false -> rstrip (s ++ [c]) = s ++ [c].
Proof.
  intros H. assert (R : rstrip [c] = [c]) by (simpl; rewrite H; reflexivity).
  rewrite rstrip_app; rewrite R; [reflexivity | discriminate].
Qed.

Lemma rstrip_nonempty_mid (a b : pystr) (c : char) :
  isspace c = false -> rstrip (a ++ c :: b) <> [].
Proof.
  intros H; induction a as [|x a IH]; simpl app.
  - apply rstrip_nonspace_head; exact H.
  - rewrite rstrip_cons_nonempty by exact IH. discriminate.
Qed.

(** ** The prompt builder *)

Section PromptBuilder.

Variable env : Env.

Lemma format_prompt_template (query context : pystr) :
  format prompt_template [(py "question", query); (py "context", context)]
  = Ok (prompt_head ++ query ++ prompt_mid ++ context).
Proof.
  unfold prompt_template, format.
  change (assoc_get (py "question") _) with (Some query).
  change (assoc_get (py "context") _) with (Some context).
  unfold rbind. rewrite app_nil_r. reflexivity.
Qed.

Lemma prompt_head_nonspace :
  exists c rest, prompt_head = c :: rest /\ isspace c = false.
Proof. eexists _, _; split; [vm_compute; reflexivity | reflexivity]. Qed.

Lemma prompt_mid_shape :
  exists a b, prompt_mid = a ++ 67%N :: b /\ isspace 67%N = false.
Proof.
  exists (nl ++ nl), (py "ONTEXT: " ++ nl); split; reflexivity.
Qed.

Lemma strip_shape (head query tail : pystr) (c : char) (rest : pystr) :
  head = c :: rest -> isspace c = false -> rstrip tail <> [] ->
  strip (head ++ query ++ tail) = head ++ query ++ rstrip tail.
Proof.
  intros -> Hc Hne. unfold strip. simpl app.
  rewrite lstrip_nonspace by exact Hc.
  assert (Hq : rstrip (query ++ tail) = query ++ rstrip tail)
    by (apply rstrip_app; exact Hne).
  rewrite rstrip_cons_nonempty.
  - rewrite rstrip_app; rewrite Hq; [reflexivity|].
    destruct query; simpl; [exact Hne | discriminate].
  - rewrite rstrip_app; rewrite Hq.
    + destruct rest; simpl; [|discriminate].
      destruct query; simpl; [exact Hne | discriminate].
    + destruct query; simpl; [exact Hne | discriminate].
Qed.

(** The final [.strip()] acts on the end of the context only. *)
Lemma strip_prompt (query context : pystr) :
  strip (prompt_head ++ query ++ prompt_mid ++ context)
  = prompt_head ++ query ++ rstrip (prompt_mid ++ context).
Proof.
  destruct prompt_head_nonspace as (c & rest & Hh & Hc).
  apply (strip_shape _ _ _ c rest Hh Hc).
  destruct prompt_mid_shape as (a & b & -> & Hm).
  rewrite <- app_assoc. apply rstrip_nonempty_mid; exact Hm.
Qed.

Lemma render_doc_head (doc : pyval) (b : pystr) :
  render_doc env doc = Ok b -> exists rest, b = 70%N :: rest.
Proof.
  unfold render_doc, rbind. intros H.
  repeat match type of H with
         | match ?g with _ => _ end = _ => destruct g; [|discriminate]
         end.
  injection H as <-. eexists; reflexivity.
Qed.

Lemma render_docs_heads (docs : list pyval) (blocks : list pystr) :
  render_docs env docs = Ok blocks ->
  Forall2 (fun doc b => render_doc env doc = Ok b) docs blocks.
Proof.
  revert blocks; induction docs as [|d docs IH]; simpl; intros blocks H.
  - injection H as <-; constructor.
  - unfold rbind in H. destruct (render_doc env d) eqn:D; [|discriminate].
    destruct (render_docs env docs) eqn:R; [|discriminate].
    injection H as <-. constructor; auto.
Qed.

Lemma join_rstrip_last_nonempty (sep : pystr) (blocks : list pystr) :
  blocks <> [] -> Forall (fun b => rstrip b <> []) blocks ->
  join sep (rstrip_last blocks) <> [].
Proof.
  intros Hne HF. destruct blocks as [|b rest]; [congruence|].
  inversion HF as [|? ? Hb _]; subst.
  destruct rest as [|b' rest'].
  - exact Hb.
  - change (rstrip_last (b :: b' :: rest'))
      with (b :: rstrip_last (b' :: rest')).
    destruct b as [|c b]; [exfalso; apply Hb; reflexivity|].
    destruct (rstrip_last (b' :: rest')) eqn:E; simpl; discriminate.
Qed.

Lemma rstrip_join (sep : pystr) (blocks : list pystr) :
  Forall (fun b => rstrip b <> []) blocks ->
  rstrip (join sep blocks) = join sep (rstrip_last blocks).
Proof.
  induction 1 as [|b rest Hb Hrest IH]; [reflexivity|].
  destruct rest as [|b' rest']; [reflexivity|].
  assert (Hne : rstrip (join sep (b' :: rest')) <> []).
  { rewrite IH. apply join_rstrip_last_nonempty; [discriminate | exact Hrest]. }
  assert (Hs : rstrip (sep ++ join sep (b' :: rest'))
               = sep ++ rstrip (join sep (b' :: rest')))
    by (apply rstrip_app; exact Hne).
  assert (Hsne : rstrip (sep ++ join sep (b' :: rest')) <> []).
  { rewrite Hs. destruct sep; simpl; [exact Hne | discriminate]. }
  change (join sep (b :: b' :: rest'))
    with (b ++ sep ++ join sep (b' :: rest')).
  rewrite (rstrip_app b _ Hsne), Hs, IH.
  change (rstrip_last (b :: b' :: rest'))
    with (b :: rstrip_last (b' :: rest')).
  destruct (rstrip_last (b' :: rest')) eqn:E; [|reflexivity].
  destruct rest'; discriminate.
Qed.

End PromptBuilder.

Lemma prefix_of_spec (a b : pystr) :
  prefix_of a b = true <-> exists post, b = a ++ post.
Proof.
  revert b; induction a as [|x a IH]; intros b; simpl.
  - split; [intros _; exists b; reflexivity | reflexivity].
  - destruct b as [|y b].
    + split; [discriminate | intros (post & H); discriminate].
    + rewrite andb_true_iff, N.eqb_eq, IH. split.
      * intros (-> & post & ->). exists post; reflexivity.
      * intros (post & H). injection H as -> ->. split; eauto.
Qed.

Lemma infix_of_spec (a b : pystr) :
  infix_of a b = true <-> exists pre post, b = pre ++ a ++ post.
Proof.
  induction b as [|y b IH].
  - simpl. rewrite orb_false_r, prefix_of_spec. split.
    + intros (post & H). exists [], post; exact H.
    + intros (pre & post & H). destruct pre; [exists post; exact H|].
      discriminate.
  - change (infix_of a (y :: b))
      with (prefix_of a (y :: b) || infix_of a b).
    rewrite orb_true_iff, prefix_of_spec, IH. split.
    + intros [(post & H) | (pre & post & H)].
      * exists [], post; exact H.
      * exists (y :: pre), post. rewrite H; reflexivity.
    + intros (pre & post & H). destruct pre as [|z pre].
      * left. exists post; exact H.
      * right. injection H as _ H. exists pre, post; exact H.
Qed.

Lemma rstrip_last_id (blocks : list pystr) :
  rstrip (last blocks []) = last blocks [] -> rstrip_last blocks = blocks.
Proof.
  induction blocks as [|b rest IH]; [reflexivity|].
  destruct rest as [|b' rest'].
  - simpl. congruence.
  - intros H. change (rstrip_last (b :: b' :: rest'))
      with (b :: rstrip_last (b' :: rest')).
    rewrite IH; [reflexivity | exact H].
Qed.

(** C6. On an empty sequence of records [build_prompt] returns a prompt: the
    context it formats is the empty string, and the prompt is the preamble,
    the question and the [CONTEXT:] header with nothing after it. *)
Theorem build_prompt_empty (env : Env) (query : pystr) :
  build_context env [] = Ok [] /\
  build_prompt env query []
  = Ok (prompt_head ++ query ++ nl ++ nl ++ py "CONTEXT:").
Proof.
  split; [reflexivity|].
  unfold build_prompt. change (build_context env []) with (@Ok pystr []).
  unfold rbind at 1. rewrite format_prompt_template. unfold rbind.
  rewrite strip_prompt. rewrite app_nil_r. reflexivity.
Qed.

Lemma printable_str_of (env : Env) (v : pyval) :
  printable env v <-> exists s, str_of env v = Ok s.
Proof.
  destruct v as [|[|]|z| | | |]; cbn [printable str_of];
    try (split; [intros _; eexists; reflexivity | intros _; exact I]);
    try reflexivity.
  unfold str_of_Z.
  destruct (Nat.ltb_spec int_max_str_digits (decimal_digits z)) as [Hlt|Hle].
  - split; [lia | intros (s & Hs); discriminate].
  - split; [intros _; eexists; reflexivity | intros _; assumption].
Qed.

Lemma render_doc_total (env : Env) (doc : pyval) :
  nutrition_record env doc -> exists block, render_doc env doc = Ok block.
Proof.
  intros (kvs & -> & HF). rewrite Forall_forall in HF.
  assert (Hget : forall key, In key record_fields ->
                 exists s, fstring_field env (PDict kvs) key = Ok s).
  { intros key Hin. destruct (HF key Hin) as (v & Hv & Hp).
    unfold fstring_field, getitem. rewrite Hv. cbn [rbind].
    apply printable_str_of. exact Hp. }
  unfold render_doc.
  destruct (Hget (py "Food")) as (food & ->); [simpl; tauto|].
  destruct (Hget (py "Measure")) as (measure & ->); [simpl; tauto|].
  destruct (Hget (py "Calories")) as (calories & ->); [simpl; tauto|].
  destruct (Hget (py "Protein")) as (protein & ->); [simpl; tauto|].
  destruct (Hget (py "Fat")) as (fat & ->); [simpl; tauto|].
  destruct (Hget (py "SatFat")) as (satfat & ->); [simpl; tauto|].
  destruct (Hget (py "Fiber")) as (fiber & ->); [simpl; tauto|].
  destruct (Hget (py "Carbs")) as (carbs & ->); [simpl; tauto|].
  destruct (Hget (py "Category")) as (category & ->); [simpl; tauto|].
  unfold rbind. eexists; reflexivity.
Qed.

Lemma render_docs_total (env : Env) (docs : list pyval) :
  Forall (nutrition_record env) docs ->
  exists blocks, render_docs env docs = Ok blocks.
Proof.
  induction 1 as [|doc docs Hd _ (blocks & IH)]; [exists []; reflexivity|].
  destruct (render_doc_total env doc Hd) as (block & Hb).
  exists (block :: blocks). simpl. rewrite Hb, IH. reflexivity.
Qed.

(** C5, as the code has it.  For a non-empty sequence of nutrition records,
    dicts that have every field with a printable value, [build_prompt]
    returns a prompt: the preamble, the literal question, the context header
    and one block per record in the order of the records, separated by blank
    lines.  The last block is without its trailing white
    space, and the blocks are all as rendered when the last one does not end
    in white space. *)
Theorem build_prompt_blocks (env : Env) (query : pystr) (docs : list pyval) :
  docs <> [] ->
  Forall (nutrition_record env) docs ->
  exists blocks,
    Forall2 (fun doc block => render_doc env doc = Ok block) docs blocks
    /\ build_prompt env query docs
       = Ok (prompt_head ++ query ++ prompt_mid
             ++ join (nl ++ nl) (rstrip_last blocks))
    /\ (exists spaces, last blocks [] = rstrip (last blocks []) ++ spaces
                       /\ forallb isspace spaces = true)
    /\ (rstrip (last blocks []) = last blocks [] ->
        build_prompt env query docs
        = Ok (prompt_head ++ query ++ prompt_mid ++ join (nl ++ nl) blocks)).
Proof.
  intros Hdocs Hrec.
  destruct (render_docs_total env docs Hrec) as (blocks & Hr).
  exists blocks.
  pose proof (render_docs_heads env docs blocks Hr) as HF.
  assert (Hne : blocks <> []).
  { destruct HF; [congruence | discriminate]. }
  assert (Hall : Forall (fun b => rstrip b <> []) blocks).
  { clear Hne Hr Hdocs Hrec.
    induction HF as [|d b ds bs Hd _ IH]; constructor; auto.
    destruct (render_doc_head env d b Hd) as (rest & ->).
    apply rstrip_nonspace_head; reflexivity. }
  assert (Hmain : build_prompt env query docs
                  = Ok (prompt_head ++ query ++ prompt_mid
                        ++ join (nl ++ nl) (rstrip_last blocks))).
  { unfold build_prompt, build_context. rewrite Hr. unfold rbind at 2.
    unfold rbind at 1. rewrite format_prompt_template. unfold rbind.
    rewrite strip_prompt. rewrite rstrip_app; rewrite rstrip_join by exact Hall.
    - reflexivity.
    - apply join_rstrip_last_nonempty; assumption. }
  split; [exact HF|]. split; [exact Hmain|]. split.
  - apply rstrip_spec.
  - intros Hl. rewrite Hmain, (rstrip_last_id blocks Hl). reflexivity.
Qed.

(** A dict given in full is a nutrition record. *)
Ltac nutrition_record_tac :=
  eexists; split; [reflexivity|];
  repeat (apply Forall_cons;
          [eexists; split; [reflexivity|];
           cbn [printable];
           first [exact I | apply Nat.leb_le; vm_compute; reflexivity]|]);
  apply Forall_nil.

Lemma apple_banana_records :
  Forall (nutrition_record env_ok) [apple; banana].
Proof.
  apply Forall_cons; [|apply Forall_cons; [|apply Forall_nil]];
    nutrition_record_tac.
Defined.

Lemma build_prompt_blocks_witness :
  [apple; banana] <> [] /\
  Forall (nutrition_record env_ok) [apple; banana] /\
  exists blocks,
    Forall2 (fun doc block => render_doc env_ok doc = Ok block)
      [apple; banana] blocks
    /\ build_prompt env_ok (py "apple calories") [apple; banana]
       = Ok (prompt_head ++ py "apple calories" ++ prompt_mid
             ++ join (nl ++ nl) (rstrip_last blocks)).
Proof.
  assert (H1 : [apple; banana] <> []) by discriminate.
  split; [exact H1|]. split; [exact apple_banana_records|].
  destruct (build_prompt_blocks env_ok (py "apple calories") [apple; banana]
              H1 apple_banana_records) as (blocks & HF & Hp & _).
  exists blocks. split; assumption.
Defined.

(** C5 as stated fails: the block of a nutrition record whose category ends
    in a space does not occur in the prompt. *)
Lemma build_prompt_block_not_verbatim :
  Forall (nutrition_record env_ok) [padded] /\
  exists block prompt,
    render_docs env_ok [padded] = Ok [block] /\
    build_prompt env_ok (py "apple calories") [padded] = Ok prompt /\
    ~ (exists pre post, prompt = pre ++ block ++ post).
Proof.
  split.
  { apply Forall_cons; [|apply Forall_nil]. nutrition_record_tac. }
  eexists _, _. split; [vm_compute; reflexivity|].
  split; [vm_compute; reflexivity|].
  intros H. apply infix_of_spec in H. vm_compute in H. discriminate.
Qed.

(** ** The model name sent to the provider *)

Lemma split_nonempty (sep : char) (s : pystr) : split sep s <> [].
Proof.
  induction s as [|c s IH]; simpl; [discriminate|].
  destruct (N.eqb c sep); [discriminate|].
  destruct (split sep s); discriminate.
Qed.

Lemma split_no_sep (sep : char) (s : pystr) :
  ~ In sep s -> split sep s = [s].
Proof.
  induction s as [|c s IH]; simpl; intros H; [reflexivity|].
  destruct (N.eqb_spec c sep) as [->|_]; [exfalso; auto|].
  rewrite IH by tauto. reflexivity.
Qed.

Lemma split_sep_two (sep : char) (a b : pystr) :
  exists w v ws, split sep (a ++ sep :: b) = w :: v :: ws.
Proof.
  induction a as [|c a (w & v & ws & IH)]; simpl.
  - rewrite N.eqb_refl. destruct (split sep b) as [|v ws] eqn:E.
    + exfalso; exact (split_nonempty sep b E).
    + eexists _, _, _; reflexivity.
  - rewrite IH. destruct (N.eqb c sep); eexists _, _, _; reflexivity.
Qed.

Lemma last_default {A} (l : list A) (x d d' : A) :
  last (x :: l) d = last (x :: l) d'.
Proof.
  revert x; induction l as [|y l IH]; intros x; [reflexivity|].
  change (last (y :: l) d = last (y :: l) d'). apply IH.
Qed.

Lemma last_item_cons {A} (x y : A) (l : list A) :
  last_item (x :: y :: l) = last_item (y :: l).
Proof.
  unfold last_item. f_equal. change (last (y :: l) x = last l y).
  destruct l as [|z l]; [reflexivity|].
  change (last (z :: l) x = last (z :: l) y). apply last_default.
Qed.

(** The last piece of a split is what follows the last separator. *)
Lemma split_last (sep : char) (a b : pystr) :
  ~ In sep b -> last_item (split sep (a ++ sep :: b)) = Ok b.
Proof.
  intros Hb. induction a as [|c a IH]; simpl.
  - rewrite N.eqb_refl, (split_no_sep sep b Hb). reflexivity.
  - destruct (split_sep_two sep a b) as (w & v & ws & E).
    rewrite E in *. destruct (N.eqb c sep).
    + rewrite last_item_cons. exact IH.
    + rewrite last_item_cons in *. exact IH.
Qed.


Lemma last_item_split_total (sep : char) (s : pystr) :
  exists name, last_item (split sep s) = Ok name.
Proof.
  destruct (split sep s) eqn:E; [exfalso; exact (split_nonempty sep s E)|].
  eexists; reflexivity.
Qed.

(** ** The monad and the logs *)

Lemma bind_ok {A B} (m : M A) (k : A -> M B) (w w' : World) (b : B) :
  bind m k w = (Ok b, w') ->
  exists a w1, m w = (Ok a, w1) /\ k a w1 = (Ok b, w').
Proof.
  unfold bind. destruct (m w) as [[a|e] w1]; [eauto | discriminate].
Qed.

Lemma lift_ok {A} (r : result A) (w w' : World) (a : A) :
  lift r w = (Ok a, w') -> r = Ok a /\ w' = w.
Proof. unfold lift. intros H; injection H as -> ->; auto. Qed.

Lemma keeps_es_log_bind {A B} (m : M A) (k : A -> M B) :
  keeps_es_log m -> (forall a, keeps_es_log (k a)) -> keeps_es_log (bind m k).
Proof.
  intros Hm Hk w. unfold bind. specialize (Hm w).
  destruct (m w) as [[a|e] w1]; simpl in *; [rewrite Hk|]; exact Hm.
Qed.

Lemma keeps_llm_log_bind {A B} (m : M A) (k : A -> M B) :
  keeps_llm_log m -> (forall a, keeps_llm_log (k a)) ->
  keeps_llm_log (bind m k).
Proof.
  intros Hm Hk w. unfold bind. specialize (Hm w).
  destruct (m w) as [[a|e] w1]; simpl in *; [rewrite Hk|]; exact Hm.
Qed.

Lemma keeps_es_log_lift {A} (r : result A) : keeps_es_log (lift r).
Proof. intros w; reflexivity. Qed.

Lemma keeps_llm_log_lift {A} (r : result A) : keeps_llm_log (lift r).
Proof. intros w; reflexivity. Qed.

Lemma keeps_es_log_ret {A} (a : A) : keeps_es_log (ret a).
Proof. intros w; reflexivity. Qed.

Section Pipeline.

Variable env : Env.

Lemma keeps_es_log_llm (prompt model_choice : pystr) :
  keeps_es_log (llm env prompt model_choice).
Proof.
  unfold llm.
  repeat (apply keeps_es_log_bind; [|intros ?]);
    try apply keeps_es_log_lift; try apply keeps_es_log_ret;
    intros w; reflexivity.
Qed.

Lemma keeps_es_log_evaluate (question answer : pystr) :
  keeps_es_log (evaluate_relevance env question answer).
Proof.
  unfold evaluate_relevance.
  apply keeps_es_log_bind; [apply keeps_es_log_lift | intros prompt].
  apply keeps_es_log_bind; [apply keeps_es_log_llm | intros [[? ?] ?]].
  apply keeps_es_log_lift.
Qed.

Lemma keeps_llm_log_search (index_name : pystr) (body : pyval) :
  keeps_llm_log (es_client_search env index_name body).
Proof. intros w; reflexivity. Qed.

Lemma keeps_llm_log_retrieve (query category : pystr) (search_type : pyval) :
  keeps_llm_log (retrieve env query category search_type).
Proof.
  unfold retrieve, elastic_search_knn, elastic_search_text.
  destruct (eq_str search_type (py "Vector"));
    repeat (apply keeps_llm_log_bind; [|intros ?]);
    try apply keeps_llm_log_lift; apply keeps_llm_log_search.
Qed.

(** What [retrieve] sends to the index. *)
Lemma es_log_retrieve (query category : pystr) (search_type : pyval)
    (w : World) :
  es_log (snd (retrieve env query category search_type w))
  = es_log w ++
    (if eq_str search_type (py "Vector") then
       match encode env query with
       | Ok vector =>
           [(default_index, knn_query (py "full_vector") vector category)]
       | Raise _ => []
       end
     else [(default_index, text_query query category)]).
Proof.
  unfold retrieve. destruct (eq_str search_type (py "Vector")).
  - unfold bind, lift. destruct (encode env query) as [vector|e].
    + unfold elastic_search_knn, bind, es_client_search, lift.
      destruct (es_search env _ _ _); reflexivity.
    + simpl. rewrite app_nil_r. reflexivity.
  - unfold elastic_search_text, bind, es_client_search, lift.
    destruct (es_search env _ _ _); reflexivity.
Qed.

(** One call of [llm], for a model identifier whose last segment is
    [name]. *)
Lemma llm_run (prompt model_choice name : pystr) (w : World) :
  last_item (split 47%N model_choice) = Ok name ->
  llm env prompt model_choice w =
  match chat_create env (List.length (llm_log w)) (chat_request name prompt)
  with
  | Ok response =>
      (Ok (resp_content response, resp_usage response,
           Float.sub (time_time env (S (clock_reads w)))
                     (time_time env (clock_reads w))),
       {| es_log := es_log w;
          llm_log := llm_log w ++ [chat_request name prompt];
          clock_reads := S (S (clock_reads w)) |})
  | Raise e =>
      (Raise e,
       {| es_log := es_log w;
          llm_log := llm_log w ++ [chat_request name prompt];
          clock_reads := S (clock_reads w) |})
  end.
Proof.
  intros Hname. unfold llm, bind, time_now, lift. rewrite Hname.
  unfold chat_completions_create, chat_request. simpl.
  destruct (chat_create env _ _); reflexivity.
Qed.

Lemma format_eval_template (question answer : pystr) :
  format eval_template [(py "question", question); (py "answer", answer)]
  = Ok (judge_prompt question answer).
Proof.
  unfold eval_template, format.
  change (assoc_get (py "question") _) with (Some question).
  change (assoc_get (py "answer") _) with (Some answer).
  unfold rbind, judge_prompt. rewrite app_nil_r. reflexivity.
Qed.

Lemma judge_model_name :
  last_item (split 47%N judge_model) = Ok (py "gpt-4o-mini").
Proof. vm_compute; reflexivity. Qed.

(** One call of [evaluate_relevance]. *)
Lemma evaluate_run (question answer : pystr) (w : World) :
  fst (evaluate_relevance env question answer w) =
  match chat_create env (List.length (llm_log w))
          (chat_request (py "gpt-4o-mini") (judge_prompt question answer))
  with
  | Ok response =>
      except_JSONDecodeError
        (rbind (json_loads env (resp_content response)) (fun json_eval =>
         rbind (getitem json_eval (py "Relevance")) (fun relevance =>
         rbind (getitem json_eval (py "Explanation")) (fun explanation =>
         Ok (relevance, explanation, resp_usage response)))))
        (Ok (PStr (py "UNKNOWN"), PStr (py "Failed to parse evaluation"),
             resp_usage response))
  | Raise e => Raise e
  end.
Proof.
  unfold evaluate_relevance. unfold bind at 1. rewrite format_eval_template.
  unfold lift at 1. unfold bind.
  rewrite (llm_run _ _ _ _ judge_model_name).
  destruct (chat_create env _ _); reflexivity.
Qed.

Lemma llm_log_evaluate (question answer : pystr) (w : World) :
  llm_log (snd (evaluate_relevance env question answer w))
  = llm_log w ++
    [chat_request (py "gpt-4o-mini") (judge_prompt question answer)].
Proof.
  unfold evaluate_relevance. unfold bind at 1. rewrite format_eval_template.
  unfold lift at 1. unfold bind.
  rewrite (llm_run _ _ _ _ judge_model_name).
  destruct (chat_create env _ _); reflexivity.
Qed.

End Pipeline.

(** ** The relevance evaluator *)

(** What the decoder raises decides: [JSONDecodeError] is handled, every
    other exception goes through. *)
Lemma evaluate_decoder_raises (env : Env) (question answer : pystr)
    (w : World) (response : ChatResponse) (e : exn) :
  chat_create env (List.length (llm_log w))
    (chat_request (py "gpt-4o-mini") (judge_prompt question answer))
  = Ok response ->
  json_loads env (resp_content response) = Raise e ->
  fst (evaluate_relevance env question answer w)
  = match e with
    | JSONDecodeError =>
        Ok (PStr (py "UNKNOWN"), PStr (py "Failed to parse evaluation"),
            resp_usage response)
    | _ => Raise e
    end.
Proof.
  intros Hc Hj. rewrite evaluate_run, Hc, Hj. destruct e; reflexivity.
Qed.

Lemma evaluate_decoder_other (env : Env) (question answer : pystr)
    (w : World) (response : ChatResponse) (e : exn) :
  chat_create env (List.length (llm_log w))
    (chat_request (py "gpt-4o-mini") (judge_prompt question answer))
  = Ok response ->
  e <> JSONDecodeError ->
  json_loads env (resp_content response) = Raise e ->
  fst (evaluate_relevance env question answer w) = Raise e.
Proof.
  intros Hc Hne Hj. rewrite (evaluate_decoder_raises _ _ _ _ _ _ Hc Hj).
  destruct e; congruence.
Qed.

(** C2 as stated fails: 3000 opening brackets are not JSON, as the decoder
    finds when the stack allows it to read them all, and where the stack
    allows 990 nested containers the decoder raises [RecursionError], which
    [evaluate_relevance] does not handle. *)
Lemma evaluate_not_json_raises :
  Json.loads 3000 reply_deep = Raise JSONDecodeError /\
  json_loads env_deep reply_deep = Raise RecursionError /\
  fst (evaluate_relevance env_deep (py "apple calories")
         (py "A medium apple has 95 calories.") world1)
  = Raise RecursionError.
Proof. repeat split; vm_compute; reflexivity. Qed.

(** C2, as the code has it.  When [json.loads] raises [JSONDecodeError] on
    the judge's response, [evaluate_relevance] returns the verdict UNKNOWN,
    the explanation "Failed to parse evaluation" and the token counts of that
    response, and nothing is raised; when [json.loads] raises another
    exception, [evaluate_relevance] raises it. *)
Theorem evaluate_not_json (env : Env) (question answer : pystr) (w : World)
    (response : ChatResponse) :
  chat_create env (List.length (llm_log w))
    (chat_request (py "gpt-4o-mini") (judge_prompt question answer))
  = Ok response ->
  (json_loads env (resp_content response) = Raise JSONDecodeError ->
   fst (evaluate_relevance env question answer w)
   = Ok (PStr (py "UNKNOWN"), PStr (py "Failed to parse evaluation"),
         resp_usage response))
  /\
  (forall e,
     e <> JSONDecodeError ->
     json_loads env (resp_content response) = Raise e ->
     fst (evaluate_relevance env question answer w) = Raise e).
Proof.
  intros Hc. split.
  - intros Hj. exact (evaluate_decoder_raises _ _ _ _ _ _ Hc Hj).
  - intros e Hne Hj. exact (evaluate_decoder_other _ _ _ _ _ _ Hc Hne Hj).
Qed.

Lemma evaluate_not_json_witness :
  json_loads env_not_json reply_not_json = Raise JSONDecodeError /\
  fst (evaluate_relevance env_not_json (py "apple calories")
         (py "A medium apple has 95 calories.") world1)
  = Ok (PStr (py "UNKNOWN"), PStr (py "Failed to parse evaluation"),
        {| prompt_tokens := 300; completion_tokens := 30;
           total_tokens := 330 |}).
Proof.
  assert (Hj : json_loads env_not_json reply_not_json = Raise JSONDecodeError)
    by (vm_compute; reflexivity).
  split; [exact Hj|].
  exact (proj1 (evaluate_not_json env_not_json (py "apple calories")
                  (py "A medium apple has 95 calories.") world1
                  (stub_judge reply_not_json) eq_refl) Hj).
Defined.

(** C1 as stated fails: a response that is valid JSON, an object without the
    key [Relevance], makes [evaluate_relevance] raise [KeyError]. *)
Lemma evaluate_missing_key_raises :
  json_loads env_no_relevance reply_no_relevance
  = Ok (PDict [(py "Explanation", PStr (py "ok"))]) /\
  fst (evaluate_relevance env_no_relevance (py "apple calories")
         (py "A medium apple has 95 calories.") world1)
  = Raise (KeyError (py "Relevance")).
Proof. split; vm_compute; reflexivity. Qed.

(** C1, as the code has it.  When the judge's response decodes to an object
    that lacks [Relevance] or [Explanation], [evaluate_relevance] raises
    [KeyError] for [Relevance] when that key is missing, and for
    [Explanation] otherwise: [Relevance] is read first.  The handler is for
    [JSONDecodeError] only: that exception of the decoder gives the verdict
    UNKNOWN, and every other exception of the decoder is raised. *)
Theorem evaluate_missing_key (env : Env) (question answer : pystr)
    (w : World) (response : ChatResponse) :
  chat_create env (List.length (llm_log w))
    (chat_request (py "gpt-4o-mini") (judge_prompt question answer))
  = Ok response ->
  (forall kvs,
     json_loads env (resp_content response) = Ok (PDict kvs) ->
     assoc_get (py "Relevance") kvs = None
     \/ assoc_get (py "Explanation") kvs = None ->
     fst (evaluate_relevance env question answer w)
     = Raise (KeyError
                (match assoc_get (py "Relevance") kvs with
                 | None => py "Relevance"
                 | Some _ => py "Explanation"
                 end)))
  /\
  (json_loads env (resp_content response) = Raise JSONDecodeError ->
   fst (evaluate_relevance env question answer w)
   = Ok (PStr (py "UNKNOWN"), PStr (py "Failed to parse evaluation"),
         resp_usage response))
  /\
  (forall e,
     e <> JSONDecodeError ->
     json_loads env (resp_content response) = Raise e ->
     fst (evaluate_relevance env question answer w) = Raise e).
Proof.
  intros Hc. split; [|split].
  - intros kvs Hj Hk. rewrite evaluate_run, Hc, Hj.
    unfold rbind, getitem.
    destruct (assoc_get (py "Relevance") kvs) as [r|]; [|reflexivity].
    destruct Hk as [Hk|Hk]; [discriminate|]. rewrite Hk. reflexivity.
  - intros Hj. exact (evaluate_decoder_raises _ _ _ _ _ _ Hc Hj).
  - intros e Hne Hj. exact (evaluate_decoder_other _ _ _ _ _ _ Hc Hne Hj).
Qed.

Lemma evaluate_missing_key_witness :
  fst (evaluate_relevance env_no_relevance (py "apple calories")
         (py "A medium apple has 95 calories.") world1)
  = Raise (KeyError (py "Relevance")).
Proof.
  refine (proj1 (evaluate_missing_key env_no_relevance (py "apple calories")
                   (py "A medium apple has 95 calories.") world1
                   (stub_judge reply_no_relevance) eq_refl)
            [(py "Explanation", PStr (py "ok"))] _ _).
  - vm_compute; reflexivity.
  - left; vm_compute; reflexivity.
Defined.

(** ** The retriever *)

(** C7. The request of the vector search has a [knn] clause with [k] equal
    to 5, [num_candidates] equal to 10000 and the filter
    [{"term": {"Category": category}}], whatever the vector, the field, the
    category and the answer of the index. *)
Theorem knn_request (env : Env) (field : pystr) (vector : pyval)
    (category index_name : pystr) (w : World) :
  exists body knn filter,
    es_log (snd (elastic_search_knn env field vector category index_name w))
    = es_log w ++ [(index_name, body)] /\
    getitem body (py "knn") = Ok knn /\
    getitem knn (py "query_vector") = Ok vector /\
    getitem knn (py "k") = Ok (PInt 5) /\
    getitem knn (py "num_candidates") = Ok (PInt 10000) /\
    getitem knn (py "filter") = Ok filter /\
    filter = PDict [(py "term", PDict [(py "Category", PStr category)])].
Proof.
  exists (knn_query field vector category),
         (knn_clause field vector category),
         (PDict [(py "term", PDict [(py "Category", PStr category)])]).
  split; [|repeat split; reflexivity].
  unfold elastic_search_knn, bind, es_client_search, lift.
  destruct (es_search env _ _ _); reflexivity.
Qed.

(** ** The orchestrator *)

Lemma es_log_bind {A B} (m : M A) (k : A -> M B) (w : World) :
  (forall a, keeps_es_log (k a)) ->
  es_log (snd (bind m k w)) = es_log (snd (m w)).
Proof.
  intros Hk. unfold bind.
  destruct (m w) as [[a|e] w1]; simpl; [apply Hk | reflexivity].
Qed.

Lemma eq_str_true (v : pyval) (s : pystr) :
  eq_str v s = true <-> v = PStr s.
Proof.
  destruct v; simpl; try (split; [discriminate | congruence]).
  rewrite pystr_eqb_eq. split; congruence.
Qed.

Lemma knn_query_not_text (field : pystr) (vector : pyval)
    (category query category' : pystr) :
  knn_query field vector category <> text_query query category'.
Proof.
  intros H. apply (f_equal (fun v => getitem v (py "size"))) in H.
  vm_compute in H. discriminate.
Qed.

Section Orchestrator.

Variable env : Env.

Lemma get_answer_retrieve (query category model_choice : pystr)
    (search_type : pyval) (w : World) :
  es_log (snd (get_answer env query category model_choice search_type w))
  = es_log (snd (retrieve env query category search_type w)).
Proof.
  unfold get_answer.
  change (if eq_str search_type (py "Vector") then _ else _)
    with (retrieve env query category search_type).
  apply es_log_bind. intros search_results.
  apply keeps_es_log_bind; [apply keeps_es_log_lift | intros prompt].
  apply keeps_es_log_bind; [apply keeps_es_log_llm | intros [[? ?] ?]].
  apply keeps_es_log_bind; [apply keeps_es_log_evaluate | intros [[? ?] ?]].
  apply keeps_es_log_bind; [apply keeps_es_log_lift | intros cost].
  apply keeps_es_log_ret.
Qed.

(** A run of [get_answer] that returns: the two requests it sent to the
    chat API, their responses, and the report. *)
Lemma get_answer_ok (query category model_choice : pystr)
    (search_type : pyval) (w w' : World) (report : pyval) :
  get_answer env query category model_choice search_type w = (Ok report, w') ->
  exists search_results prompt name gen judge relevance explanation cost,
    fst (retrieve env query category search_type w) = Ok search_results /\
    build_prompt env query search_results = Ok prompt /\
    last_item (split 47%N model_choice) = Ok name /\
    chat_create env (List.length (llm_log w)) (chat_request name prompt)
    = Ok gen /\
    chat_create env (S (List.length (llm_log w)))
      (chat_request (py "gpt-4o-mini")
         (judge_prompt query (resp_content gen)))
    = Ok judge /\
    calculate_openai_cost model_choice (resp_usage gen) = Ok cost /\
    llm_log w'
    = llm_log w ++
      [chat_request name prompt;
       chat_request (py "gpt-4o-mini")
         (judge_prompt query (resp_content gen))] /\
    report = PDict [
      (py "answer", PStr (resp_content gen));
      (py "response_time",
       PFloat (Float.sub
                 (time_time env (S (clock_reads
                    (snd (retrieve env query category search_type w)))))
                 (time_time env (clock_reads
                    (snd (retrieve env query category search_type w))))));
      (py "relevance", relevance);
      (py "relevance_explanation", explanation);
      (py "model_used", PStr model_choice);
      (py "prompt_tokens", PInt (prompt_tokens (resp_usage gen)));
      (py "completion_tokens", PInt (completion_tokens (resp_usage gen)));
      (py "total_tokens", PInt (total_tokens (resp_usage gen)));
      (py "eval_prompt_tokens", PInt (prompt_tokens (resp_usage judge)));
      (py "eval_completion_tokens",
       PInt (completion_tokens (resp_usage judge)));
      (py "eval_total_tokens", PInt (total_tokens (resp_usage judge)));
      (py "openai_cost", cost)].
Proof.
  unfold get_answer.
  change (if eq_str search_type (py "Vector") then _ else _)
    with (retrieve env query category search_type).
  intros H.
  apply bind_ok in H as (search_results & w1 & Hs & H).
  apply bind_ok in H as (prompt & w2 & Hp & H).
  apply lift_ok in Hp as (Hp & ->).
  apply bind_ok in H as ([[answer tokens] response_time] & w3 & Hl & H).
  apply bind_ok in H as ([[relevance explanation] eval_tokens] & w4 & He & H).
  apply bind_ok in H as (cost & w5 & Hc & H).
  apply lift_ok in Hc as (Hc & ->).
  unfold ret in H. injection H as <- <-.
  destruct (last_item_split_total 47%N model_choice) as (name & Hname).
  pose proof (keeps_llm_log_retrieve env query category search_type w) as Hll.
  rewrite Hs in Hll. simpl in Hll.
  rewrite (llm_run env prompt model_choice name w1 Hname) in Hl.
  destruct (chat_create env (List.length (llm_log w1))
              (chat_request name prompt)) as [gen|e] eqn:Hgen;
    [|discriminate].
  injection Hl as <- <- <- <-.
  rewrite Hll in Hgen.
  match type of He with
  | evaluate_relevance _ _ _ ?w3 = _ =>
      pose proof (evaluate_run env query (resp_content gen) w3) as Hrun;
      pose proof (llm_log_evaluate env query (resp_content gen) w3) as Hlog
  end.
  rewrite He in Hrun. cbn [fst llm_log] in Hrun.
  rewrite Hll, length_app, Nat.add_comm in Hrun. cbn [List.length Nat.add] in Hrun.
  destruct (chat_create env (S (List.length (llm_log w)))
              (chat_request (py "gpt-4o-mini")
                 (judge_prompt query (resp_content gen))))
    as [judge|e] eqn:Hjudge; [|discriminate].
  assert (Htok : eval_tokens = resp_usage judge).
  { unfold except_JSONDecodeError, rbind in Hrun.
    destruct (json_loads env (resp_content judge)) as [j|ex];
      [|destruct ex; try discriminate; congruence].
    destruct (getitem j (py "Relevance")) as [r|ex];
      [|destruct ex; try discriminate; congruence].
    destruct (getitem j (py "Explanation")) as [x|ex];
      [|destruct ex; try discriminate; congruence].
    congruence. }
  subst eval_tokens.
  rewrite He in Hlog. cbn [snd llm_log] in Hlog.
  rewrite Hll, <- app_assoc in Hlog.
  exists search_results, prompt, name, gen, judge, relevance, explanation, cost.
  rewrite Hs. cbn [fst snd].
  repeat split; try assumption; try reflexivity.
Qed.

End Orchestrator.

(** C9. [get_answer] sends the vector request exactly when [search_type] is
    the string "Vector"; for every other value, "Keyword" and "vector" among
    them, it sends the keyword request, and the two requests differ. *)
Theorem search_mode (env : Env) (query category model_choice : pystr)
    (search_type : pyval) (w : World) :
  (eq_str search_type (py "Vector") = true
   <-> search_type = PStr (py "Vector")) /\
  es_log (snd (get_answer env query category model_choice search_type w))
  = es_log w ++
    (if eq_str search_type (py "Vector") then
       match encode env query with
       | Ok vector =>
           [(default_index, knn_query (py "full_vector") vector category)]
       | Raise _ => []
       end
     else [(default_index, text_query query category)]) /\
  eq_str (PStr (py "Keyword")) (py "Vector") = false /\
  eq_str (PStr (py "vector")) (py "Vector") = false /\
  (forall vector,
     knn_query (py "full_vector") vector category
     <> text_query query category).
Proof.
  split; [apply eq_str_true|].
  split; [rewrite get_answer_retrieve; apply es_log_retrieve|].
  split; [reflexivity|]. split; [reflexivity|].
  intros vector; apply knn_query_not_text.
Qed.

(** C10. In a report that [get_answer] returns, [openai_cost] is
    [calculate_openai_cost] of the caller's model identifier and of the token
    counts of the answer's completion; the token counts of the judge's
    completion are the [eval_] fields and nothing else. *)
Theorem cost_from_generation (env : Env)
    (query category model_choice : pystr) (search_type : pyval)
    (w w' : World) (report : pyval) :
  get_answer env query category model_choice search_type w = (Ok report, w') ->
  exists name prompt gen judge,
    chat_create env (List.length (llm_log w)) (chat_request name prompt)
    = Ok gen /\
    chat_create env (S (List.length (llm_log w)))
      (chat_request (py "gpt-4o-mini")
         (judge_prompt query (resp_content gen)))
    = Ok judge /\
    getitem report (py "openai_cost")
    = calculate_openai_cost model_choice (resp_usage gen) /\
    getitem report (py "prompt_tokens")
    = Ok (PInt (prompt_tokens (resp_usage gen))) /\
    getitem report (py "completion_tokens")
    = Ok (PInt (completion_tokens (resp_usage gen))) /\
    getitem report (py "total_tokens")
    = Ok (PInt (total_tokens (resp_usage gen))) /\
    getitem report (py "eval_prompt_tokens")
    = Ok (PInt (prompt_tokens (resp_usage judge))) /\
    getitem report (py "eval_completion_tokens")
    = Ok (PInt (completion_tokens (resp_usage judge))) /\
    getitem report (py "eval_total_tokens")
    = Ok (PInt (total_tokens (resp_usage judge))).
Proof.
  intros H.
  destruct (get_answer_ok env _ _ _ _ _ _ _ H)
    as (docs & prompt & name & gen & judge & rel & expl & cost
        & _ & _ & _ & Hgen & Hjudge & Hcost & _ & ->).
  exists name, prompt, gen, judge.
  split; [exact Hgen|]. split; [exact Hjudge|].
  split; [rewrite Hcost; reflexivity|].
  repeat split; reflexivity.
Qed.

Lemma cost_from_generation_witness :
  get_answer env_ok (py "apple calories") (py "Fruits") (py "openai/gpt-4o")
    (PStr (py "Keyword")) world0
  = (Ok demo_report, snd demo_run) /\
  exists name prompt gen judge,
    chat_create env_ok (List.length (llm_log world0))
      (chat_request name prompt) = Ok gen /\
    chat_create env_ok (S (List.length (llm_log world0)))
      (chat_request (py "gpt-4o-mini")
         (judge_prompt (py "apple calories") (resp_content gen)))
    = Ok judge /\
    getitem demo_report (py "openai_cost")
    = calculate_openai_cost (py "openai/gpt-4o") (resp_usage gen) /\
    getitem demo_report (py "prompt_tokens")
    = Ok (PInt (prompt_tokens (resp_usage gen))) /\
    getitem demo_report (py "completion_tokens")
    = Ok (PInt (completion_tokens (resp_usage gen))) /\
    getitem demo_report (py "total_tokens")
    = Ok (PInt (total_tokens (resp_usage gen))) /\
    getitem demo_report (py "eval_prompt_tokens")
    = Ok (PInt (prompt_tokens (resp_usage judge))) /\
    getitem demo_report (py "eval_completion_tokens")
    = Ok (PInt (completion_tokens (resp_usage judge))) /\
    getitem demo_report (py "eval_total_tokens")
    = Ok (PInt (total_tokens (resp_usage judge))).
Proof.
  assert (H : get_answer env_ok (py "apple calories") (py "Fruits")
                (py "openai/gpt-4o") (PStr (py "Keyword")) world0
              = (Ok demo_report, snd demo_run))
    by (vm_compute; reflexivity).
  split; [exact H|].
  exact (cost_from_generation env_ok _ _ _ _ _ _ _ H).
Defined.

Lemma cost_of_bare_name (name : pystr) (tokens : Usage) :
  ~ In 47%N name -> calculate_openai_cost name tokens = Ok (PInt 0).
Proof.
  intros Hn. unfold calculate_openai_cost.
  assert (Hk : forall key, In 47%N key -> pystr_eqb name key = false).
  { intros key Hin. apply pystr_eqb_neq. intros ->. exact (Hn Hin). }
  rewrite (Hk (py "openai/gpt-3.5-turbo"))
    by (vm_compute; tauto).
  unfold existsb.
  rewrite (Hk (py "openai/gpt-4o")) by (vm_compute; tauto).
  rewrite (Hk (py "openai/gpt-4o-mini")) by (vm_compute; tauto).
  reflexivity.
Qed.

(** ** Binary64 rounding *)

Lemma digits2_pos_spec (p : positive) :
  2 ^ (Zpos (digits2_pos p) - 1) <= Zpos p < 2 ^ Zpos (digits2_pos p).
Proof.
  induction p as [p IH|p IH|]; simpl digits2_pos.
  - rewrite Pos2Z.inj_succ.
    replace (Z.succ (Zpos (digits2_pos p)) - 1) with (Z.succ (Zpos (digits2_pos p) - 1)) by lia.
    rewrite !Z.pow_succ_r by lia. lia.
  - rewrite Pos2Z.inj_succ.
    replace (Z.succ (Zpos (digits2_pos p)) - 1) with (Z.succ (Zpos (digits2_pos p) - 1)) by lia.
    rewrite !Z.pow_succ_r by lia. lia.
  - simpl. lia.
Qed.

Lemma digits_pos (z : Z) : 0 < z -> 0 < digits z /\ 2 ^ (digits z - 1) <= z < 2 ^ digits z.
Proof.
  destruct z as [|p|p]; try lia. intros _. unfold digits, Zdigits2.
  split; [lia | apply digits2_pos_spec].
Qed.

Lemma digits_0 : digits 0 = 0.
Proof. reflexivity. Qed.

Lemma digits_nonneg (z : Z) : 0 <= digits z.
Proof. destruct z; simpl; unfold digits; simpl; lia. Qed.

Lemma digits_unique (z d : Z) :
  0 < d -> 2 ^ (d - 1) <= z < 2 ^ d -> digits z = d.
Proof.
  intros Hd [Hl Hu].
  assert (0 < z) by (pose proof (Z.pow_pos_nonneg 2 (d - 1)); lia).
  destruct (digits_pos z H) as (Hp & Hl' & Hu').
  destruct (Z.lt_trichotomy (digits z) d) as [L|[E|G]]; [|exact E|].
  - assert (2 ^ digits z <= 2 ^ (d - 1)) by (apply Z.pow_le_mono_r; lia). lia.
  - assert (2 ^ d <= 2 ^ (digits z - 1)) by (apply Z.pow_le_mono_r; lia). lia.
Qed.

Lemma digits_mono (a b : Z) : 0 <= a <= b -> digits a <= digits b.
Proof.
  intros [Ha Hab]. destruct (Z.eq_dec a 0) as [->|Hn].
  - rewrite digits_0. apply digits_nonneg.
  - destruct (digits_pos a ltac:(lia)) as (Hpa & Hla & Hua).
    destruct (digits_pos b ltac:(lia)) as (Hpb & Hlb & Hub).
    destruct (Z_lt_le_dec (digits b) (digits a)) as [L|]; [|assumption].
    assert (2 ^ digits b <= 2 ^ (digits a - 1)) by (apply Z.pow_le_mono_r; lia).
    lia.
Qed.

Lemma digits_shift (m k : Z) : 0 < m -> 0 <= k -> digits (m * 2 ^ k) = digits m + k.
Proof.
  intros Hm Hk. destruct (digits_pos m Hm) as (Hp & Hl & Hu).
  apply digits_unique; [lia|].
  replace (digits m + k - 1) with ((digits m - 1) + k) by lia.
  rewrite !Z.pow_add_r by lia.
  pose proof (Z.pow_pos_nonneg 2 k ltac:(lia) Hk). nia.
Qed.

Lemma min_shift_eq : min_shift = 1076.
Proof. reflexivity. Qed.

Lemma shift_of_ge (c : Z) : min_shift <= shift_of c.
Proof. unfold shift_of; lia. Qed.

Lemma shift_of_pos (c : Z) : 0 < shift_of c.
Proof. pose proof (shift_of_ge c). rewrite min_shift_eq in *. lia. Qed.

Lemma shift_of_digits (c : Z) : digits c - 53 <= shift_of c.
Proof. unfold shift_of; lia. Qed.

Lemma shift_of_mono (a b : Z) : 0 <= a <= b -> shift_of a <= shift_of b.
Proof.
  intros H. pose proof (digits_mono a b H). unfold shift_of. lia.
Qed.

Lemma pow2_pos (n : Z) : 0 <= n -> 0 < 2 ^ n.
Proof. intros; apply Z.pow_pos_nonneg; lia. Qed.

(** [c] is below [2 ^ (shift_of c + 53)]. *)
Lemma code_upper (c : Z) : 0 <= c -> c < 2 ^ (shift_of c + 53).
Proof.
  intros Hc. destruct (Z.eq_dec c 0) as [->|Hn].
  - apply pow2_pos. pose proof (shift_of_pos 0). lia.
  - destruct (digits_pos c ltac:(lia)) as (_ & _ & Hu).
    apply Z.lt_le_trans with (1 := Hu).
    apply Z.pow_le_mono_r; [lia|]. pose proof (shift_of_digits c). lia.
Qed.

(** Above the least shift a code has exactly [shift_of c + 53] digits. *)
Lemma code_lower (c : Z) :
  0 <= c -> min_shift < shift_of c -> 2 ^ (shift_of c + 52) <= c.
Proof.
  intros Hc Hs. assert (Hd : shift_of c = digits c - 53) by (unfold shift_of in *; lia).
  assert (0 < c).
  { destruct (Z.eq_dec c 0) as [->|]; [|lia]. rewrite digits_0 in Hd.
    pose proof (shift_of_pos 0). lia. }
  destruct (digits_pos c H) as (_ & Hl & _).
  replace (shift_of c + 52) with (digits c - 1) by lia. exact Hl.
Qed.

Lemma quot_rem (c n : Z) :
  0 <= c -> 0 <= n ->
  c = (c / 2 ^ n) * 2 ^ n + c mod 2 ^ n /\ 0 <= c mod 2 ^ n < 2 ^ n /\ 0 <= c / 2 ^ n.
Proof.
  intros Hc Hn. pose proof (pow2_pos n Hn) as HP.
  pose proof (Z.div_mod c (2 ^ n) ltac:(lia)).
  pose proof (Z.mod_pos_bound c (2 ^ n) HP).
  pose proof (Z.div_pos c (2 ^ n) Hc HP). lia.
Qed.

Lemma round_quot_bounds (c : Z) :
  0 <= c ->
  c / 2 ^ shift_of c <= round_quot c <= c / 2 ^ shift_of c + 1.
Proof.
  intros Hc. unfold round_quot.
  destruct (2 * (c mod 2 ^ shift_of c) ?= 2 ^ shift_of c);
    try destruct (Z.even _); lia.
Qed.

Lemma round_quot_nonneg (c : Z) : 0 <= c -> 0 <= round_quot c.
Proof.
  intros Hc. pose proof (round_quot_bounds c Hc).
  pose proof (shift_of_pos c).
  destruct (quot_rem c (shift_of c) Hc ltac:(lia)) as (_ & _ & ?). lia.
Qed.

(** The rounded quotient fits in 53 bits, or is [2 ^ 53]. *)
Lemma round_quot_upper (c : Z) : 0 <= c -> round_quot c <= 2 ^ 53.
Proof.
  intros Hc. pose proof (round_quot_bounds c Hc) as [_ Hu].
  pose proof (code_upper c Hc) as Hlt. pose proof (shift_of_pos c) as Hs.
  rewrite Z.pow_add_r in Hlt by lia.
  destruct (quot_rem c (shift_of c) Hc ltac:(lia)) as (E & Hr & Hq).
  pose proof (pow2_pos (shift_of c) ltac:(lia)) as HP.
  assert (c / 2 ^ shift_of c < 2 ^ 53) by nia. lia.
Qed.

Lemma round_quot_lower (c : Z) :
  0 <= c -> min_shift < shift_of c -> 2 ^ 52 <= round_quot c.
Proof.
  intros Hc Hs. pose proof (round_quot_bounds c Hc) as [Hl _].
  pose proof (code_lower c Hc Hs) as Hge. pose proof (shift_of_pos c) as Hp.
  rewrite Z.pow_add_r in Hge by lia.
  destruct (quot_rem c (shift_of c) Hc ltac:(lia)) as (E & Hr & Hq).
  pose proof (pow2_pos (shift_of c) ltac:(lia)) as HP.
  assert (2 ^ 52 <= c / 2 ^ shift_of c) by nia. lia.
Qed.

(** At the least shift the rounded quotient is at most [2 ^ 52] when the
    code has at most [min_shift + 52] digits. *)
Lemma round_quot_subnormal (c : Z) :
  0 <= c -> digits c - 53 < min_shift -> round_quot c <= 2 ^ 52.
Proof.
  intros Hc Hd. assert (Hs : shift_of c = min_shift) by (unfold shift_of; lia).
  pose proof (round_quot_bounds c Hc) as [_ Hu]. rewrite Hs in *.
  assert (c < 2 ^ (min_shift + 52)).
  { destruct (Z.eq_dec c 0) as [->|Hn]; [reflexivity|].
    destruct (digits_pos c ltac:(lia)) as (_ & _ & Hlt).
    apply Z.lt_le_trans with (1 := Hlt). apply Z.pow_le_mono_r; lia. }
  rewrite Z.pow_add_r in H by (rewrite ?min_shift_eq; lia).
  destruct (quot_rem c min_shift Hc ltac:(rewrite min_shift_eq; lia)) as (E & Hr & Hq).
  pose proof (pow2_pos min_shift ltac:(rewrite min_shift_eq; lia)) as HP.
  assert (c / 2 ^ min_shift < 2 ^ 52) by nia. lia.
Qed.

(** Rounding at one shift is monotone. *)
Lemma round_quot_mono_same (a b : Z) :
  0 <= a <= b -> shift_of a = shift_of b -> round_quot a <= round_quot b.
Proof.
  intros [Ha Hab] Hs. pose proof (shift_of_pos b) as Hp.
  pose proof (round_quot_bounds a Ha) as [La Ua].
  pose proof (round_quot_bounds b ltac:(lia)) as [Lb Ub].
  rewrite Hs in *.
  destruct (quot_rem a (shift_of b) Ha ltac:(lia)) as (Ea & Hra & Hqa).
  destruct (quot_rem b (shift_of b) ltac:(lia) ltac:(lia)) as (Eb & Hrb & Hqb).
  pose proof (pow2_pos (shift_of b) ltac:(lia)) as HP.
  assert (Hq : a / 2 ^ shift_of b <= b / 2 ^ shift_of b)
    by (apply Z.div_le_mono; lia).
  destruct (Z.eq_dec (a / 2 ^ shift_of b) (b / 2 ^ shift_of b)) as [Eq|Ne];
    [|lia].
  assert (Hr : a mod 2 ^ shift_of b <= b mod 2 ^ shift_of b) by nia.
  unfold round_quot. rewrite Hs, Eq.
  destruct (Z.compare_spec (2 * (a mod 2 ^ shift_of b)) (2 ^ shift_of b));
  destruct (Z.compare_spec (2 * (b mod 2 ^ shift_of b)) (2 ^ shift_of b));
    try destruct (Z.even _); lia.
Qed.

(** Rounding is monotone. *)
Lemma round_code_mono (a b : Z) :
  0 <= a <= b -> round_code a <= round_code b.
Proof.
  intros [Ha Hab]. assert (Hb : 0 <= b) by lia.
  pose proof (shift_of_mono a b (conj Ha Hab)) as Hs.
  pose proof (shift_of_pos a) as Hpa.
  pose proof (pow2_pos (shift_of a) ltac:(lia)) as HPa.
  unfold round_code.
  destruct (Z.eq_dec (shift_of a) (shift_of b)) as [E|NE].
  - rewrite <- E. apply Z.mul_le_mono_nonneg_r; [lia|].
    apply round_quot_mono_same; auto.
  - assert (Hlt : shift_of a < shift_of b) by lia.
    assert (Hmin : min_shift < shift_of b) by (pose proof (shift_of_ge a); lia).
    pose proof (round_quot_lower b Hb Hmin) as Hlb.
    pose proof (round_quot_upper a Ha) as Hua.
    apply Z.le_trans with (2 ^ 53 * 2 ^ shift_of a).
    + apply Z.mul_le_mono_nonneg_r; lia.
    + apply Z.le_trans with (2 ^ 52 * 2 ^ shift_of b).
      * replace (shift_of b) with (shift_of a + 1 + (shift_of b - shift_of a - 1)) by lia.
        rewrite !Z.pow_add_r by lia.
        pose proof (pow2_pos (shift_of b - shift_of a - 1) ltac:(lia)).
        change (2 ^ 53) with (2 ^ 52 * 2). change (2 ^ 1) with 2. nia.
      * apply Z.mul_le_mono_nonneg_r; [|lia].
        apply Z.lt_le_incl, pow2_pos. pose proof (shift_of_pos b). lia.
Qed.

Lemma digits_le_53 (m : positive) : digits (Zpos m) <= 53 -> Zpos m < 2 ^ 53.
Proof.
  intros H. destruct (digits_pos (Zpos m) ltac:(lia)) as (_ & _ & Hu).
  apply Z.lt_le_trans with (1 := Hu). apply Z.pow_le_mono_r; lia.
Qed.

Lemma digits_eq_53 (m : positive) : digits (Zpos m) = 53 -> 2 ^ 52 <= Zpos m.
Proof.
  intros H. destruct (digits_pos (Zpos m) ltac:(lia)) as (_ & Hl & _).
  rewrite H in Hl. exact Hl.
Qed.

Lemma good_finite_bounds (m : positive) (e : Z) :
  good (S754_finite false m e) ->
  emin <= e <= 971 /\ Zpos m < 2 ^ 53 /\ (emin < e -> 2 ^ 52 <= Zpos m).
Proof.
  intros (_ & He & [[Hd Hm]|[Hd Hm]]).
  - repeat split; try lia; [apply digits_le_53; lia | intros _; apply digits_eq_53; exact Hd].
  - repeat split; try lia; [apply digits_le_53; lia].
Qed.

Lemma value_finite_lt_top (m : positive) (e : Z) :
  good (S754_finite false m e) -> 0 < value (S754_finite false m e) < top.
Proof.
  intros G. destruct (good_finite_bounds m e G) as ((He1 & He2) & Hm & _).
  unfold value, top. pose proof (pow2_pos (e - emin) ltac:(lia)) as HP.
  split; [lia|].
  apply Z.lt_le_trans with (2 ^ 53 * 2 ^ (e - emin)); [nia|].
  rewrite <- Z.pow_add_r by lia. apply Z.pow_le_mono_r; unfold emin in *; lia.
Qed.

Lemma value_nonneg (f : spec_float) : 0 <= value f.
Proof.
  destruct f as [s|s| |s m e]; cbn [value]; try lia.
  unfold top. apply Z.pow_nonneg; lia.
Qed.

Lemma value_le_top (f : spec_float) : good f -> value f <= top.
Proof.
  destruct f as [s|s| |s m e]; cbn [value good]; intros G; try lia.
  - unfold top. apply Z.pow_nonneg; lia.
  - destruct G as (-> & G'). pose proof (value_finite_lt_top m e (conj eq_refl G')).
    cbn [value] in H. lia.
Qed.

(** On good floats the comparison of floats is the comparison of values. *)
Lemma good_leb (x y : spec_float) :
  good x -> good y -> value x <= value y -> Float.leb x y = true.
Proof.
  intros Gx Gy Hv. unfold Float.leb, SFleb.
  destruct x as [sx|sx| |sx mx ex]; destruct y as [sy|sy| |sy my ey];
    cbn [good] in Gx, Gy; try contradiction; try (destruct Gx as (-> & Gx'));
    try (destruct Gy as (-> & Gy')); subst; try reflexivity;
    cbn [value] in Hv.
  - pose proof (value_finite_lt_top _ _ (conj eq_refl Gy')) as Hy.
    cbn [value] in Hy. lia.
  - pose proof (value_finite_lt_top _ _ (conj eq_refl Gx')) as Hx.
    cbn [value] in Hx. lia.
  - destruct (good_finite_bounds mx ex (conj eq_refl Gx')) as ((Hx1 & Hx2) & Hmx & Hnx).
    destruct (good_finite_bounds my ey (conj eq_refl Gy')) as ((Hy1 & Hy2) & Hmy & Hny).
    cbn [SFcompare].
    destruct (Z.compare_spec ex ey) as [E|L|G]; [subst| reflexivity |].
    + pose proof (pow2_pos (ey - emin) ltac:(lia)) as HP.
      assert (Hle : (mx <= my)%positive) by (apply Pos2Z.pos_le_pos; nia).
      change (Pos.compare_cont Eq mx my) with (Pos.compare mx my).
      destruct (Pos.compare_spec mx my); try reflexivity. lia.
    + exfalso. specialize (Hnx ltac:(lia)).
      pose proof (pow2_pos (ey - emin) ltac:(lia)) as HP.
      replace (ex - emin) with ((ex - ey - 1) + 1 + (ey - emin)) in Hv by lia.
      rewrite !Z.pow_add_r in Hv by lia.
      pose proof (pow2_pos (ex - ey - 1) ltac:(lia)) as HA.
      change (2 ^ 1) with 2 in Hv. change (2 ^ 53) with (2 ^ 52 * 2) in Hmy.
      set (A := 2 ^ (ex - ey - 1)) in *. set (P := 2 ^ (ey - emin)) in *.
      assert (Hd : Zpos mx * (A * 2) <= Zpos my).
      { apply (Z.mul_le_mono_pos_r _ _ P HP). lia. }
      assert (Zpos mx * 2 <= Zpos mx * (A * 2)) by nia. lia.
Qed.

Lemma mk_float_good (m : positive) (e : Z) :
  (digits (Zpos m) = 53 /\ emin <= e) \/ (digits (Zpos m) < 53 /\ e = emin) ->
  good (mk_float m e).
Proof.
  intros H. unfold mk_float. destruct (Z.leb_spec e 971); cbn [good]; auto.
Qed.

Lemma digits_2_52 : digits (2 ^ 52) = 53.
Proof. reflexivity. Qed.

(** The float of a code is a good float. *)
Lemma to_float_good (c : Z) : 0 <= c -> good (to_float c).
Proof.
  intros Hc. unfold to_float.
  pose proof (round_quot_nonneg c Hc) as Hn.
  pose proof (round_quot_upper c Hc) as Hu.
  pose proof (shift_of_ge c) as Hs.
  destruct (round_quot c) as [|m|m] eqn:E; [reflexivity | | lia].
  destruct (Pos.eqb_spec m (2 ^ 53)%positive) as [->|Hne].
  - apply mk_float_good. left. split; [reflexivity|]. unfold min_shift in Hs. lia.
  - assert (Hlt : Zpos m < 2 ^ 53).
    { assert (Zpos m <> 2 ^ 53) by (intros H; apply Hne; apply Pos2Z.inj; exact H). lia. }
    apply mk_float_good.
    destruct (Z.eq_dec (shift_of c) min_shift) as [Emin|Nmin].
    + destruct (Z_lt_le_dec (Zpos m) (2 ^ 52)) as [Small|Big].
      * right. split; [|unfold min_shift in *; lia].
        destruct (digits_pos (Zpos m) ltac:(lia)) as (_ & Hl & _).
        destruct (Z_lt_le_dec (digits (Zpos m)) 53); [assumption|].
        assert (2 ^ 52 <= 2 ^ (digits (Zpos m) - 1)) by (apply Z.pow_le_mono_r; lia).
        lia.
      * left. split; [|unfold min_shift in *; lia].
        apply digits_unique; lia.
    + left. split; [|unfold min_shift in *; lia].
      pose proof (round_quot_lower c Hc ltac:(lia)) as Hl. rewrite E in Hl.
      apply digits_unique; lia.
Qed.

Lemma round_code_div (c : Z) :
  round_code c / 2 ^ min_shift = round_quot c * 2 ^ (shift_of c - min_shift).
Proof.
  unfold round_code. pose proof (shift_of_ge c) as Hs.
  assert (Hm : 0 <= min_shift) by (rewrite min_shift_eq; lia).
  assert (E : 2 ^ shift_of c = 2 ^ (shift_of c - min_shift) * 2 ^ min_shift).
  { rewrite <- Z.pow_add_r by lia. f_equal. lia. }
  rewrite E, Z.mul_assoc.
  apply Z.div_mul. pose proof (pow2_pos min_shift Hm). lia.
Qed.

(** The value of the float of a code is the rounded code, or [top]. *)
Lemma to_float_value (c : Z) :
  0 <= c -> value (to_float c) = Z.min (round_code c / 2 ^ min_shift) top.
Proof.
  intros Hc. rewrite round_code_div. unfold to_float.
  pose proof (round_quot_nonneg c Hc) as Hn.
  pose proof (round_quot_upper c Hc) as Hu.
  pose proof (shift_of_ge c) as Hs.
  set (k := shift_of c - min_shift). assert (Hk : 0 <= k) by (unfold k; lia).
  pose proof (pow2_pos k Hk) as HP.
  assert (Htop : top = 2 ^ 53 * 2 ^ 2045) by reflexivity.
  destruct (round_quot c) as [|m|m] eqn:E; [cbn [value]; unfold top; lia | | lia].
  destruct (Pos.eqb_spec m (2 ^ 53)%positive) as [->|Hne].
  - unfold mk_float.
    destruct (Z.leb_spec (unit_exp + shift_of c + 1) 971) as [Fin|Inf].
    + cbn [value]. replace (unit_exp + shift_of c + 1 - emin) with (1 + k)
        by (unfold k, min_shift; lia).
      rewrite Z.pow_add_r by lia. change (2 ^ 1) with 2.
      change (Zpos (2 ^ 52)) with (2 ^ 52). change (Zpos (2 ^ 53)) with (2 ^ 52 * 2).
      assert (2 ^ k <= 2 ^ 2044) by (apply Z.pow_le_mono_r; unfold k, min_shift, unit_exp, emin in *; lia).
      rewrite Htop. change (2 ^ 53 * 2 ^ 2045) with (2 ^ 52 * 2 * (2 ^ 2044 * 2)). nia.
    + cbn [value].
      assert (2 ^ 2045 <= 2 ^ k) by (apply Z.pow_le_mono_r; unfold k, min_shift, unit_exp, emin in *; lia).
      change (Zpos (2 ^ 53)) with (2 ^ 53). rewrite Htop. nia.
  - assert (Hlt : Zpos m < 2 ^ 53).
    { assert (Zpos m <> 2 ^ 53) by (intros H; apply Hne; apply Pos2Z.inj; exact H). lia. }
    unfold mk_float.
    destruct (Z.leb_spec (unit_exp + shift_of c) 971) as [Fin|Inf].
    + cbn [value]. replace (unit_exp + shift_of c - emin) with k
        by (unfold k, min_shift; lia).
      assert (2 ^ k <= 2 ^ 2045) by (apply Z.pow_le_mono_r; unfold k, min_shift, unit_exp, emin in *; lia).
      rewrite Htop. nia.
    + cbn [value].
      assert (2 ^ 2046 <= 2 ^ k) by (apply Z.pow_le_mono_r; unfold k, min_shift, unit_exp, emin in *; lia).
      pose proof (round_quot_lower c Hc ltac:(unfold min_shift, unit_exp, emin in *; lia)) as Hl.
      rewrite E in Hl. rewrite Htop.
      change (2 ^ 2046) with (2 ^ 2045 * 2) in H. change (2 ^ 53) with (2 ^ 52 * 2). nia.
Qed.

(** The float of a code is monotone in the code. *)
Lemma to_float_mono (a b : Z) :
  0 <= a <= b -> value (to_float a) <= value (to_float b).
Proof.
  intros H. rewrite !to_float_value by lia.
  apply Z.min_le_compat_r. apply Z.div_le_mono.
  - apply pow2_pos. rewrite min_shift_eq; lia.
  - apply round_code_mono; exact H.
Qed.

(** ** Shifting with a round bit and a sticky bit *)

Lemma shr_1_nonneg (m : Z) (r s : bool) :
  0 <= m ->
  shr_1 {| shr_m := m; shr_r := r; shr_s := s |}
  = {| shr_m := m / 2; shr_r := Z.odd m; shr_s := r || s |}.
Proof.
  intros Hm. rewrite <- Z.div2_div.
  destruct m as [|p|p]; [reflexivity | | lia].
  destruct p; reflexivity.
Qed.

Lemma mod_pow2_succ (c j : Z) :
  0 <= c -> 0 <= j ->
  c mod 2 ^ (j + 1) = c mod 2 ^ j + 2 ^ j * ((c / 2 ^ j) mod 2).
Proof.
  intros Hc Hj. pose proof (pow2_pos j Hj) as HP.
  rewrite Z.pow_add_r by lia. change (2 ^ 1) with 2.
  rewrite Z.rem_mul_r by lia. reflexivity.
Qed.

Lemma truncates_shr_1 (c j : Z) (mrs : shr_record) :
  0 <= c -> 1 <= j -> truncates c j mrs -> truncates c (j + 1) (shr_1 mrs).
Proof.
  intros Hc Hj (Hm & Hr & Hs). destruct mrs as [m r s]. simpl in Hm, Hr, Hs.
  destruct (quot_rem c j Hc ltac:(lia)) as (E & Hrem & Hq).
  rewrite shr_1_nonneg by lia.
  pose proof (pow2_pos (j - 1) ltac:(lia)) as HH.
  assert (E2 : 2 ^ j = 2 * 2 ^ (j - 1)).
  { replace j with (1 + (j - 1)) at 1 by lia. rewrite Z.pow_add_r by lia. reflexivity. }
  pose proof (mod_pow2_succ c j Hc ltac:(lia)) as Hsucc.
  pose proof (Z.mod_pos_bound (c / 2 ^ j) 2 ltac:(lia)) as Hb.
  unfold truncates. cbn [shr_m shr_r shr_s].
  replace (j + 1 - 1) with j by lia.
  split; [|split].
  - subst m. rewrite Z.div_div by lia. rewrite Z.pow_add_r by lia. reflexivity.
  - subst m. rewrite Hsucc, Zodd_mod.
    destruct (Z.eq_dec ((c / 2 ^ j) mod 2) 0) as [Z0|Z1].
    + rewrite Z0. rewrite Z.mul_0_r, Z.add_0_r.
      symmetry. transitivity false; [apply Z.leb_gt; lia | reflexivity].
    + assert (H1 : (c / 2 ^ j) mod 2 = 1) by lia. rewrite H1.
      symmetry. transitivity true; [apply Z.leb_le; lia | reflexivity].
  - rewrite Hr, Hs.
    assert (Hx : (c mod 2 ^ (j + 1)) mod 2 ^ j = c mod 2 ^ j).
    { rewrite Hsucc, (Z.mul_comm (2 ^ j)), Z.mod_add by lia.
      apply Z.mod_small; lia. }
    rewrite Hx.
    pose proof (Z.div_mod (c mod 2 ^ j) (2 ^ (j - 1)) ltac:(lia)) as Hdm.
    pose proof (Z.mod_pos_bound (c mod 2 ^ j) (2 ^ (j - 1)) HH) as Hmb.
    assert (Hsmall : c mod 2 ^ j < 2 ^ (j - 1) ->
                     (c mod 2 ^ j) mod 2 ^ (j - 1) = c mod 2 ^ j)
      by (intros; apply Z.mod_small; lia).
    destruct (Z.leb_spec (2 ^ (j - 1)) (c mod 2 ^ j));
      destruct (Z.eqb_spec ((c mod 2 ^ j) mod 2 ^ (j - 1)) 0);
      destruct (Z.eqb_spec (c mod 2 ^ j) 0); simpl; try reflexivity;
      exfalso; lia.
Qed.

Lemma truncates_iter (c : Z) (p : positive) :
  0 <= c ->
  forall j mrs, 1 <= j -> truncates c j mrs ->
  truncates c (j + Zpos p) (iter_pos shr_1 p mrs).
Proof.
  intros Hc. induction p as [p IH|p IH|]; intros j mrs Hj H; simpl iter_pos.
  - replace (j + Zpos p~1) with (((j + 1) + Zpos p) + Zpos p) by lia.
    apply IH; [lia|]. apply IH; [lia|]. apply truncates_shr_1; auto.
  - replace (j + Zpos p~0) with ((j + Zpos p) + Zpos p) by lia.
    apply IH; [lia|]. apply IH; [lia|]. exact H.
  - apply truncates_shr_1; auto.
Qed.

Lemma truncates_shr (c j n e : Z) (mrs : shr_record) :
  0 <= c -> 1 <= j -> 0 <= n -> truncates c j mrs ->
  truncates c (j + n) (fst (shr mrs e n)) /\ snd (shr mrs e n) = e + n.
Proof.
  intros Hc Hj Hn H. destruct n as [|p|p]; [| |lia]; simpl.
  - rewrite !Z.add_0_r. auto.
  - split; [apply truncates_iter; auto | reflexivity].
Qed.

(** Rounding a truncation to nearest even is rounding the code. *)
Lemma truncates_round (c : Z) (mrs : shr_record) :
  0 <= c -> truncates c (shift_of c) mrs ->
  round_nearest_even (shr_m mrs) (loc_of_shr_record mrs) = round_quot c.
Proof.
  intros Hc (Hm & Hr & Hs). destruct mrs as [m r s]. simpl in Hm, Hr, Hs.
  pose proof (shift_of_pos c) as Hp. set (n := shift_of c) in *.
  destruct (quot_rem c n Hc ltac:(lia)) as (E & Hrem & Hq).
  pose proof (pow2_pos (n - 1) ltac:(lia)) as HH.
  assert (E2 : 2 ^ n = 2 * 2 ^ (n - 1)).
  { replace n with (1 + (n - 1)) at 1 by lia. rewrite Z.pow_add_r by lia. reflexivity. }
  pose proof (Z.div_mod (c mod 2 ^ n) (2 ^ (n - 1)) ltac:(lia)) as Hdm.
  pose proof (Z.mod_pos_bound (c mod 2 ^ n) (2 ^ (n - 1)) HH) as Hmb.
  unfold round_quot. fold n. cbn [shr_m]. rewrite <- Hm.
  destruct (Z.compare_spec (2 * (c mod 2 ^ n)) (2 ^ n)) as [Ceq|Clt|Cgt].
  - assert (Er : r = true) by (rewrite Hr; apply Z.leb_le; lia).
    assert (Es : s = false).
    { rewrite Hs. replace (c mod 2 ^ n) with (2 ^ (n - 1)) by lia.
      rewrite Z.mod_same by lia. reflexivity. }
    rewrite Er, Es. reflexivity.
  - assert (Er : r = false) by (rewrite Hr; apply Z.leb_gt; lia).
    rewrite Er. destruct s; reflexivity.
  - assert (Er : r = true) by (rewrite Hr; apply Z.leb_le; lia).
    assert (Es : s = true).
    { rewrite Hs. destruct (Z.eqb_spec ((c mod 2 ^ n) mod 2 ^ (n - 1)) 0) as [Z0|]; [|reflexivity].
      exfalso. rewrite Z0 in Hdm.
      assert ((c mod 2 ^ n) / 2 ^ (n - 1) < 2) by (apply Z.div_lt_upper_bound; lia).
      assert (0 <= (c mod 2 ^ n) / 2 ^ (n - 1)) by (apply Z.div_pos; lia).
      nia. }
    rewrite Er, Es. reflexivity.
Qed.

(** ** [binary_round_aux] on a code *)

Lemma fexp_eq (e : Z) : fexp 53 1024 e = Z.max (e - 53) emin.
Proof. reflexivity. Qed.

(** A code whose quotient by [2 ^ k] is positive has [k] more digits. *)
Lemma digits_quot (c k : Z) :
  0 <= c -> 0 <= k -> 0 < c / 2 ^ k -> digits c = digits (c / 2 ^ k) + k.
Proof.
  intros Hc Hk Hq. destruct (quot_rem c k Hc Hk) as (E & Hr & _).
  destruct (digits_pos _ Hq) as (Hd & Hl & Hu).
  pose proof (pow2_pos k Hk) as HP.
  apply digits_unique; [lia|].
  replace (digits (c / 2 ^ k) + k - 1) with ((digits (c / 2 ^ k) - 1) + k) by lia.
  rewrite !Z.pow_add_r by lia. nia.
Qed.

Lemma shift_of_truncated (c m e : Z) :
  0 <= c -> unit_exp < e -> m = c / 2 ^ (e - unit_exp) ->
  e <= fexp 53 1024 (digits m + e) ->
  fexp 53 1024 (digits m + e) - unit_exp = shift_of c.
Proof.
  intros Hc He Hm Hf. rewrite fexp_eq in *. unfold shift_of.
  set (k := e - unit_exp) in *. assert (Hk : 0 < k) by (unfold k; lia).
  destruct (quot_rem c k Hc ltac:(lia)) as (E & Hr & Hq).
  destruct (Z.eq_dec m 0) as [M0|Mn].
  - rewrite M0, digits_0 in *.
    assert (Hd : digits c <= k).
    { destruct (Z.eq_dec c 0) as [->|Cn]; [rewrite digits_0; lia|].
      destruct (digits_pos c ltac:(lia)) as (_ & Hl & _).
      destruct (Z_le_gt_dec (digits c) k); [assumption|].
      assert (2 ^ k <= 2 ^ (digits c - 1)) by (apply Z.pow_le_mono_r; lia).
      rewrite <- Hm in E. lia. }
    unfold min_shift, k in *. lia.
  - rewrite (digits_quot c k Hc ltac:(lia) ltac:(lia)), <- Hm.
    unfold min_shift, k. lia.
Qed.

Lemma round_again (m e : Z) :
  0 <= m <= 2 ^ 53 -> emin <= e ->
  (m < 2 ^ 53 ->
   fst (shr_fexp 53 1024 m e loc_Exact)
   = {| shr_m := m; shr_r := false; shr_s := false |}
   /\ snd (shr_fexp 53 1024 m e loc_Exact) = e)
  /\ (m = 2 ^ 53 ->
      fst (shr_fexp 53 1024 m e loc_Exact)
      = {| shr_m := 2 ^ 52; shr_r := false; shr_s := false |}
      /\ snd (shr_fexp 53 1024 m e loc_Exact) = e + 1).
Proof.
  intros [Hm0 Hm1] He. unfold shr_fexp. rewrite fexp_eq.
  change (Zdigits2 m) with (digits m). split.
  - intros Hlt.
    assert (Hd : digits m <= 53).
    { destruct (Z.eq_dec m 0) as [->|]; [rewrite digits_0; lia|].
      destruct (digits_pos m ltac:(lia)) as (_ & Hl & _).
      destruct (Z_le_gt_dec (digits m) 53); [assumption|].
      assert (2 ^ 53 <= 2 ^ (digits m - 1)) by (apply Z.pow_le_mono_r; lia). lia. }
    assert (Hn : Z.max (digits m + e - 53) emin - e <= 0) by lia.
    unfold shr. cbn [shr_record_of_loc].
    destruct (Z.max (digits m + e - 53) emin - e) as [|p|p]; [auto | lia | auto].
  - intros ->. change (digits (2 ^ 53)) with 54.
    replace (Z.max (54 + e - 53) emin - e) with 1 by lia.
    split; reflexivity.
Qed.

(** Rounding a truncated code with [binary_round_aux] gives the float of
    the code, when the truncation is not coarser than the format. *)
Lemma binary_round_aux_code (m e c : Z) (l : location) :
  0 <= c -> unit_exp < e ->
  truncates c (e - unit_exp) (shr_record_of_loc m l) ->
  e <= fexp 53 1024 (digits m + e) ->
  binary_round_aux 53 1024 false m e l = to_float c.
Proof.
  intros Hc He Ht Hf.
  assert (Hm : m = c / 2 ^ (e - unit_exp)).
  { destruct Ht as (Hm & _). destruct l as [|[]]; exact Hm. }
  pose proof (shift_of_truncated c m e Hc He Hm Hf) as Hn.
  unfold binary_round_aux.
  set (n := fexp 53 1024 (digits m + e) - e) in *.
  assert (Hn0 : 0 <= n) by (unfold n; lia).
  unfold shr_fexp at 1. change (Zdigits2 m) with (digits m). fold n.
  destruct (truncates_shr c (e - unit_exp) n e _ Hc ltac:(lia) Hn0 Ht)
    as (Ht' & He').
  replace (e - unit_exp + n) with (shift_of c) in Ht' by (unfold n; lia).
  destruct (shr (shr_record_of_loc m l) e n) as [mrs' e'] eqn:Eshr.
  cbn [fst snd] in Ht', He'. subst e'.
  rewrite (truncates_round c mrs' Hc Ht').
  pose proof (round_quot_nonneg c Hc) as Hq0.
  pose proof (round_quot_upper c Hc) as Hq1.
  assert (Hemin : emin <= e + n) by (unfold n; rewrite fexp_eq; lia).
  destruct (round_again (round_quot c) (e + n) (conj Hq0 Hq1) Hemin) as (Hsmall & Hcarry).
  assert (Hexp : e + n = unit_exp + shift_of c) by (unfold n; lia).
  unfold to_float.
  destruct (shr_fexp 53 1024 (round_quot c) (e + n) loc_Exact) as [mrs'' e''] eqn:E2.
  cbn [fst snd] in Hsmall, Hcarry.
  destruct (Z.eq_dec (round_quot c) (2 ^ 53)) as [Eq|Ne].
  - destruct (Hcarry Eq) as (-> & ->). rewrite Eq. cbn [shr_m].
    change (2 ^ 52) with (Zpos (2 ^ 52)). change (2 ^ 53) with (Zpos (2 ^ 53)).
    cbv iota beta. rewrite Pos.eqb_refl. unfold mk_float.
    rewrite Hexp. reflexivity.
  - destruct (Hsmall ltac:(lia)) as (-> & ->). cbn [shr_m].
    destruct (round_quot c) as [|p|p] eqn:Eq; [reflexivity | | lia].
    destruct (Pos.eqb_spec p (2 ^ 53)%positive) as [->|_]; [exfalso; apply Ne; reflexivity|].
    unfold mk_float. rewrite Hexp. reflexivity.
Qed.

(** ** The operations on codes *)

Lemma truncates_exact (m k : Z) :
  0 <= m -> 1 <= k ->
  truncates (m * 2 ^ k) k (shr_record_of_loc m loc_Exact).
Proof.
  intros Hm Hk. pose proof (pow2_pos k ltac:(lia)) as HP.
  pose proof (pow2_pos (k - 1) ltac:(lia)) as HH.
  unfold truncates. cbn [shr_record_of_loc shr_m shr_r shr_s].
  rewrite Z.div_mul, Z.mod_mul by lia. rewrite Z.mod_0_l by lia.
  repeat split. symmetry. apply Z.leb_gt. lia.
Qed.

Lemma iter_xO (m d : positive) :
  Zpos (Pos.iter xO m d) = Zpos m * 2 ^ Zpos d.
Proof.
  induction d as [|d IH] using Pos.peano_ind.
  - simpl. lia.
  - rewrite Pos.iter_succ, Pos2Z.inj_xO, IH, Pos2Z.inj_succ, Z.pow_succ_r by lia.
    lia.
Qed.

Lemma shl_align_spec (mx : positive) (ex ex' : Z) :
  Zpos (fst (shl_align mx ex ex'))
  = Zpos mx * 2 ^ (ex - Z.min ex ex')
  /\ snd (shl_align mx ex ex') = Z.min ex ex'.
Proof.
  unfold shl_align. destruct (ex' - ex) as [|d|d] eqn:E; cbn [fst snd].
  - replace (Z.min ex ex') with ex by lia. rewrite Z.sub_diag. simpl. lia.
  - replace (Z.min ex ex') with ex by lia. rewrite Z.sub_diag. simpl. lia.
  - replace (Z.min ex ex') with ex' by lia. rewrite iter_xO.
    split; [|reflexivity]. f_equal. f_equal. lia.
Qed.

(** [binary_round] gives the float of the exact code. *)
Lemma binary_round_code (mx : positive) (ex : Z) :
  emin <= ex ->
  binary_round 53 1024 false mx ex = to_float (Zpos mx * 2 ^ (ex - unit_exp)).
Proof.
  intros He. unfold binary_round.
  set (ex' := fexp 53 1024 (Zpos (digits2_pos mx) + ex)).
  assert (He' : emin <= ex') by (unfold ex'; rewrite fexp_eq; lia).
  destruct (shl_align_spec mx ex ex') as (Hm & Hz).
  destruct (shl_align mx ex ex') as [mz ez]. cbn [fst snd] in Hm, Hz. subst ez.
  set (ez := Z.min ex ex') in *.
  assert (Hez : emin <= ez) by (unfold ez; lia).
  assert (Hu : unit_exp < ez) by (unfold unit_exp, emin in *; lia).
  assert (Hc : Zpos mx * 2 ^ (ex - unit_exp) = Zpos mz * 2 ^ (ez - unit_exp)).
  { rewrite Hm, <- Z.mul_assoc, <- Z.pow_add_r by (unfold ez; lia).
    f_equal. f_equal. lia. }
  rewrite Hc. apply binary_round_aux_code.
  - pose proof (pow2_pos (ez - unit_exp) ltac:(lia)). lia.
  - exact Hu.
  - apply truncates_exact; lia.
  - assert (Hd : digits (Zpos mz) + ez = Zpos (digits2_pos mx) + ex).
    { rewrite Hm, digits_shift by (unfold ez; lia).
      change (digits (Zpos mx)) with (Zpos (digits2_pos mx)). lia. }
    rewrite Hd. fold ex'. unfold ez. lia.
Qed.

Lemma to_float_0 : to_float 0 = S754_zero false.
Proof. vm_compute. reflexivity. Qed.

(** The nearest float of a natural number. *)
Lemma round_Z_code (z : Z) :
  0 <= z -> Float.round_Z z = to_float (z * 2 ^ 2150).
Proof.
  intros Hz. unfold Float.round_Z, binary_normalize.
  destruct z as [|p|p]; [symmetry; exact to_float_0 | | lia].
  apply (binary_round_code p 0). unfold emin; lia.
Qed.

Lemma code_of_finite (m : positive) (e : Z) :
  emin <= e -> code_of (S754_finite false m e) = Zpos m * 2 ^ (e - unit_exp).
Proof.
  intros He. unfold code_of. cbn [value].
  rewrite <- Z.mul_assoc, <- Z.pow_add_r by (unfold min_shift, emin, unit_exp in *; lia).
  f_equal. f_equal. unfold min_shift. lia.
Qed.

Lemma code_of_nonneg (f : spec_float) : 0 <= code_of f.
Proof.
  unfold code_of. pose proof (value_nonneg f).
  pose proof (pow2_pos min_shift ltac:(rewrite min_shift_eq; lia)). nia.
Qed.

(** A good finite float is the float of its code. *)
Lemma to_float_code_of (f : spec_float) :
  good f -> finite f -> to_float (code_of f) = f.
Proof.
  intros G F. destruct f as [s|s| |s m e]; cbn [finite] in F; try contradiction.
  - cbn [good] in G. subst s. unfold code_of. cbn [value]. rewrite Z.mul_0_l.
    exact to_float_0.
  - destruct (good_finite_bounds m e ltac:(destruct G as (-> & ?); split; auto))
      as ((He1 & He2) & _).
    destruct G as (-> & _ & Hcanon).
    rewrite code_of_finite by exact He1.
    assert (Hf : fexp 53 1024 (digits (Zpos m) + e) = e) by (rewrite fexp_eq; lia).
    rewrite <- (binary_round_aux_code (Zpos m) e _ loc_Exact).
    + unfold binary_round_aux, shr_fexp. change (Zdigits2 (Zpos m)) with (digits (Zpos m)).
      rewrite Hf, Z.sub_diag. cbn [shr shr_record_of_loc shr_m loc_of_shr_record round_nearest_even].
      change (Zdigits2 (Zpos m)) with (digits (Zpos m)).
      rewrite Hf, Z.sub_diag. cbn [shr shr_record_of_loc shr_m].
      change (1024 - 53) with 971.
      destruct (Z.leb_spec e 971); [reflexivity | lia].
    + pose proof (pow2_pos (e - unit_exp) ltac:(unfold unit_exp, emin in *; lia)). lia.
    + unfold unit_exp, emin in *; lia.
    + apply truncates_exact; unfold unit_exp, emin in *; lia.
    + rewrite Hf. lia.
Qed.

(** The sum of two good finite floats is the float of the sum of their
    codes. *)
Lemma add_code (x y : spec_float) :
  good x -> good y -> finite x -> finite y ->
  Float.add x y = to_float (code_of x + code_of y).
Proof.
  intros Gx Gy Fx Fy.
  destruct x as [sx|sx| |sx mx ex]; cbn [finite] in Fx; try contradiction;
  destruct y as [sy|sy| |sy my ey]; cbn [finite] in Fy; try contradiction.
  - cbn [good] in Gx, Gy. subst. symmetry. exact to_float_0.
  - cbn [good] in Gx. subst sx.
    replace (code_of (S754_zero false)) with 0 by reflexivity.
    rewrite Z.add_0_l, (to_float_code_of _ Gy I). reflexivity.
  - cbn [good] in Gy. subst sy.
    replace (code_of (S754_zero false)) with 0 by reflexivity.
    rewrite Z.add_0_r, (to_float_code_of _ Gx I). reflexivity.
  - destruct (good_finite_bounds mx ex ltac:(destruct Gx as (-> & ?); split; auto))
      as ((Hx1 & Hx2) & _).
    destruct (good_finite_bounds my ey ltac:(destruct Gy as (-> & ?); split; auto))
      as ((Hy1 & Hy2) & _).
    destruct Gx as (-> & _). destruct Gy as (-> & _).
    rewrite !code_of_finite by assumption.
    unfold Float.add, SFadd. cbn [cond_Zopp].
    set (ez := Z.min ex ey).
    destruct (shl_align_spec mx ex ez) as (Hmx & _).
    destruct (shl_align_spec my ey ez) as (Hmy & _).
    replace (Z.min ex ez) with ez in Hmx by (unfold ez; lia).
    replace (Z.min ey ez) with ez in Hmy by (unfold ez; lia).
    unfold binary_normalize, Float.prec, Float.emax.
    change (Zpos (fst (shl_align mx ex ez)) + Zpos (fst (shl_align my ey ez)))
      with (Zpos (fst (shl_align mx ex ez) + fst (shl_align my ey ez))).
    cbv beta iota.
    rewrite binary_round_code by (unfold ez; lia).
    f_equal. rewrite Pos2Z.inj_add, Hmx, Hmy, Z.mul_add_distr_r.
    rewrite <- !Z.mul_assoc, <- !Z.pow_add_r by (unfold ez, unit_exp, emin in *; lia).
    f_equal; f_equal; f_equal; lia.
Qed.

(** The product of a good finite float and a normal float of exponent
    [ey]. *)
Lemma mul_code (x : spec_float) (my : positive) (ey : Z) :
  good x -> finite x -> digits (Zpos my) = 53 -> -1076 < ey ->
  Float.mul x (S754_finite false my ey)
  = to_float (value x * (Zpos my * 2 ^ (ey + 1076))).
Proof.
  intros Gx Fx Hd Hey.
  destruct x as [sx|sx| |sx mx ex]; cbn [finite] in Fx; try contradiction.
  - cbn [good] in Gx. subst sx. cbn [value]. rewrite Z.mul_0_l.
    symmetry. exact to_float_0.
  - destruct (good_finite_bounds mx ex ltac:(destruct Gx as (-> & ?); split; auto))
      as ((Hx1 & Hx2) & _).
    destruct Gx as (-> & _).
    unfold Float.mul, SFmul. cbn [xorb value].
    assert (Hc : Zpos mx * 2 ^ (ex - emin) * (Zpos my * 2 ^ (ey + 1076))
                 = Zpos (mx * my) * 2 ^ (ex + ey - unit_exp)).
    { rewrite Pos2Z.inj_mul.
      replace (ex + ey - unit_exp) with ((ex - emin) + (ey + 1076))
        by (unfold unit_exp, emin; lia).
      rewrite (Z.pow_add_r 2 (ex - emin) (ey + 1076)) by (unfold emin in *; lia).
      ring. }
    rewrite Hc. apply binary_round_aux_code.
    + pose proof (pow2_pos (ex + ey - unit_exp) ltac:(unfold unit_exp, emin in *; lia)).
      lia.
    + unfold unit_exp, emin in *; lia.
    + apply truncates_exact; unfold unit_exp, emin in *; lia.
    + rewrite fexp_eq.
      assert (53 <= digits (Zpos (mx * my))).
      { rewrite <- Hd. apply digits_mono. rewrite Pos2Z.inj_mul. nia. }
      lia.
Qed.

Lemma quot_code_nonneg (n d : Z) : 0 <= n -> 0 < d -> 0 <= quot_code n d.
Proof.
  intros Hn Hd. unfold quot_code. pose proof (Z.div_pos n d Hn Hd).
  destruct (n mod d =? 0); lia.
Qed.

Lemma quot_code_mono (a b d : Z) :
  0 <= a <= b -> 0 < d -> quot_code a d <= quot_code b d.
Proof.
  intros [Ha Hab] Hd. unfold quot_code.
  pose proof (Z.div_le_mono a b d Hd Hab) as Hq.
  pose proof (Z.div_mod a d ltac:(lia)) as Ea.
  pose proof (Z.div_mod b d ltac:(lia)) as Eb.
  pose proof (Z.mod_pos_bound a d Hd). pose proof (Z.mod_pos_bound b d Hd).
  destruct (Z.eqb_spec (a mod d) 0); destruct (Z.eqb_spec (b mod d) 0); try lia.
  destruct (Z.eq_dec (a / d) (b / d)) as [E|]; [|lia]. rewrite E in Ea. lia.
Qed.

(** The quotient, the exponent and the location that [SFdiv] rounds. *)
Lemma div_core_spec (mx my : positive) (ex ey : Z) :
  exists s,
    0 <= s /\
    ex - ey - s
    = Z.min (fexp 53 1024 (digits (Zpos mx) + ex - (digits (Zpos my) + ey)))
            (ex - ey) /\
    SFdiv_core_binary 53 1024 (Zpos mx) ex (Zpos my) ey
    = ((Zpos mx * 2 ^ s) / Zpos my, ex - ey - s,
       new_location (Zpos my) ((Zpos mx * 2 ^ s) mod Zpos my)).
Proof.
  unfold SFdiv_core_binary.
  change (Zdigits2 (Zpos mx)) with (digits (Zpos mx)).
  change (Zdigits2 (Zpos my)) with (digits (Zpos my)).
  set (e' := Z.min (fexp 53 1024 (digits (Zpos mx) + ex - (digits (Zpos my) + ey)))
                   (ex - ey)).
  exists (ex - ey - e').
  assert (Hs : 0 <= ex - ey - e') by (unfold e'; lia).
  split; [exact Hs|]. split; [lia|].
  assert (Hm : match ex - ey - e' with
               | Zpos _ => Z.shiftl (Zpos mx) (ex - ey - e')
               | Z0 => Zpos mx
               | Zneg _ => 0
               end = Zpos mx * 2 ^ (ex - ey - e')).
  { destruct (ex - ey - e') as [|p|p] eqn:E; [simpl; lia | | lia].
    rewrite Z.shiftl_mul_pow2 by lia. reflexivity. }
  rewrite Hm. unfold Z.div, Z.modulo.
  destruct (Z.div_eucl (Zpos mx * 2 ^ (ex - ey - e')) (Zpos my)) as [q r].
  replace (ex - ey - (ex - ey - e')) with e' by lia. reflexivity.
Qed.

Lemma new_location_even_spec (d r : Z) :
  Z.even d = true ->
  new_location d r = if r =? 0 then loc_Exact else loc_Inexact (2 * r ?= d).
Proof. intros H. unfold new_location. rewrite H. reflexivity. Qed.

(** The truncation that [SFdiv] rounds is that of the code of the
    quotient. *)
Lemma truncates_div (m d k : Z) :
  0 <= m -> 0 < d -> 2 <= k ->
  truncates (quot_code (m * 2 ^ (k - 1)) d) k
    (shr_record_of_loc (m / d)
       (if m mod d =? 0 then loc_Exact else loc_Inexact (2 * (m mod d) ?= d))).
Proof.
  intros Hm Hd Hk.
  pose proof (pow2_pos (k - 2) ltac:(lia)) as Hh.
  assert (EH : 2 ^ (k - 1) = 2 * 2 ^ (k - 2)).
  { replace (k - 1) with (1 + (k - 2)) by lia. rewrite Z.pow_add_r by lia. reflexivity. }
  assert (EK : 2 ^ k = 4 * 2 ^ (k - 2)).
  { replace k with (2 + (k - 2)) at 1 by lia. rewrite Z.pow_add_r by lia. reflexivity. }
  set (h := 2 ^ (k - 2)) in *.
  pose proof (Z.div_mod m d ltac:(lia)) as Em.
  pose proof (Z.mod_pos_bound m d Hd) as Hr.
  pose proof (Z.div_pos m d Hm Hd) as Hq.
  set (q := m / d) in *. set (r := m mod d) in *.
  (* the quotient and remainder of the scaled numerator *)
  set (F := (r * (2 * h)) / d). set (rem := (r * (2 * h)) mod d).
  pose proof (Z.div_mod (r * (2 * h)) d ltac:(lia)) as EF. fold F rem in EF.
  pose proof (Z.mod_pos_bound (r * (2 * h)) d Hd) as Hrem. fold rem in Hrem.
  assert (HF0 : 0 <= F) by (apply Z.div_pos; nia).
  assert (HN : m * 2 ^ (k - 1) = (q * (2 * h)) * d + r * (2 * h)).
  { rewrite EH, Em. ring. }
  assert (Hdiv : (m * 2 ^ (k - 1)) / d = q * (2 * h) + F).
  { rewrite HN, Z.add_comm, Z.div_add by lia. unfold F. lia. }
  assert (Hmod : (m * 2 ^ (k - 1)) mod d = rem).
  { rewrite HN, Z.add_comm, Z.mod_add by lia. reflexivity. }
  assert (HF1 : F < 2 * h) by nia.
  set (b := if rem =? 0 then 0 else 1).
  assert (Hb : 0 <= b <= 1) by (unfold b; destruct (rem =? 0); lia).
  assert (Hc : quot_code (m * 2 ^ (k - 1)) d = q * 2 ^ k + (2 * F + b)).
  { unfold quot_code. rewrite Hdiv, Hmod, EK. fold b. ring. }
  assert (Hrho : 0 <= 2 * F + b < 2 ^ k) by lia.
  assert (Hcq : quot_code (m * 2 ^ (k - 1)) d / 2 ^ k = q).
  { rewrite Hc, Z.add_comm, Z.div_add, Z.div_small by lia. lia. }
  assert (Hcr : quot_code (m * 2 ^ (k - 1)) d mod 2 ^ k = 2 * F + b).
  { rewrite Hc, Z.add_comm, Z.mod_add, Z.mod_small by lia. reflexivity. }
  unfold truncates. rewrite Hcq, Hcr, EH.
  destruct (Z.eqb_spec r 0) as [R0|Rn].
  - (* exact *)
    assert (F = 0 /\ rem = 0) as (F0 & Rem0).
    { rewrite R0 in EF. simpl in EF. nia. }
    assert (b = 0) by (unfold b; rewrite Rem0; reflexivity).
    cbn [shr_record_of_loc shr_m shr_r shr_s].
    replace (2 * F + b) with 0 by lia. rewrite Z.mod_0_l by lia.
    repeat split. symmetry. apply Z.leb_gt. lia.
  - assert (Hbpos : F = 0 -> b = 1).
    { intros F0. unfold b. destruct (Z.eqb_spec rem 0) as [Rem0|]; [|reflexivity].
      exfalso. rewrite F0, Rem0 in EF. nia. }
    destruct (Z.compare_spec (2 * r) d) as [Ceq|Clt|Cgt];
      cbn [shr_record_of_loc shr_m shr_r shr_s].
    + (* the midpoint *)
      assert (E1 : d * h = d * F + rem).
      { rewrite <- EF, <- Ceq. ring. }
      assert (Fh : F = h) by nia.
      assert (Rem0 : rem = 0) by (rewrite Fh in E1; lia).
      assert (b = 0) by (unfold b; rewrite Rem0; reflexivity).
      replace (2 * F + b) with (2 * h) by lia. rewrite Z.mod_same by lia.
      repeat split. symmetry. apply Z.leb_le. lia.
    + (* below the midpoint *)
      assert (E1 : 2 * r * h = d * F + rem) by (rewrite <- EF; ring).
      assert (F < h) by nia.
      rewrite Z.mod_small by lia.
      repeat split.
      * symmetry. apply Z.leb_gt. lia.
      * destruct (Z.eqb_spec (2 * F + b) 0); [|reflexivity].
        exfalso. assert (F = 0) by lia. specialize (Hbpos H0). lia.
    + (* above the midpoint *)
      assert (E1 : 2 * r * h = d * F + rem) by (rewrite <- EF; ring).
      assert (h <= F) by nia.
      assert (Hgt : 2 * h < 2 * F + b).
      { destruct (Z.eq_dec F h) as [Fh|]; [|lia].
        assert (rem <> 0) by (rewrite Fh in E1; nia).
        assert (b = 1) by (unfold b; destruct (Z.eqb_spec rem 0); [contradiction|reflexivity]).
        lia. }
      assert (Emod : (2 * F + b) mod (2 * h) = 2 * F + b - 2 * h).
      { symmetry. apply Z.mod_unique with 1; lia. }
      rewrite Emod. repeat split.
      * symmetry. apply Z.leb_le. lia.
      * destruct (Z.eqb_spec (2 * F + b - 2 * h) 0); [exfalso; lia | reflexivity].
Qed.

Lemma digits_pow2 (j : Z) : 0 <= j -> digits (2 ^ j) = j + 1.
Proof.
  intros Hj. apply digits_unique; [lia|].
  replace (j + 1 - 1) with j by lia. split; [lia|].
  apply Z.pow_lt_mono_r; lia.
Qed.

(** The quotient that [SFdiv] computes has enough digits to be rounded. *)
Lemma div_quotient_digits (mx my : positive) (ex ey s : Z) :
  0 <= s ->
  ex - ey - s
  = Z.min (fexp 53 1024 (digits (Zpos mx) + ex - (digits (Zpos my) + ey)))
          (ex - ey) ->
  ex - ey - s
  <= fexp 53 1024 (digits ((Zpos mx * 2 ^ s) / Zpos my) + (ex - ey - s)).
Proof.
  intros Hs He. rewrite !fexp_eq in *.
  set (d1 := digits (Zpos mx)) in *. set (d2 := digits (Zpos my)) in *.
  set (e' := ex - ey - s) in *.
  destruct (digits_pos (Zpos mx) ltac:(lia)) as (Hd1 & Hl1 & Hu1). fold d1 in Hd1, Hl1, Hu1.
  destruct (digits_pos (Zpos my) ltac:(lia)) as (Hd2 & Hl2 & Hu2). fold d2 in Hd2, Hl2, Hu2.
  pose proof (pow2_pos s Hs) as HS.
  set (m' := Zpos mx * 2 ^ s).
  assert (Hm' : 2 ^ (d1 - 1 + s) <= m').
  { unfold m'. rewrite Z.pow_add_r by lia. nia. }
  assert (Hq0 : 0 <= m' / Zpos my) by (apply Z.div_pos; unfold m'; lia).
  (* the quotient has at least d1 + s - d2 digits *)
  assert (Hdq : 0 < m' / Zpos my -> d1 + s - d2 <= digits (m' / Zpos my)).
  { intros Hq. destruct (digits_pos _ Hq) as (Hdp & _ & _).
    destruct (Z_le_gt_dec (d1 + s - d2 - 1) 0) as [Small|Big]; [lia|].
    set (j := d1 + s - d2 - 1) in *.
    assert (2 ^ j <= m' / Zpos my).
    { apply Z.div_le_lower_bound; [lia|].
      apply Z.le_trans with (2 ^ d2 * 2 ^ j); [pose proof (pow2_pos j ltac:(lia)); nia|].
      rewrite <- Z.pow_add_r by lia.
      replace (d2 + j) with (d1 - 1 + s) by (unfold j; lia). exact Hm'. }
    pose proof (digits_mono (2 ^ j) (m' / Zpos my)
                  (conj (Z.lt_le_incl _ _ (pow2_pos j ltac:(lia))) H)) as Hmono.
    rewrite digits_pow2 in Hmono by lia. unfold j in Hmono. lia. }
  destruct (Z.eq_dec (m' / Zpos my) 0) as [Q0|Qn].
  - rewrite Q0, digits_0.
    (* a zero quotient happens at the least exponent only *)
    assert (e' <= emin); [|lia].
    destruct (Z_le_gt_dec (d1 + ex - (d2 + ey) - 53) emin) as [|Hbig]; [lia|].
    exfalso.
    assert (Hs' : 53 + d2 - d1 <= s) by (unfold e' in *; lia).
    assert (2 ^ d2 <= m').
    { apply Z.le_trans with (2 ^ (d1 - 1 + s)); [|exact Hm'].
      apply Z.pow_le_mono_r; lia. }
    assert (1 <= m' / Zpos my) by (apply Z.div_le_lower_bound; lia).
    lia.
  - specialize (Hdq ltac:(lia)). unfold e' in *. lia.
Qed.

(** The quotient of a good finite float by a positive float of even
    mantissa. *)
Lemma div_code (x : spec_float) (my : positive) (ey : Z) :
  good x -> finite x -> Z.even (Zpos my) = true -> ey <= 0 ->
  Float.div x (S754_finite false my ey)
  = to_float (quot_code (value x * 2 ^ (1075 - ey)) (Zpos my)).
Proof.
  intros Gx Fx Hev Hey.
  destruct x as [sx|sx| |sx mx ex]; cbn [finite] in Fx; try contradiction.
  - cbn [good] in Gx. subst sx. cbn [value]. rewrite Z.mul_0_l.
    unfold quot_code. rewrite Z.div_0_l, Z.mod_0_l by lia.
    symmetry. exact to_float_0.
  - destruct (good_finite_bounds mx ex ltac:(destruct Gx as (-> & ?); split; auto))
      as ((Hx1 & Hx2) & _).
    destruct Gx as (-> & _).
    unfold Float.div, SFdiv, Float.prec, Float.emax.
    destruct (div_core_spec mx my ex ey) as (s & Hs & He & ->).
    cbn [xorb value].
    set (e' := ex - ey - s) in *.
    assert (He' : emin <= e') by (rewrite He, fexp_eq; unfold emin in *; lia).
    assert (Hk : 2 <= e' - unit_exp) by (unfold unit_exp, emin in *; lia).
    pose proof (pow2_pos s Hs) as HS.
    assert (Hc : Zpos mx * 2 ^ (ex - emin) * 2 ^ (1075 - ey)
                 = (Zpos mx * 2 ^ s) * 2 ^ (e' - unit_exp - 1)).
    { rewrite <- !Z.mul_assoc, <- !Z.pow_add_r by (unfold unit_exp, emin in *; lia).
      f_equal. f_equal. unfold e', unit_exp, emin. lia. }
    rewrite Hc. apply binary_round_aux_code.
    + apply quot_code_nonneg; [|lia].
      pose proof (pow2_pos (e' - unit_exp - 1) ltac:(lia)). nia.
    + unfold unit_exp, emin in *; lia.
    + rewrite new_location_even_spec by exact Hev.
      apply truncates_div; lia.
    + apply div_quotient_digits; [exact Hs | exact He].
Qed.

(** ** Monotonicity of the operations on good floats *)

Lemma good_cases (f : spec_float) :
  good f -> finite f \/ f = S754_infinity false.
Proof.
  destruct f as [s|s| |s m e]; cbn [good finite]; intros G; auto.
  right. subst; reflexivity.
Qed.

Lemma finite_value_lt_top (f : spec_float) :
  good f -> finite f -> value f < top.
Proof.
  destruct f as [s|s| |s m e]; cbn [good finite]; intros G F; try contradiction.
  - cbn [value]. apply pow2_pos. unfold emin; lia.
  - destruct G as (-> & G'). apply (value_finite_lt_top m e (conj eq_refl G')).
Qed.

Lemma value_below_finite (f g : spec_float) :
  good f -> good g -> finite g -> value f <= value g -> finite f.
Proof.
  intros Gf Gg Fg Hv. destruct (good_cases f Gf) as [F| ->]; [exact F|].
  pose proof (finite_value_lt_top g Gg Fg). cbn [value] in Hv. lia.
Qed.

Lemma to_float_mono_good (a b : Z) :
  0 <= a <= b ->
  good (to_float a) /\ good (to_float b)
  /\ value (to_float a) <= value (to_float b).
Proof.
  intros H. split; [apply to_float_good; lia|].
  split; [apply to_float_good; lia | apply to_float_mono; exact H].
Qed.

(** The conversion of a natural number succeeds below the overflow
    threshold, and is monotone. *)
Lemma of_Z_mono (z z' : Z) (f' : spec_float) :
  0 <= z <= z' -> Float.of_Z z' = Ok f' ->
  exists f, Float.of_Z z = Ok f /\
            good f /\ finite f /\ good f' /\ finite f' /\
            value f <= value f'.
Proof.
  intros [Hz Hzz'] H'. unfold Float.of_Z in *.
  rewrite round_Z_code in * by lia.
  pose proof (pow2_pos 2150 ltac:(lia)) as HP.
  destruct (to_float_mono_good (z * 2 ^ 2150) (z' * 2 ^ 2150) ltac:(nia))
    as (G & G' & Hv).
  assert (E' : f' = to_float (z' * 2 ^ 2150) /\ finite f').
  { destruct (to_float (z' * 2 ^ 2150)) as [s|s| |s m e];
      try discriminate; injection H' as <-; split; try reflexivity; exact I || contradiction. }
  destruct E' as (E' & F'). rewrite <- E' in *.
  pose proof (value_below_finite _ _ G G' F' Hv) as F.
  exists (to_float (z * 2 ^ 2150)). repeat split; auto.
  destruct (to_float (z * 2 ^ 2150)); cbn [finite] in F; try contradiction; reflexivity.
Qed.

Section Monotone.

(** A rate: a positive normal float. *)
Variables (my : positive) (ey : Z).
Hypothesis my_normal : digits (Zpos my) = 53.
Hypothesis ey_range : -1076 < ey.

Lemma mul_mono (x x' : spec_float) :
  good x -> finite x -> good x' -> finite x' -> value x <= value x' ->
  good (Float.mul x (S754_finite false my ey)) /\
  good (Float.mul x' (S754_finite false my ey)) /\
  value (Float.mul x (S754_finite false my ey))
  <= value (Float.mul x' (S754_finite false my ey)).
Proof.
  intros G F G' F' Hv.
  rewrite !mul_code by assumption.
  apply to_float_mono_good.
  pose proof (value_nonneg x) as Hx.
  pose proof (pow2_pos (ey + 1076) ltac:(lia)) as HP.
  assert (HK : 0 < Zpos my * 2 ^ (ey + 1076)) by lia.
  split; [apply Z.mul_nonneg_nonneg; lia|].
  apply Z.mul_le_mono_nonneg_r; lia.
Qed.

End Monotone.

Lemma add_infinite (a b : spec_float) :
  good a -> good b -> ~ (finite a /\ finite b) ->
  Float.add a b = S754_infinity false.
Proof.
  intros Ga Gb Hn.
  destruct a as [sa|sa| |sa ma ea]; destruct b as [sb|sb| |sb mb eb];
    cbn [good finite] in *; try contradiction; subst; try reflexivity;
    try (exfalso; apply Hn; split; exact I).
Qed.

Lemma add_good (a b : spec_float) :
  good a -> good b -> good (Float.add a b).
Proof.
  intros Ga Gb.
  destruct (good_cases a Ga) as [Fa| ->]; [destruct (good_cases b Gb) as [Fb| ->]|].
  - rewrite add_code by assumption. apply to_float_good.
    pose proof (code_of_nonneg a). pose proof (code_of_nonneg b). lia.
  - rewrite add_infinite; auto. cbn [finite]. tauto.
  - rewrite add_infinite; auto. cbn [finite]. tauto.
Qed.

Lemma code_of_mono (f g : spec_float) :
  value f <= value g -> code_of f <= code_of g.
Proof.
  intros H. unfold code_of.
  pose proof (pow2_pos min_shift ltac:(rewrite min_shift_eq; lia)). nia.
Qed.

Lemma add_mono (a a' b b' : spec_float) :
  good a -> good a' -> good b -> good b' ->
  value a <= value a' -> value b <= value b' ->
  value (Float.add a b) <= value (Float.add a' b').
Proof.
  intros Ga Ga' Gb Gb' Ha Hb.
  destruct (good_cases a' Ga') as [Fa'|Ia'];
    [destruct (good_cases b' Gb') as [Fb'|Ib']|].
  - pose proof (value_below_finite a a' Ga Ga' Fa' Ha) as Fa.
    pose proof (value_below_finite b b' Gb Gb' Fb' Hb) as Fb.
    rewrite !add_code by assumption. apply to_float_mono.
    pose proof (code_of_nonneg a). pose proof (code_of_nonneg b).
    pose proof (code_of_mono a a' Ha). pose proof (code_of_mono b b' Hb). lia.
  - rewrite (add_infinite a' b') by (subst; cbn [finite]; tauto).
    apply (value_le_top _ (add_good a b Ga Gb)).
  - rewrite (add_infinite a' b') by (subst; cbn [finite]; tauto).
    apply (value_le_top _ (add_good a b Ga Gb)).
Qed.

Section Divisor.

(** A divisor: a positive float of even mantissa. *)
Variables (dm : positive) (de : Z).
Hypothesis dm_even : Z.even (Zpos dm) = true.
Hypothesis de_range : de <= 0.

Lemma div_infinite :
  Float.div (S754_infinity false) (S754_finite false dm de)
  = S754_infinity false.
Proof. reflexivity. Qed.

Lemma div_good (x : spec_float) :
  good x -> good (Float.div x (S754_finite false dm de)).
Proof.
  intros G. destruct (good_cases x G) as [F| ->]; [|exact I || reflexivity].
  rewrite div_code by assumption. apply to_float_good.
  apply quot_code_nonneg; [|lia].
  pose proof (value_nonneg x). pose proof (pow2_pos (1075 - de) ltac:(lia)). nia.
Qed.

Lemma div_mono (x x' : spec_float) :
  good x -> good x' -> value x <= value x' ->
  value (Float.div x (S754_finite false dm de))
  <= value (Float.div x' (S754_finite false dm de)).
Proof.
  intros G G' Hv. destruct (good_cases x' G') as [F'| ->].
  - pose proof (value_below_finite x x' G G' F' Hv) as F.
    rewrite !div_code by assumption. apply to_float_mono.
    pose proof (value_nonneg x). pose proof (pow2_pos (1075 - de) ltac:(lia)).
    split.
    + apply quot_code_nonneg; [nia | lia].
    + apply quot_code_mono; [nia | lia].
  - rewrite div_infinite. apply (value_le_top _ (div_good x G)).
Qed.

End Divisor.

(** ** The cost accountant *)

Lemma calculate_openai_cost_table (model_choice : pystr) (tokens : Usage) :
  calculate_openai_cost model_choice tokens
  = match assoc_get model_choice rate_table with
    | Some rates => cost_of_rates rates tokens
    | None => Ok (PInt 0)
    end.
Proof.
  unfold calculate_openai_cost, rate_table, assoc_get, existsb.
  destruct (pystr_eqb model_choice (py "openai/gpt-3.5-turbo")); [reflexivity|].
  destruct (pystr_eqb model_choice (py "openai/gpt-4o")); [reflexivity|].
  destruct (pystr_eqb model_choice (py "openai/gpt-4o-mini")); reflexivity.
Qed.

Lemma thousand : Float.of_Z 1000 = Ok (S754_finite false 8796093022208000 (-43)).
Proof. vm_compute. reflexivity. Qed.

Lemma rates_normal (model_choice : pystr) (rates : spec_float * spec_float) :
  assoc_get model_choice rate_table = Some rates ->
  exists mi ei mo eo,
    rates = (S754_finite false mi ei, S754_finite false mo eo) /\
    digits (Zpos mi) = 53 /\ -1076 < ei /\
    digits (Zpos mo) = 53 /\ -1076 < eo.
Proof.
  unfold rate_table, assoc_get.
  destruct (pystr_eqb model_choice (py "openai/gpt-3.5-turbo")).
  { intros H; injection H as <-. eexists _, _, _, _.
    split; [vm_compute; reflexivity|]. repeat split; vm_compute; reflexivity. }
  destruct (pystr_eqb model_choice (py "openai/gpt-4o")).
  { intros H; injection H as <-. eexists _, _, _, _.
    split; [vm_compute; reflexivity|]. repeat split; vm_compute; reflexivity. }
  destruct (pystr_eqb model_choice (py "openai/gpt-4o-mini")); [|discriminate].
  intros H; injection H as <-. eexists _, _, _, _.
  split; [vm_compute; reflexivity|]. repeat split; vm_compute; reflexivity.
Qed.

(** The formula is monotone in both token counts. *)
Lemma cost_of_rates_mono (mi mo : positive) (ei eo : Z) (t t' : Usage)
    (x' : spec_float) :
  digits (Zpos mi) = 53 -> -1076 < ei ->
  digits (Zpos mo) = 53 -> -1076 < eo ->
  0 <= prompt_tokens t <= prompt_tokens t' ->
  0 <= completion_tokens t <= completion_tokens t' ->
  cost_of_rates (S754_finite false mi ei, S754_finite false mo eo) t'
  = Ok (PFloat x') ->
  exists x,
    cost_of_rates (S754_finite false mi ei, S754_finite false mo eo) t
    = Ok (PFloat x)
    /\ Float.leb x x' = true.
Proof.
  intros Hmi Hei Hmo Heo Hp Hc H'.
  unfold cost_of_rates, int_mul_float, float_div_int in *. cbn [fst snd] in *.
  rewrite thousand in *. unfold rbind in *.
  destruct (Float.of_Z (prompt_tokens t')) as [fp'|] eqn:Ep'; [|discriminate].
  destruct (Float.of_Z (completion_tokens t')) as [fc'|] eqn:Ec'; [|discriminate].
  injection H' as <-.
  destruct (of_Z_mono _ _ _ Hp Ep') as (fp & -> & Gp & Fp & Gp' & Fp' & Vp).
  destruct (of_Z_mono _ _ _ Hc Ec') as (fc & -> & Gc & Fc & Gc' & Fc' & Vc).
  destruct (mul_mono mi ei Hmi Hei fp fp' Gp Fp Gp' Fp' Vp) as (Ga & Ga' & Va).
  destruct (mul_mono mo eo Hmo Heo fc fc' Gc Fc Gc' Fc' Vc) as (Gb & Gb' & Vb).
  eexists. split; [reflexivity|].
  apply good_leb.
  - apply div_good; [reflexivity | lia | apply add_good; assumption].
  - apply div_good; [reflexivity | lia | apply add_good; assumption].
  - apply div_mono; [reflexivity | lia | apply add_good; assumption
                    | apply add_good; assumption |].
    apply add_mono; assumption.
Qed.

Lemma of_Z_total (z : Z) :
  0 <= z <= 2 ^ 1023 -> exists f, Float.of_Z z = Ok f.
Proof.
  intros H.
  assert (Hbig : Float.of_Z (2 ^ 1023)
                 = Ok (S754_finite false 4503599627370496 971))
    by (vm_compute; reflexivity).
  destruct (of_Z_mono z (2 ^ 1023) _ H Hbig) as (f & Hf & _).
  exists f; exact Hf.
Qed.

Lemma cost_of_rates_total (rates : spec_float * spec_float) (t : Usage) :
  0 <= prompt_tokens t <= 2 ^ 1023 ->
  0 <= completion_tokens t <= 2 ^ 1023 ->
  exists x, cost_of_rates rates t = Ok (PFloat x).
Proof.
  intros Hp Hc. unfold cost_of_rates, int_mul_float, float_div_int.
  destruct (of_Z_total _ Hp) as (fp & ->).
  destruct (of_Z_total _ Hc) as (fc & ->).
  rewrite thousand. eexists; reflexivity.
Qed.

(** C3. For a model identifier of the rate table, [calculate_openai_cost] is
    non-decreasing in [prompt_tokens] and in [completion_tokens]: when it
    returns for the larger counts, it returns for the smaller ones, a float
    that is less than or equal; and it returns for all counts up to
    [2 ^ 1023].  For an identifier that is not in the table it returns the
    integer 0, whatever the token counts.  Token counts are natural
    numbers. *)
Theorem cost_monotone (model_choice : pystr) (t t' : Usage) :
  (assoc_get model_choice rate_table <> None ->
   0 <= prompt_tokens t <= prompt_tokens t' ->
   0 <= completion_tokens t <= completion_tokens t' ->
   forall cost',
     calculate_openai_cost model_choice t' = Ok cost' ->
     exists x x',
       cost' = PFloat x' /\
       calculate_openai_cost model_choice t = Ok (PFloat x) /\
       Float.leb x x' = true)
  /\
  (assoc_get model_choice rate_table <> None ->
   0 <= prompt_tokens t <= 2 ^ 1023 ->
   0 <= completion_tokens t <= 2 ^ 1023 ->
   exists x, calculate_openai_cost model_choice t = Ok (PFloat x))
  /\
  (assoc_get model_choice rate_table = None ->
   calculate_openai_cost model_choice t = Ok (PInt 0)).
Proof.
  rewrite !calculate_openai_cost_table. split; [|split].
  - intros Hk Hp Hc cost' H'.
    destruct (assoc_get model_choice rate_table) as [rates|] eqn:E;
      [|congruence].
    destruct (rates_normal _ _ E) as (mi & ei & mo & eo & -> & Hmi & Hei & Hmo & Heo).
    assert (Hx : exists x', cost' = PFloat x').
    { unfold cost_of_rates, rbind in H'.
      destruct (int_mul_float _ _); [|discriminate].
      destruct (int_mul_float _ _); [|discriminate].
      destruct (float_div_int _ _); [|discriminate].
      injection H' as <-. eexists; reflexivity. }
    destruct Hx as (x' & ->).
    destruct (cost_of_rates_mono mi mo ei eo t t' x' Hmi Hei Hmo Heo Hp Hc H')
      as (x & Hx & Hle).
    exists x, x'. auto.
  - intros Hk Hp Hc.
    destruct (assoc_get model_choice rate_table) as [rates|]; [|congruence].
    apply cost_of_rates_total; assumption.
  - intros ->. reflexivity.
Qed.

Lemma cost_monotone_witness :
  (exists x x',
     calculate_openai_cost (py "openai/gpt-4o")
       {| prompt_tokens := 250; completion_tokens := 20; total_tokens := 270 |}
     = Ok (PFloat x') /\
     calculate_openai_cost (py "openai/gpt-4o") tokens_100_20 = Ok (PFloat x) /\
     Float.leb x x' = true)
  /\ calculate_openai_cost (py "openai/gpt-5") tokens_100_20 = Ok (PInt 0).
Proof.
  split.
  - assert (Hk : assoc_get (py "openai/gpt-4o") rate_table <> None)
      by (vm_compute; discriminate).
    assert (Hp : 0 <= prompt_tokens tokens_100_20 <= 250) by (simpl; lia).
    assert (Hc : 0 <= completion_tokens tokens_100_20 <= 20) by (simpl; lia).
    destruct (proj1 (cost_monotone (py "openai/gpt-4o") tokens_100_20
                {| prompt_tokens := 250; completion_tokens := 20;
                   total_tokens := 270 |})
                Hk Hp Hc
                (PFloat (S754_finite false 5015208545039784 (-59)))
                ltac:(vm_compute; reflexivity))
      as (x & x' & Hx' & Hx & Hle).
    exists x, x'. injection Hx' as <-.
    split; [vm_compute; reflexivity|]. split; assumption.
  - exact (proj2 (proj2 (cost_monotone (py "openai/gpt-5") tokens_100_20
                           tokens_100_20)) eq_refl).
Defined.

(** C4 as stated fails: for 100 prompt tokens and 20 completion tokens at
    the rates 0.03 and 0.06, the cost is not the float [0.0042]. *)
Lemma cost_not_0_0042 :
  exists cost,
    calculate_openai_cost (py "openai/gpt-4o") tokens_100_20
    = Ok (PFloat cost) /\
    SFeqb cost (Float.of_decimal 42 4) = false /\
    Float.of_decimal 42 4 = S754_finite false 4842270319348757 (-60) /\
    cost = S754_finite false 4842270319348758 (-60).
Proof. eexists. repeat split; vm_compute; reflexivity. Qed.

(** C4, as the code has it.  For a model identifier of the rate table, the
    cost is [(prompt_tokens * input_rate + completion_tokens * output_rate)
    / 1000], each operation rounded to binary64, for the rates of that model;
    for any other identifier it is the integer 0.  For 100 prompt tokens and
    20 completion tokens at the rates 0.03 and 0.06 the cost is the float
    [0.004200000000000001], the float next above [0.0042]. *)
Theorem cost_formula (model_choice : pystr) (tokens : Usage) :
  calculate_openai_cost model_choice tokens
  = match assoc_get model_choice rate_table with
    | Some rates => cost_of_rates rates tokens
    | None => Ok (PInt 0)
    end
  /\ assoc_get (py "openai/gpt-4o") rate_table = Some (lit_0_03, lit_0_06)
  /\ cost_of_rates (lit_0_03, lit_0_06) tokens_100_20
     = Ok (PFloat (Float.of_scientific false 4200000000000001 (-18)))
  /\ Float.of_scientific false 4200000000000001 (-18)
     = SFsucc Float.prec Float.emax (Float.of_decimal 42 4).
Proof.
  split; [apply calculate_openai_cost_table|].
  repeat split; vm_compute; reflexivity.
Qed.

(** * Further properties *)

(** ** More on the retriever *)

Lemma hit_sources_list (response h : pyval) (hits : list pyval) :
  getitem response (py "hits") = Ok h ->
  getitem h (py "hits") = Ok (PList hits) ->
  hit_sources response
  = fold_right
      (fun hit acc =>
         rbind (getitem hit (py "_source")) (fun src =>
         rbind acc (fun rest => Ok (src :: rest))))
      (Ok []) hits.
Proof. intros H1 H2. unfold hit_sources. rewrite H1. simpl. rewrite H2. reflexivity. Qed.

Lemma fold_sources_ok (hits srcs : list pyval) :
  fold_right
    (fun hit acc =>
       rbind (getitem hit (py "_source")) (fun src =>
       rbind acc (fun rest => Ok (src :: rest))))
    (Ok []) hits = Ok srcs
  <-> Forall2 (fun hit src => getitem hit (py "_source") = Ok src) hits srcs.
Proof.
  revert srcs; induction hits as [|hit hits IH]; intros srcs; simpl.
  - split.
    + intros H; injection H as <-; constructor.
    + intros H; inversion H; reflexivity.
  - split.
    + unfold rbind at 1. destruct (getitem hit (py "_source")) as [src|] eqn:E;
        [|discriminate].
      unfold rbind. destruct (fold_right _ _ hits) as [rest|] eqn:F; [|discriminate].
      intros H; injection H as <-. constructor; [exact E|]. apply IH. reflexivity.
    + intros H. inversion H as [|? src ? rest Hs Hr]; subst.
      rewrite Hs. apply IH in Hr. unfold rbind at 1. rewrite Hr. reflexivity.
Qed.

Lemma fold_sources_missing (pre post : list pyval) (bad : pyval) (e : exn) :
  Forall (fun hit => exists src, getitem hit (py "_source") = Ok src) pre ->
  getitem bad (py "_source") = Raise e ->
  fold_right
    (fun hit acc =>
       rbind (getitem hit (py "_source")) (fun src =>
       rbind acc (fun rest => Ok (src :: rest))))
    (Ok []) (pre ++ bad :: post) = Raise e.
Proof.
  intros Hpre Hbad. induction Hpre as [|hit pre (src & Hs) _ IH]; simpl.
  - rewrite Hbad. reflexivity.
  - rewrite Hs. unfold rbind at 1. rewrite IH. reflexivity.
Qed.

Lemma search_text_run (env : Env) (query category index_name : pystr) (w : World) :
  elastic_search_text env query category index_name w
  = (rbind (es_search env (List.length (es_log w)) index_name
              (text_query query category)) hit_sources,
     {| es_log := es_log w ++ [(index_name, text_query query category)];
        llm_log := llm_log w; clock_reads := clock_reads w |}).
Proof.
  unfold elastic_search_text, bind, es_client_search, lift.
  destruct (es_search env _ _ _); reflexivity.
Qed.

Lemma search_knn_run (env : Env) (field : pystr) (vector : pyval)
    (category index_name : pystr) (w : World) :
  elastic_search_knn env field vector category index_name w
  = (rbind (es_search env (List.length (es_log w)) index_name
              (knn_query field vector category)) hit_sources,
     {| es_log := es_log w ++ [(index_name, knn_query field vector category)];
        llm_log := llm_log w; clock_reads := clock_reads w |}).
Proof.
  unfold elastic_search_knn, bind, es_client_search, lift.
  destruct (es_search env _ _ _); reflexivity.
Qed.

(** X1. The keyword search sends one request: at most 5 results, a
    best-fields multi-match of the query over the nine searched fields with
    [Food] boosted by 3, filtered on the exact category. *)
Theorem text_request (env : Env) (query category index_name : pystr)
    (w : World) :
  exists body bool_clause multi_match,
    es_log (snd (elastic_search_text env query category index_name w))
    = es_log w ++ [(index_name, body)] /\
    getitem body (py "size") = Ok (PInt 5) /\
    rbind (getitem body (py "query")) (fun q => getitem q (py "bool"))
    = Ok bool_clause /\
    rbind (getitem bool_clause (py "must"))
      (fun m => getitem m (py "multi_match")) = Ok multi_match /\
    getitem multi_match (py "query") = Ok (PStr query) /\
    getitem multi_match (py "type") = Ok (PStr (py "best_fields")) /\
    getitem multi_match (py "fields")
    = Ok (PList (List.map PStr
            [py "Food^3"; py "Measure"; py "Grams"; py "Calories";
             py "Protein"; py "Fat"; py "SatFat"; py "Fiber"; py "Carbs"])) /\
    getitem bool_clause (py "filter")
    = Ok (PDict [(py "term", PDict [(py "Category", PStr category)])]).
Proof.
  rewrite search_text_run. cbn [snd es_log].
  eexists _, _, _. split; [reflexivity|].
  repeat split; reflexivity.
Qed.

(** X2. When the index answers with a list of hits, both searches return the
    [_source] of every hit, in the order of the hits and as many as there
    are: nothing is dropped, reordered or cut to 5. *)
Theorem search_sources (env : Env) (index_name : pystr) (w : World)
    (response h : pyval) (hits srcs : list pyval) :
  getitem response (py "hits") = Ok h ->
  getitem h (py "hits") = Ok (PList hits) ->
  (forall query category,
     es_search env (List.length (es_log w)) index_name
       (text_query query category) = Ok response ->
     (fst (elastic_search_text env query category index_name w) = Ok srcs
      <-> Forall2 (fun hit src => getitem hit (py "_source") = Ok src)
            hits srcs))
  /\
  (forall field vector category,
     es_search env (List.length (es_log w)) index_name
       (knn_query field vector category) = Ok response ->
     (fst (elastic_search_knn env field vector category index_name w) = Ok srcs
      <-> Forall2 (fun hit src => getitem hit (py "_source") = Ok src)
            hits srcs))
  /\
  (Forall2 (fun hit src => getitem hit (py "_source") = Ok src) hits srcs ->
   List.length srcs = List.length hits).
Proof.
  intros H1 H2. split; [|split].
  - intros query category Hs. rewrite search_text_run. cbn [fst]. rewrite Hs.
    cbn [rbind]. rewrite (hit_sources_list _ _ _ H1 H2). apply fold_sources_ok.
  - intros field vector category Hs. rewrite search_knn_run. cbn [fst].
    rewrite Hs. cbn [rbind]. rewrite (hit_sources_list _ _ _ H1 H2).
    apply fold_sources_ok.
  - intros HF. symmetry. exact (Forall2_length HF).
Qed.

Lemma search_sources_witness :
  fst (elastic_search_text env_ok (py "apple calories") (py "Fruits")
         default_index world0) = Ok [apple; banana]
  <-> Forall2 (fun hit src => getitem hit (py "_source") = Ok src)
        [PDict [(py "_source", apple)]; PDict [(py "_source", banana)]]
        [apple; banana].
Proof.
  exact (proj1 (search_sources env_ok default_index world0
                  (stub_hits [apple; banana])
                  (PDict [(py "hits",
                           PList [PDict [(py "_source", apple)];
                                  PDict [(py "_source", banana)]])])
                  [PDict [(py "_source", apple)]; PDict [(py "_source", banana)]]
                  [apple; banana] eq_refl eq_refl)
           (py "apple calories") (py "Fruits") eq_refl).
Defined.

(** X3. A malformed answer of the index is not recovered: without the key
    [hits] both searches raise [KeyError] for [hits], and with a hit that has
    no [_source], after hits that have one, they raise what indexing that hit
    raises ([KeyError] for [_source] when the hit is a dict). *)
Theorem search_malformed (env : Env) (index_name : pystr) (w : World)
    (response : pyval) :
  (forall kvs, response = PDict kvs -> assoc_get (py "hits") kvs = None ->
     hit_sources response = Raise (KeyError (py "hits")))
  /\
  (forall h pre post bad e,
     getitem response (py "hits") = Ok h ->
     getitem h (py "hits") = Ok (PList (pre ++ bad :: post)) ->
     Forall (fun hit => exists src, getitem hit (py "_source") = Ok src) pre ->
     getitem bad (py "_source") = Raise e ->
     hit_sources response = Raise e)
  /\
  (forall query category e,
     es_search env (List.length (es_log w)) index_name
       (text_query query category) = Ok response ->
     hit_sources response = Raise e ->
     fst (elastic_search_text env query category index_name w) = Raise e)
  /\
  (forall field vector category e,
     es_search env (List.length (es_log w)) index_name
       (knn_query field vector category) = Ok response ->
     hit_sources response = Raise e ->
     fst (elastic_search_knn env field vector category index_name w) = Raise e).
Proof.
  split; [|split; [|split]].
  - intros kvs -> Hk. unfold hit_sources, getitem. rewrite Hk. reflexivity.
  - intros h pre post bad e H1 H2 Hpre Hbad.
    rewrite (hit_sources_list _ _ _ H1 H2).
    apply fold_sources_missing; assumption.
  - intros query category e Hs He. rewrite search_text_run. cbn [fst].
    rewrite Hs. exact He.
  - intros field vector category e Hs He. rewrite search_knn_run. cbn [fst].
    rewrite Hs. exact He.
Qed.

Lemma search_malformed_witness :
  hit_sources (PDict []) = Raise (KeyError (py "hits")) /\
  hit_sources (stub_hits [] ) = Ok [] /\
  hit_sources
    (PDict [(py "hits",
             PDict [(py "hits",
                     PList ([PDict [(py "_source", apple)]]
                            ++ PDict [] :: []))])])
  = Raise (KeyError (py "_source")).
Proof.
  split; [|split].
  - exact (proj1 (search_malformed env_ok default_index world0 (PDict []))
             [] eq_refl eq_refl).
  - reflexivity.
  - refine (proj1 (proj2 (search_malformed env_ok default_index world0
                            (PDict [(py "hits",
                               PDict [(py "hits",
                                 PList ([PDict [(py "_source", apple)]]
                                        ++ PDict [] :: []))])])))
              (PDict [(py "hits",
                       PList ([PDict [(py "_source", apple)]]
                              ++ PDict [] :: []))])
              [PDict [(py "_source", apple)]] [] (PDict [])
              (KeyError (py "_source")) eq_refl eq_refl _ eq_refl).
    constructor; [exists apple; reflexivity | constructor].
Defined.

(** ** More on the prompt builder *)

(** A value that does not convert stops the rendering, when the fields
    before it do. *)
Lemma render_doc_stop (env : Env) (doc : pyval) (before after : list pystr)
    (key : pystr) (e : exn) :
  read_fields = before ++ key :: after ->
  Forall (fun k => exists s, fstring_field env doc k = Ok s) before ->
  fstring_field env doc key = Raise e ->
  render_doc env doc = Raise e.
Proof.
  intros Hsplit Hbefore Hkey. unfold render_doc.
  unfold read_fields in Hsplit.
  repeat (destruct before as [|? before]; cbn [app] in Hsplit;
          [ injection Hsplit as <- _; rewrite Hkey; reflexivity
          | injection Hsplit as <- Hsplit;
            apply Forall_cons_iff in Hbefore;
            let s := fresh "s" in
            let Hs := fresh "Hs" in
            destruct Hbefore as ((s & Hs) & Hbefore);
            rewrite Hs; cbn [rbind] ]).
  destruct before; discriminate.
Qed.

Lemma fstring_field_printable (env : Env) (kvs : list (pystr * pyval))
    (key : pystr) :
  (exists v, assoc_get key kvs = Some v /\ printable env v) ->
  exists s, fstring_field env (PDict kvs) key = Ok s.
Proof.
  intros (v & Hv & Hp). unfold fstring_field, getitem. rewrite Hv.
  cbn [rbind]. apply printable_str_of. exact Hp.
Qed.

Lemma render_doc_reads (env : Env) (kvs : list (pystr * pyval)) :
  Forall (fun k => exists v, assoc_get k kvs = Some v /\ printable env v)
    read_fields ->
  exists block, render_doc env (PDict kvs) = Ok block.
Proof.
  intros HF. rewrite Forall_forall in HF.
  assert (Hget : forall key, In key read_fields ->
                 exists s, fstring_field env (PDict kvs) key = Ok s)
    by (intros key Hin; apply fstring_field_printable, HF, Hin).
  unfold render_doc.
  destruct (Hget (py "Food")) as (food & ->); [simpl; tauto|].
  destruct (Hget (py "Measure")) as (measure & ->); [simpl; tauto|].
  destruct (Hget (py "Calories")) as (calories & ->); [simpl; tauto|].
  destruct (Hget (py "Protein")) as (protein & ->); [simpl; tauto|].
  destruct (Hget (py "Fat")) as (fat & ->); [simpl; tauto|].
  destruct (Hget (py "SatFat")) as (satfat & ->); [simpl; tauto|].
  destruct (Hget (py "Fiber")) as (fiber & ->); [simpl; tauto|].
  destruct (Hget (py "Carbs")) as (carbs & ->); [simpl; tauto|].
  destruct (Hget (py "Category")) as (category & ->); [simpl; tauto|].
  unfold rbind. eexists; reflexivity.
Qed.

Lemma render_docs_app_raise (env : Env) (good rest : list pyval)
    (bad : pyval) (blocks : list pystr) (e : exn) :
  render_docs env good = Ok blocks ->
  render_doc env bad = Raise e ->
  render_docs env (good ++ bad :: rest) = Raise e.
Proof.
  revert blocks; induction good as [|d good IH]; intros blocks Hg Hb; simpl.
  - rewrite Hb. reflexivity.
  - simpl in Hg. destruct (render_doc env d) as [b|]; [|discriminate].
    unfold rbind in *. destruct (render_docs env good) as [bs|] eqn:E; [|discriminate].
    rewrite (IH bs eq_refl Hb). reflexivity.
Qed.

(** X4. A record that cannot be rendered makes [build_prompt] raise, for the
    first such record of the sequence.  The fields are read in the order
    Food, Measure, Calories, Protein, Fat, SatFat, Fiber, Carbs, Category,
    each one looked up and converted before the next: after fields that the
    dict has with printable values, a field that it lacks raises [KeyError]
    for that field, and a field that holds an integer of more than 4300
    digits raises [ValueError]; a value that is not a dict raises
    [TypeError].  A dict that has the nine fields with printable values
    renders. *)
Theorem build_prompt_missing_field (env : Env) (query : pystr)
    (good rest : list pyval) (bad : pyval) (blocks : list pystr) :
  render_docs env good = Ok blocks ->
  (forall kvs before key after,
     bad = PDict kvs ->
     read_fields = before ++ key :: after ->
     Forall (fun k => exists v, assoc_get k kvs = Some v /\ printable env v)
       before ->
     (assoc_get key kvs = None ->
      build_prompt env query (good ++ bad :: rest) = Raise (KeyError key))
     /\
     (forall z,
        assoc_get key kvs = Some (PInt z) ->
        (int_max_str_digits < decimal_digits z)%nat ->
        build_prompt env query (good ++ bad :: rest) = Raise ValueError))
  /\
  ((forall kvs, bad <> PDict kvs) ->
   build_prompt env query (good ++ bad :: rest) = Raise TypeError)
  /\
  (forall kvs,
     bad = PDict kvs ->
     Forall (fun k => exists v, assoc_get k kvs = Some v /\ printable env v)
       read_fields ->
     exists block, render_doc env bad = Ok block).
Proof.
  intros Hg.
  assert (Hraise : forall e, render_doc env bad = Raise e ->
            build_prompt env query (good ++ bad :: rest) = Raise e).
  { intros e H. unfold build_prompt, build_context.
    rewrite (render_docs_app_raise env good rest _ blocks _ Hg H).
    reflexivity. }
  split; [|split].
  - intros kvs before key after -> Hsplit Hbefore.
    assert (Hb : Forall (fun k => exists s,
                           fstring_field env (PDict kvs) k = Ok s) before).
    { eapply Forall_impl; [|exact Hbefore].
      intros k Hk. apply fstring_field_printable. exact Hk. }
    split.
    + intros Hnone. apply Hraise.
      apply (render_doc_stop env _ before after key _ Hsplit Hb).
      unfold fstring_field, getitem. rewrite Hnone. reflexivity.
    + intros z Hz Hlong. apply Hraise.
      apply (render_doc_stop env _ before after key _ Hsplit Hb).
      unfold fstring_field, getitem. rewrite Hz. cbn [rbind str_of].
      unfold str_of_Z. apply Nat.ltb_lt in Hlong. rewrite Hlong. reflexivity.
  - intros Hn. apply Hraise.
    destruct bad; try reflexivity. exfalso. eapply Hn. reflexivity.
  - intros kvs -> HF. apply render_doc_reads. exact HF.
Qed.

Lemma build_prompt_missing_field_witness :
  build_prompt env_ok (py "apple calories")
    ([apple] ++ pear_partial :: [banana])
  = Raise (KeyError (py "Measure")) /\
  build_prompt env_ok (py "apple calories")
    ([apple] ++ pear_long :: [banana])
  = Raise ValueError.
Proof.
  split.
  - refine (proj1 (proj1 (build_prompt_missing_field env_ok
                            (py "apple calories") [apple] [banana]
                            pear_partial _ _)
                     [(py "Food", PStr (py "Pear"))]
                     [py "Food"] (py "Measure") _ eq_refl eq_refl _) _).
    + vm_compute. reflexivity.
    + apply Forall_cons; [|apply Forall_nil].
      eexists. split; [reflexivity | exact I].
    + reflexivity.
  - refine (proj2 (proj1 (build_prompt_missing_field env_ok
                            (py "apple calories") [apple] [banana]
                            pear_long _ _)
                     _ [py "Food"; py "Measure"] (py "Calories") _
                     eq_refl eq_refl _) (10 ^ 4300) _ _).
    + vm_compute. reflexivity.
    + apply Forall_cons; [|apply Forall_cons; [|apply Forall_nil]];
        (eexists; split; [reflexivity | exact I]).
    + reflexivity.
    + apply Nat.ltb_lt. vm_compute. reflexivity.
Defined.

Lemma render_doc_agree (env : Env) (d d' : pyval) :
  (forall field, In field read_fields -> getitem d field = getitem d' field) ->
  render_doc env d = render_doc env d'.
Proof.
  intros H. unfold render_doc, fstring_field.
  rewrite !(H (py "Food")), !(H (py "Measure")), !(H (py "Calories")),
    !(H (py "Protein")), !(H (py "Fat")), !(H (py "SatFat")),
    !(H (py "Fiber")), !(H (py "Carbs")), !(H (py "Category"))
    by (simpl; tauto).
  reflexivity.
Qed.

(** X5. The prompt depends on a record through the nine fields it reads
    only: records that agree on them give the same prompt, whatever their
    [Grams], their [id] or any other field. *)
Theorem build_prompt_reads (env : Env) (query : pystr)
    (docs docs' : list pyval) :
  Forall2 (fun d d' =>
             forall field, In field read_fields ->
                           getitem d field = getitem d' field) docs docs' ->
  build_prompt env query docs = build_prompt env query docs'.
Proof.
  intros H. unfold build_prompt, build_context. f_equal. f_equal.
  induction H as [|d d' ds ds' Hd _ IH]; [reflexivity|].
  simpl. rewrite (render_doc_agree env d d' Hd), IH. reflexivity.
Qed.

Lemma build_prompt_reads_witness :
  build_prompt env_ok (py "apple calories") [apple]
  = build_prompt env_ok (py "apple calories") [apple_relabelled].
Proof.
  apply build_prompt_reads. constructor; [|constructor].
  intros field Hin. simpl in Hin.
  repeat (destruct Hin as [<-|Hin]; [reflexivity|]). contradiction.
Defined.

Lemma build_prompt_shape (env : Env) (query : pystr) (docs : list pyval) :
  build_prompt env query docs
  = rbind (build_context env docs) (fun context =>
    Ok (prompt_head ++ query ++ rstrip (prompt_mid ++ context))).
Proof.
  unfold build_prompt. destruct (build_context env docs) as [context|e];
    [|reflexivity].
  unfold rbind at 1. rewrite format_prompt_template. unfold rbind.
  rewrite strip_prompt. reflexivity.
Qed.

(** X6. For the same records, two questions that give the same prompt are
    the same question: the question can be read back from the prompt. *)
Theorem build_prompt_question (env : Env) (q1 q2 : pystr)
    (docs : list pyval) (prompt : pystr) :
  build_prompt env q1 docs = Ok prompt ->
  build_prompt env q2 docs = Ok prompt ->
  q1 = q2.
Proof.
  rewrite !build_prompt_shape.
  destruct (build_context env docs) as [context|e]; [|discriminate].
  cbn [rbind]. generalize (rstrip (prompt_mid ++ context)) as tail.
  generalize prompt_head as head. intros head tail H1 H2.
  assert (H : head ++ q1 ++ tail = head ++ q2 ++ tail) by congruence.
  apply app_inv_head in H. apply app_inv_tail in H. exact H.
Qed.

Lemma build_prompt_question_witness :
  py "apple calories" = py "apple calories".
Proof.
  refine (build_prompt_question env_ok (py "apple calories")
            (py "apple calories") [apple; banana] _ _ eq_refl).
  vm_compute. reflexivity.
Defined.

Lemma rstrip_idem (s : pystr) : rstrip (rstrip s) = rstrip s.
Proof.
  induction s as [|c s IH]; [reflexivity|]. simpl.
  destruct (rstrip s) as [|d r] eqn:E.
  - destruct (isspace c) eqn:C; [reflexivity|]. simpl. rewrite C. reflexivity.
  - rewrite rstrip_cons_nonempty; rewrite IH; [reflexivity | discriminate].
Qed.

(** X7. A prompt that [build_prompt] returns starts with the preamble and the
    question, and has no white space at either end: stripping it again
    changes nothing. *)
Theorem build_prompt_stripped (env : Env) (query : pystr)
    (docs : list pyval) (prompt : pystr) :
  build_prompt env query docs = Ok prompt ->
  (exists rest, prompt = prompt_head ++ query ++ rest) /\
  strip prompt = prompt.
Proof.
  rewrite build_prompt_shape.
  destruct (build_context env docs) as [context|e]; [|discriminate].
  cbn [rbind]. intros H.
  assert (E : prompt = prompt_head ++ query ++ rstrip (prompt_mid ++ context))
    by congruence.
  clear H. rewrite E. split; [eauto|].
  destruct prompt_head_nonspace as (c & rest & Hh & Hc).
  assert (Hne : rstrip (prompt_mid ++ context) <> []).
  { destruct prompt_mid_shape as (a & b & -> & Hm).
    rewrite <- app_assoc. apply rstrip_nonempty_mid; exact Hm. }
  rewrite (strip_shape _ _ _ c rest Hh Hc).
  - rewrite rstrip_idem. reflexivity.
  - rewrite rstrip_idem. exact Hne.
Qed.

Lemma build_prompt_stripped_witness :
  exists prompt,
    build_prompt env_ok (py "apple calories") [padded] = Ok prompt /\
    strip prompt = prompt.
Proof.
  eexists. split; [vm_compute; reflexivity|].
  refine (proj2 (build_prompt_stripped env_ok (py "apple calories") [padded]
                   _ _)).
  vm_compute. reflexivity.
Defined.

(** ** More on the generation client *)




(** ** More on the relevance evaluator *)

(** X9. When the judge answers, [evaluate_relevance] returns in two cases
    only, both with the token counts of the judge's response: the reply is
    not JSON, and the result is UNKNOWN with "Failed to parse evaluation"; or
    the reply is a JSON object, and the result is what it holds under
    [Relevance] and [Explanation], values of any JSON type, returned as they
    are.  The verdict is not checked against the three labels. *)
Theorem evaluate_returns (env : Env) (question answer : pystr) (w : World)
    (response : ChatResponse) (relevance explanation : pyval)
    (tokens : Usage) :
  chat_create env (List.length (llm_log w))
    (chat_request (py "gpt-4o-mini") (judge_prompt question answer))
  = Ok response ->
  (fst (evaluate_relevance env question answer w)
   = Ok (relevance, explanation, tokens)
   <->
   tokens = resp_usage response /\
   ((json_loads env (resp_content response) = Raise JSONDecodeError /\
     relevance = PStr (py "UNKNOWN") /\
     explanation = PStr (py "Failed to parse evaluation"))
    \/
    (exists kvs,
       json_loads env (resp_content response) = Ok (PDict kvs) /\
       assoc_get (py "Relevance") kvs = Some relevance /\
       assoc_get (py "Explanation") kvs = Some explanation))).
Proof.
  intros Hc. rewrite evaluate_run, Hc.
  unfold except_JSONDecodeError, rbind, getitem. split.
  - destruct (json_loads env (resp_content response)) as [v|ex].
    + destruct v as [| | | | | |kvs]; try discriminate.
      destruct (assoc_get (py "Relevance") kvs) as [r|] eqn:R;
        [|discriminate].
      destruct (assoc_get (py "Explanation") kvs) as [x|] eqn:X;
        [|discriminate].
      intros H; injection H as <- <- <-. split; [reflexivity|].
      right. exists kvs. auto.
    + destruct ex; try discriminate.
      intros H; injection H as <- <- <-. auto.
  - intros (-> & [(-> & -> & ->)|(kvs & -> & -> & ->)]); reflexivity.
Qed.

Lemma evaluate_returns_witness :
  fst (evaluate_relevance env_unlisted (py "apple calories")
         (py "A medium apple has 95 calories.") world1)
  = Ok (PStr (py "MAYBE"), PInt 7,
        {| prompt_tokens := 300; completion_tokens := 30;
           total_tokens := 330 |}).
Proof.
  refine (proj2 (evaluate_returns env_unlisted (py "apple calories")
                   (py "A medium apple has 95 calories.") world1
                   (stub_judge reply_unlisted) _ _ _ eq_refl) _).
  split; [reflexivity|]. right.
  exists [(py "Relevance", PStr (py "MAYBE")); (py "Explanation", PInt 7)].
  repeat split; vm_compute; reflexivity.
Defined.



(** X11. When the request to the judge fails, [evaluate_relevance] raises
    what the chat API raised, after sending that one request: the call is
    outside the [try], so that even a [JSONDecodeError] raised by the client
    is not turned into the verdict UNKNOWN, and there is no second
    attempt. *)
Theorem evaluate_judge_failure (env : Env) (question answer : pystr)
    (w : World) (e : exn) :
  chat_create env (List.length (llm_log w))
    (chat_request (py "gpt-4o-mini") (judge_prompt question answer))
  = Raise e ->
  fst (evaluate_relevance env question answer w) = Raise e /\
  llm_log (snd (evaluate_relevance env question answer w))
  = llm_log w ++
    [chat_request (py "gpt-4o-mini") (judge_prompt question answer)].
Proof.
  intros Hc. split; [rewrite evaluate_run, Hc; reflexivity|].
  apply llm_log_evaluate.
Qed.

Lemma evaluate_judge_failure_witness :
  fst (evaluate_relevance (env_judge_down JSONDecodeError)
         (py "apple calories") (py "A medium apple has 95 calories.") world1)
  = Raise JSONDecodeError /\
  llm_log (snd (evaluate_relevance (env_judge_down JSONDecodeError)
                  (py "apple calories")
                  (py "A medium apple has 95 calories.") world1))
  = llm_log world1 ++
    [chat_request (py "gpt-4o-mini")
       (judge_prompt (py "apple calories")
          (py "A medium apple has 95 calories."))].
Proof.
  exact (evaluate_judge_failure (env_judge_down JSONDecodeError)
           (py "apple calories") (py "A medium apple has 95 calories.")
           world1 JSONDecodeError eq_refl).
Defined.

(** ** More on the cost accountant *)

Lemma of_Z_raises (z : Z) (e : exn) :
  Float.of_Z z = Raise e -> e = OverflowError.
Proof.
  unfold Float.of_Z. destruct (Float.round_Z z); congruence.
Qed.

Lemma of_Z_below_limit (z : Z) :
  0 <= z < float_limit -> exists f, Float.of_Z z = Ok f.
Proof.
  intros H.
  assert (Hmax : Float.of_Z (float_limit - 1)
                 = Ok (S754_finite false 9007199254740991 971))
    by (vm_compute; reflexivity).
  destruct (of_Z_mono z (float_limit - 1) _ ltac:(lia) Hmax) as (f & Hf & _).
  exists f; exact Hf.
Qed.

Lemma of_Z_limit (z : Z) :
  float_limit <= z -> Float.of_Z z = Raise OverflowError.
Proof.
  intros H.
  assert (Hl : Float.of_Z float_limit = Raise OverflowError)
    by (vm_compute; reflexivity).
  destruct (Float.of_Z z) as [f|e] eqn:E.
  - assert (H0 : 0 <= float_limit <= z)
      by (split; [vm_compute; discriminate | exact H]).
    destruct (of_Z_mono float_limit z f H0 E) as (f0 & Hf0 & _).
    congruence.
  - rewrite (of_Z_raises z e E). reflexivity.
Qed.

(** X13. For a model of the rates and natural token counts, the cost is
    computed exactly when both counts are below [2^1024 - 2^970], the least
    integer that has no float; from there on the conversion of the count
    raises [OverflowError], and the cost computation raises nothing else. *)
Theorem cost_overflow (model_choice : pystr) (tokens : Usage) :
  assoc_get model_choice rate_table <> None ->
  0 <= prompt_tokens tokens -> 0 <= completion_tokens tokens ->
  (calculate_openai_cost model_choice tokens = Raise OverflowError
   <-> float_limit <= prompt_tokens tokens
       \/ float_limit <= completion_tokens tokens) /\
  (prompt_tokens tokens < float_limit ->
   completion_tokens tokens < float_limit ->
   exists x, calculate_openai_cost model_choice tokens = Ok (PFloat x)) /\
  (forall e, calculate_openai_cost model_choice tokens = Raise e ->
             e = OverflowError).
Proof.
  intros Hk Hp Hc. rewrite calculate_openai_cost_table.
  destruct (assoc_get model_choice rate_table) as [rates|]; [|congruence].
  unfold cost_of_rates, int_mul_float, float_div_int. rewrite thousand.
  destruct (Z_lt_le_dec (prompt_tokens tokens) float_limit) as [Lp|Lp].
  - destruct (of_Z_below_limit _ (conj Hp Lp)) as (fp & ->).
    destruct (Z_lt_le_dec (completion_tokens tokens) float_limit) as [Lc|Lc].
    + destruct (of_Z_below_limit _ (conj Hc Lc)) as (fc & ->).
      cbn [rbind]. split; [|split].
      * split; [discriminate | lia].
      * intros _ _. eexists; reflexivity.
      * discriminate.
    + rewrite (of_Z_limit _ Lc). cbn [rbind]. split; [|split].
      * split; [auto | reflexivity].
      * lia.
      * congruence.
  - rewrite (of_Z_limit _ Lp). cbn [rbind]. split; [|split].
    + split; [auto | reflexivity].
    + lia.
    + congruence.
Qed.

Lemma cost_overflow_witness :
  calculate_openai_cost (py "openai/gpt-4o")
    {| prompt_tokens := float_limit; completion_tokens := 0;
       total_tokens := float_limit |}
  = Raise OverflowError.
Proof.
  refine (proj2 (proj1 (cost_overflow (py "openai/gpt-4o")
                          {| prompt_tokens := float_limit;
                             completion_tokens := 0;
                             total_tokens := float_limit |} _ _ _)) _).
  - vm_compute; discriminate.
  - vm_compute; discriminate.
  - simpl; lia.
  - left. simpl. lia.
Defined.

Lemma rate_cases (model_choice : pystr) (rates : spec_float * spec_float) :
  assoc_get model_choice rate_table = Some rates ->
  rates = (lit_0_0015, lit_0_002) \/ rates = (lit_0_03, lit_0_06).
Proof.
  unfold rate_table, assoc_get.
  destruct (pystr_eqb model_choice (py "openai/gpt-3.5-turbo"));
    [intros H; injection H as <-; auto|].
  destruct (pystr_eqb model_choice (py "openai/gpt-4o"));
    [intros H; injection H as <-; auto|].
  destruct (pystr_eqb model_choice (py "openai/gpt-4o-mini"));
    [intros H; injection H as <-; auto | discriminate].
Qed.

(** A float between two positive finite floats is a positive finite
    float. *)
Lemma leb_between (m1 m2 : positive) (e1 e2 : Z) (x : spec_float) :
  Float.leb (S754_finite false m1 e1) x = true ->
  Float.leb x (S754_finite false m2 e2) = true ->
  exists m e, x = S754_finite false m e.
Proof.
  unfold Float.leb, SFleb.
  destruct x as [s|s| |s m e]; try destruct s; cbn; try discriminate.
  intros _ _. eauto.
Qed.

(** Between the cost of one token and the cost of the largest counts. *)
Lemma cost_between (mi mo : positive) (ei eo : Z) (tokens : Usage) :
  digits (Zpos mi) = 53 -> -1076 < ei ->
  digits (Zpos mo) = 53 -> -1076 < eo ->
  (exists m e,
     cost_of_rates (S754_finite false mi ei, S754_finite false mo eo)
       {| prompt_tokens := float_limit - 1;
          completion_tokens := float_limit - 1; total_tokens := 0 |}
     = Ok (PFloat (S754_finite false m e))) ->
  (exists m e,
     cost_of_rates (S754_finite false mi ei, S754_finite false mo eo)
       {| prompt_tokens := 1; completion_tokens := 0; total_tokens := 0 |}
     = Ok (PFloat (S754_finite false m e))) ->
  (exists m e,
     cost_of_rates (S754_finite false mi ei, S754_finite false mo eo)
       {| prompt_tokens := 0; completion_tokens := 1; total_tokens := 0 |}
     = Ok (PFloat (S754_finite false m e))) ->
  0 <= prompt_tokens tokens < float_limit ->
  0 <= completion_tokens tokens < float_limit ->
  0 < prompt_tokens tokens + completion_tokens tokens ->
  exists m e,
    cost_of_rates (S754_finite false mi ei, S754_finite false mo eo) tokens
    = Ok (PFloat (S754_finite false m e)).
Proof.
  intros Hmi Hei Hmo Heo (mM & eM & HM) (m1 & e1 & H1) (m2 & e2 & H2)
    Hp Hc Hpos.
  pose (most := {| prompt_tokens := float_limit - 1;
                   completion_tokens := float_limit - 1;
                   total_tokens := 0 |}).
  pose (one_in := {| prompt_tokens := 1; completion_tokens := 0;
                     total_tokens := 0 |}).
  pose (one_out := {| prompt_tokens := 0; completion_tokens := 1;
                      total_tokens := 0 |}).
  assert (A1 : 0 <= prompt_tokens tokens <= prompt_tokens most)
    by (unfold most; cbn [prompt_tokens]; lia).
  assert (A2 : 0 <= completion_tokens tokens <= completion_tokens most)
    by (unfold most; cbn [completion_tokens]; lia).
  destruct (cost_of_rates_mono mi mo ei eo tokens most _ Hmi Hei Hmo Heo
              A1 A2 HM) as (x & Hx & Hup).
  rewrite Hx.
  destruct (Z_lt_le_dec 0 (prompt_tokens tokens)) as [Lp|Lp].
  - assert (B1 : 0 <= prompt_tokens one_in <= prompt_tokens tokens)
      by (unfold one_in; cbn [prompt_tokens]; lia).
    assert (B2 : 0 <= completion_tokens one_in <= completion_tokens tokens)
      by (unfold one_in; cbn [completion_tokens]; lia).
    destruct (cost_of_rates_mono mi mo ei eo one_in tokens x Hmi Hei Hmo Heo
                B1 B2 Hx) as (y & Hy & Hlo).
    unfold one_in in Hy. rewrite H1 in Hy. injection Hy as <-.
    destruct (leb_between _ _ _ _ x Hlo Hup) as (m & e & ->). eauto.
  - assert (B1 : 0 <= prompt_tokens one_out <= prompt_tokens tokens)
      by (unfold one_out; cbn [prompt_tokens]; lia).
    assert (B2 : 0 <= completion_tokens one_out <= completion_tokens tokens)
      by (unfold one_out; cbn [completion_tokens]; lia).
    destruct (cost_of_rates_mono mi mo ei eo one_out tokens x Hmi Hei Hmo Heo
                B1 B2 Hx) as (y & Hy & Hlo).
    unfold one_out in Hy. rewrite H2 in Hy. injection Hy as <-.
    destruct (leb_between _ _ _ _ x Hlo Hup) as (m & e & ->). eauto.
Qed.

Ltac with_rate r k :=
  let v := eval vm_compute in r in
  match v with S754_finite false ?m ?e => k m e end.

Ltac cost_between_rates ri ro :=
  with_rate ri ltac:(fun mi ei =>
  with_rate ro ltac:(fun mo eo =>
    replace ri with (S754_finite false mi ei) by (vm_compute; reflexivity);
    replace ro with (S754_finite false mo eo) by (vm_compute; reflexivity);
    apply (cost_between mi mo ei eo);
    [ vm_compute; reflexivity | lia | vm_compute; reflexivity | lia
    | eexists _, _; vm_compute; reflexivity
    | eexists _, _; vm_compute; reflexivity
    | eexists _, _; vm_compute; reflexivity
    | assumption | assumption | assumption ])).

Lemma cost_of_rates_positive (rates : spec_float * spec_float)
    (tokens : Usage) :
  rates = (lit_0_0015, lit_0_002) \/ rates = (lit_0_03, lit_0_06) ->
  0 <= prompt_tokens tokens < float_limit ->
  0 <= completion_tokens tokens < float_limit ->
  0 < prompt_tokens tokens + completion_tokens tokens ->
  exists m e, cost_of_rates rates tokens = Ok (PFloat (S754_finite false m e)).
Proof.
  intros [-> | ->] Hp Hc Hpos.
  - cost_between_rates lit_0_0015 lit_0_002.
  - cost_between_rates lit_0_03 lit_0_06.
Qed.

(** ** The model name sent to the provider, and the key of the rates *)

(** C8. For a model identifier [provider/name], where [name] has no slash:
    [llm] sends the chat API one request, for the model [name] and with the
    prompt as the single user message; [get_answer] computes the cost from the
    whole identifier, which is also the [model_used] of the report.  The whole
    identifier is the key of the rates: the cost is that of the rates found
    under it and, when it is priced, a positive float as soon as a token is
    counted, whereas [name] alone is not a key, its cost being the integer
    0. *)
Theorem model_segment (env : Env) (provider name : pystr) :
  ~ In 47%N name ->
  (forall prompt w,
     llm_log (snd (llm env prompt (provider ++ 47%N :: name) w))
     = llm_log w ++
       [{| req_model := name;
           req_messages := [{| role := py "user"; content := prompt |}] |}])
  /\
  (forall query category search_type w w' report,
     get_answer env query category (provider ++ 47%N :: name) search_type w
     = (Ok report, w') ->
     exists prompt gen,
       llm_log w'
       = llm_log w ++
         [chat_request name prompt;
          chat_request (py "gpt-4o-mini")
            (judge_prompt query (resp_content gen))] /\
       chat_create env (List.length (llm_log w)) (chat_request name prompt)
       = Ok gen /\
       getitem report (py "openai_cost")
       = calculate_openai_cost (provider ++ 47%N :: name) (resp_usage gen) /\
       getitem report (py "model_used")
       = Ok (PStr (provider ++ 47%N :: name)))
  /\
  (forall tokens, calculate_openai_cost name tokens = Ok (PInt 0))
  /\
  (forall tokens,
     calculate_openai_cost (provider ++ 47%N :: name) tokens
     = match assoc_get (provider ++ 47%N :: name) rate_table with
       | Some rates => cost_of_rates rates tokens
       | None => Ok (PInt 0)
       end)
  /\
  (forall tokens,
     assoc_get (provider ++ 47%N :: name) rate_table <> None ->
     0 <= prompt_tokens tokens < float_limit ->
     0 <= completion_tokens tokens < float_limit ->
     0 < prompt_tokens tokens + completion_tokens tokens ->
     exists m e,
       calculate_openai_cost (provider ++ 47%N :: name) tokens
       = Ok (PFloat (S754_finite false m e))).
Proof.
  intros Hn. pose proof (split_last 47%N provider name Hn) as Hlast.
  split; [|split; [|split; [|split]]].
  - intros prompt w. rewrite (llm_run env _ _ _ w Hlast).
    destruct (chat_create env _ _); reflexivity.
  - intros query category search_type w w' report H.
    destruct (get_answer_ok env _ _ _ _ _ _ _ H)
      as (docs & prompt & name' & gen & judge & rel & expl & cost
          & _ & _ & Hname & Hgen & _ & Hcost & Hlog & ->).
    pose proof (eq_trans (eq_sym Hname) Hlast) as Heq.
    injection Heq as ->.
    exists prompt, gen. split; [exact Hlog|]. split; [exact Hgen|].
    split; [rewrite Hcost|]; reflexivity.
  - intros tokens. apply cost_of_bare_name; exact Hn.
  - intros tokens. apply calculate_openai_cost_table.
  - intros tokens Hk Hp Hc Hpos. rewrite calculate_openai_cost_table.
    destruct (assoc_get (provider ++ 47%N :: name) rate_table)
      as [rates|] eqn:E; [|congruence].
    apply cost_of_rates_positive; [exact (rate_cases _ _ E) | assumption..].
Qed.

Lemma model_segment_witness :
  ~ In 47%N (py "gpt-4o") /\
  llm_log (snd (llm env_ok (py "prompt") (py "openai" ++ 47%N :: py "gpt-4o")
                  world0))
  = [{| req_model := py "gpt-4o";
        req_messages := [{| role := py "user"; content := py "prompt" |}] |}]
  /\
  calculate_openai_cost (py "gpt-4o") tokens_100_20 = Ok (PInt 0) /\
  exists m e,
    calculate_openai_cost (py "openai" ++ 47%N :: py "gpt-4o") tokens_100_20
    = Ok (PFloat (S754_finite false m e)).
Proof.
  assert (Hn : ~ In 47%N (py "gpt-4o"))
    by (vm_compute; intuition discriminate).
  destruct (model_segment env_ok (py "openai") (py "gpt-4o") Hn)
    as (Hllm & _ & Hbare & _ & Hpriced).
  split; [exact Hn|]. split; [exact (Hllm (py "prompt") world0)|].
  split; [exact (Hbare tokens_100_20)|].
  apply Hpriced.
  - vm_compute; discriminate.
  - cbn [prompt_tokens tokens_100_20]. split; [lia | vm_compute; reflexivity].
  - cbn [completion_tokens tokens_100_20].
    split; [lia | vm_compute; reflexivity].
  - cbn [prompt_tokens completion_tokens tokens_100_20]. lia.
Defined.

(** X12. For a model of the rates and natural token counts that have a
    float, the cost is a float that is neither negative, nor infinite, nor
    NaN: plus zero when both counts are zero, and a positive finite float as
    soon as one token is counted.  It does not underflow to zero nor overflow
    to infinity. *)
Theorem cost_positive (model_choice : pystr) (tokens : Usage) :
  assoc_get model_choice rate_table <> None ->
  0 <= prompt_tokens tokens < float_limit ->
  0 <= completion_tokens tokens < float_limit ->
  (prompt_tokens tokens = 0 -> completion_tokens tokens = 0 ->
   calculate_openai_cost model_choice tokens = Ok (PFloat (S754_zero false)))
  /\
  (0 < prompt_tokens tokens + completion_tokens tokens ->
   exists m e,
     calculate_openai_cost model_choice tokens
     = Ok (PFloat (S754_finite false m e))).
Proof.
  intros Hk Hp Hc. rewrite calculate_openai_cost_table.
  destruct (assoc_get model_choice rate_table) as [rates|] eqn:E;
    [|congruence].
  pose proof (rate_cases _ _ E) as Hr. split.
  - intros Zp Zc. unfold cost_of_rates. rewrite Zp, Zc.
    destruct Hr as [-> | ->]; vm_compute; reflexivity.
  - intros Hpos. apply cost_of_rates_positive; assumption.
Qed.

Lemma cost_positive_witness :
  exists m e,
    calculate_openai_cost (py "openai/gpt-3.5-turbo")
      {| prompt_tokens := 0; completion_tokens := 1; total_tokens := 1 |}
    = Ok (PFloat (S754_finite false m e)).
Proof.
  refine (proj2 (cost_positive (py "openai/gpt-3.5-turbo")
                   {| prompt_tokens := 0; completion_tokens := 1;
                      total_tokens := 1 |} _ _ _) _).
  - vm_compute; discriminate.
  - cbn [prompt_tokens]. split; [lia | vm_compute; reflexivity].
  - cbn [completion_tokens]. split; [lia | vm_compute; reflexivity].
  - cbn [prompt_tokens completion_tokens]. lia.
Defined.

(** ** More on the orchestrator *)

Section Runs.

Variable env : Env.

(** [get_answer], step by step. *)
Lemma get_answer_unfold (query category model_choice : pystr)
    (search_type : pyval) (w : World) :
  get_answer env query category model_choice search_type w =
  match retrieve env query category search_type w with
  | (Raise e, w1) => (Raise e, w1)
  | (Ok search_results, w1) =>
      match build_prompt env query search_results with
      | Raise e => (Raise e, w1)
      | Ok prompt =>
          match llm env prompt model_choice w1 with
          | (Raise e, w2) => (Raise e, w2)
          | (Ok (answer, tokens, response_time), w2) =>
              match evaluate_relevance env query answer w2 with
              | (Raise e, w3) => (Raise e, w3)
              | (Ok (relevance, explanation, eval_tokens), w3) =>
                  match calculate_openai_cost model_choice tokens with
                  | Raise e => (Raise e, w3)
                  | Ok openai_cost =>
                      (Ok (report_of answer response_time relevance
                             explanation model_choice tokens eval_tokens
                             openai_cost), w3)
                  end
              end
          end
      end
  end.
Proof.
  unfold get_answer.
  change (if eq_str search_type (py "Vector") then _ else _)
    with (retrieve env query category search_type).
  unfold bind at 1.
  destruct (retrieve env query category search_type w)
    as [[search_results|e] w1]; [|reflexivity].
  unfold bind at 1. unfold lift at 1.
  destruct (build_prompt env query search_results) as [prompt|e];
    [|reflexivity].
  unfold bind at 1.
  destruct (llm env prompt model_choice w1)
    as [[[[answer tokens] response_time]|e] w2]; [|reflexivity].
  unfold bind at 1.
  destruct (evaluate_relevance env query answer w2)
    as [[[[relevance explanation] eval_tokens]|e] w3]; [|reflexivity].
  unfold bind, lift, ret.
  destruct (calculate_openai_cost model_choice tokens); reflexivity.
Qed.

(** One call of [evaluate_relevance], with the world it leaves. *)
Lemma evaluate_full_run (question answer : pystr) (w : World) :
  evaluate_relevance env question answer w =
  match chat_create env (List.length (llm_log w))
          (chat_request (py "gpt-4o-mini") (judge_prompt question answer))
  with
  | Ok response =>
      (except_JSONDecodeError
         (rbind (json_loads env (resp_content response)) (fun json_eval =>
          rbind (getitem json_eval (py "Relevance")) (fun relevance =>
          rbind (getitem json_eval (py "Explanation")) (fun explanation =>
          Ok (relevance, explanation, resp_usage response)))))
         (Ok (PStr (py "UNKNOWN"), PStr (py "Failed to parse evaluation"),
              resp_usage response)),
       {| es_log := es_log w;
          llm_log := llm_log w ++
            [chat_request (py "gpt-4o-mini") (judge_prompt question answer)];
          clock_reads := S (S (clock_reads w)) |})
  | Raise e =>
      (Raise e,
       {| es_log := es_log w;
          llm_log := llm_log w ++
            [chat_request (py "gpt-4o-mini") (judge_prompt question answer)];
          clock_reads := S (clock_reads w) |})
  end.
Proof.
  unfold evaluate_relevance. unfold bind at 1. rewrite format_eval_template.
  unfold lift at 1. unfold bind.
  rewrite (llm_run _ _ _ _ _ judge_model_name).
  destruct (chat_create env _ _); reflexivity.
Qed.

Lemma clock_retrieve (query category : pystr) (search_type : pyval)
    (w : World) :
  clock_reads (snd (retrieve env query category search_type w))
  = clock_reads w.
Proof.
  unfold retrieve. destruct (eq_str search_type (py "Vector")).
  - unfold bind, lift. destruct (encode env query) as [vector|e];
      [|reflexivity].
    unfold elastic_search_knn, bind, es_client_search, lift.
    destruct (es_search env _ _ _); reflexivity.
  - unfold elastic_search_text, bind, es_client_search, lift.
    destruct (es_search env _ _ _); reflexivity.
Qed.

(** The requests [get_answer] sends to the chat API, in every run. *)
Lemma get_answer_llm_log (query category model_choice : pystr)
    (search_type : pyval) (w : World) :
  llm_log (snd (get_answer env query category model_choice search_type w))
  = llm_log w ++
    match fst (retrieve env query category search_type w) with
    | Raise _ => []
    | Ok search_results =>
        match build_prompt env query search_results,
              last_item (split 47%N model_choice) with
        | Ok prompt, Ok name =>
            chat_request name prompt ::
            match chat_create env (List.length (llm_log w))
                    (chat_request name prompt) with
            | Ok gen =>
                [chat_request (py "gpt-4o-mini")
                   (judge_prompt query (resp_content gen))]
            | Raise _ => []
            end
        | _, _ => []
        end
    end.
Proof.
  rewrite get_answer_unfold.
  pose proof (keeps_llm_log_retrieve env query category search_type w) as Hl.
  destruct (retrieve env query category search_type w)
    as [[search_results|e] w1]; cbn [fst snd] in *;
    [|rewrite app_nil_r; exact Hl].
  destruct (build_prompt env query search_results) as [prompt|e];
    [|cbn [snd]; rewrite app_nil_r; exact Hl].
  destruct (last_item_split_total 47%N model_choice) as (name & Hname).
  rewrite Hname, (llm_run env prompt model_choice name w1 Hname), Hl.
  destruct (chat_create env (List.length (llm_log w))
              (chat_request name prompt)) as [gen|e]; [|reflexivity].
  rewrite evaluate_full_run. cbn [llm_log].
  destruct (chat_create env _ _) as [judge|e];
    [|cbn [snd llm_log]; rewrite <- app_assoc; reflexivity].
  destruct (except_JSONDecodeError _ _) as [[[relevance explanation] et]|e];
    [|cbn [snd llm_log]; rewrite <- app_assoc; reflexivity].
  destruct (calculate_openai_cost model_choice (resp_usage gen));
    cbn [snd llm_log]; rewrite <- app_assoc; reflexivity.
Qed.

End Runs.

(** X14. [get_answer] sends nothing to the chat API exactly when the
    retrieval or the construction of the prompt fails; it then raises that
    exception.  No completion is paid for a question whose records could not
    be fetched or formatted. *)
Theorem get_answer_no_chat (env : Env) (query category model_choice : pystr)
    (search_type : pyval) (w : World) :
  (llm_log (snd (get_answer env query category model_choice search_type w))
   = llm_log w
   <->
   (exists e, fst (retrieve env query category search_type w) = Raise e) \/
   (exists search_results e,
      fst (retrieve env query category search_type w) = Ok search_results /\
      build_prompt env query search_results = Raise e)) /\
  (forall e,
     fst (retrieve env query category search_type w) = Raise e ->
     fst (get_answer env query category model_choice search_type w)
     = Raise e) /\
  (forall search_results e,
     fst (retrieve env query category search_type w) = Ok search_results ->
     build_prompt env query search_results = Raise e ->
     fst (get_answer env query category model_choice search_type w)
     = Raise e).
Proof.
  split; [|split].
  - rewrite get_answer_llm_log.
    destruct (fst (retrieve env query category search_type w))
      as [search_results|e].
    + destruct (build_prompt env query search_results) as [prompt|e] eqn:Ep.
      * destruct (last_item_split_total 47%N model_choice) as (name & ->).
        split.
        -- intros H. apply (f_equal (@List.length _)) in H.
           rewrite length_app in H. cbn [List.length] in H. lia.
        -- intros [(e & H)|(docs & e & H1 & H2)]; [discriminate|].
           injection H1 as <-. congruence.
      * split; [|intros _; apply app_nil_r].
        intros _. right. exists search_results, e. auto.
    + split; [|intros _; apply app_nil_r].
      intros _. left. exists e. reflexivity.
  - intros e H. rewrite get_answer_unfold.
    destruct (retrieve env query category search_type w) as [[docs|e'] w1];
      cbn [fst] in *; [discriminate | congruence].
  - intros docs e H1 H2. rewrite get_answer_unfold.
    destruct (retrieve env query category search_type w) as [[docs'|e'] w1];
      cbn [fst] in *; [|discriminate].
    injection H1 as ->. rewrite H2. reflexivity.
Qed.

Lemma get_answer_no_chat_witness :
  fst (get_answer env_search_down (py "apple calories") (py "Fruits")
         (py "openai/gpt-4o") (PStr (py "Keyword")) world0)
  = Raise (ServiceError 503) /\
  llm_log (snd (get_answer env_search_down (py "apple calories")
                  (py "Fruits") (py "openai/gpt-4o") (PStr (py "Keyword"))
                  world0))
  = llm_log world0.
Proof.
  destruct (get_answer_no_chat env_search_down (py "apple calories")
              (py "Fruits") (py "openai/gpt-4o") (PStr (py "Keyword"))
              world0) as (Hlog & Hraise & _).
  split.
  - apply Hraise. reflexivity.
  - apply (proj2 Hlog). left. exists (ServiceError 503). reflexivity.
Defined.

(** X15. When the generation request fails, [get_answer] raises what the
    chat API raised and the judge is never asked: that request is the only
    one sent to the chat API. *)
Theorem get_answer_generation_failure (env : Env)
    (query category model_choice : pystr) (search_type : pyval) (w : World)
    (search_results : list pyval) (prompt name : pystr) (e : exn) :
  fst (retrieve env query category search_type w) = Ok search_results ->
  build_prompt env query search_results = Ok prompt ->
  last_item (split 47%N model_choice) = Ok name ->
  chat_create env (List.length (llm_log w)) (chat_request name prompt)
  = Raise e ->
  fst (get_answer env query category model_choice search_type w) = Raise e /\
  llm_log (snd (get_answer env query category model_choice search_type w))
  = llm_log w ++ [chat_request name prompt].
Proof.
  intros Hs Hp Hname Hgen. split.
  - rewrite get_answer_unfold.
    pose proof (keeps_llm_log_retrieve env query category search_type w)
      as Hl.
    destruct (retrieve env query category search_type w) as [[docs|e'] w1];
      cbn [fst snd] in *; [|discriminate].
    injection Hs as ->. rewrite Hp.
    rewrite (llm_run env prompt model_choice name w1 Hname), Hl, Hgen.
    reflexivity.
  - rewrite get_answer_llm_log, Hs, Hp, Hname, Hgen. reflexivity.
Qed.

Lemma get_answer_generation_failure_witness :
  exists prompt,
    build_prompt env_chat_down (py "apple calories") [apple; banana]
    = Ok prompt /\
    fst (get_answer env_chat_down (py "apple calories") (py "Fruits")
           (py "openai/gpt-4o") (PStr (py "Keyword")) world0)
    = Raise (ServiceError 503) /\
    llm_log (snd (get_answer env_chat_down (py "apple calories")
                    (py "Fruits") (py "openai/gpt-4o") (PStr (py "Keyword"))
                    world0))
    = llm_log world0 ++ [chat_request (py "gpt-4o") prompt].
Proof.
  destruct (build_prompt env_chat_down (py "apple calories") [apple; banana])
    as [prompt|e] eqn:E; [|vm_compute in E; discriminate].
  exists prompt. split; [reflexivity|].
  exact (get_answer_generation_failure env_chat_down (py "apple calories")
           (py "Fruits") (py "openai/gpt-4o") (PStr (py "Keyword")) world0
           [apple; banana] prompt (py "gpt-4o") (ServiceError 503)
           eq_refl E eq_refl eq_refl).
Defined.

Section Judged.

Variable env : Env.
Variables query category model_choice : pystr.
Variable search_type : pyval.
Variable w : World.
Variable search_results : list pyval.
Variables prompt name : pystr.
Variables gen judge : ChatResponse.

Hypothesis Hretrieve :
  fst (retrieve env query category search_type w) = Ok search_results.
Hypothesis Hprompt : build_prompt env query search_results = Ok prompt.
Hypothesis Hname : last_item (split 47%N model_choice) = Ok name.
Hypothesis Hgen :
  chat_create env (List.length (llm_log w)) (chat_request name prompt)
  = Ok gen.
Hypothesis Hjudge :
  chat_create env (S (List.length (llm_log w)))
    (chat_request (py "gpt-4o-mini") (judge_prompt query (resp_content gen)))
  = Ok judge.

(** A run in which the retrieval, the prompt and both completions
    succeed. *)
Lemma get_answer_judged :
  fst (get_answer env query category model_choice search_type w) =
  match
    except_JSONDecodeError
      (rbind (json_loads env (resp_content judge)) (fun json_eval =>
       rbind (getitem json_eval (py "Relevance")) (fun relevance =>
       rbind (getitem json_eval (py "Explanation")) (fun explanation =>
       Ok (relevance, explanation, resp_usage judge)))))
      (Ok (PStr (py "UNKNOWN"), PStr (py "Failed to parse evaluation"),
           resp_usage judge))
  with
  | Raise e => Raise e
  | Ok (relevance, explanation, eval_tokens) =>
      match calculate_openai_cost model_choice (resp_usage gen) with
      | Raise e => Raise e
      | Ok openai_cost =>
          Ok (report_of (resp_content gen)
                (Float.sub (time_time env (S (clock_reads w)))
                           (time_time env (clock_reads w)))
                relevance explanation model_choice (resp_usage gen)
                eval_tokens openai_cost)
      end
  end.
Proof.
  rewrite get_answer_unfold.
  pose proof (keeps_llm_log_retrieve env query category search_type w) as Hl.
  pose proof (clock_retrieve env query category search_type w) as Hc.
  destruct (retrieve env query category search_type w) as [[docs|e'] w1];
    cbn [fst snd] in *; [|discriminate].
  injection Hretrieve as ->. rewrite Hprompt.
  rewrite (llm_run env prompt model_choice name w1 Hname), Hl, Hgen, Hc.
  rewrite evaluate_full_run. cbn [llm_log].
  rewrite length_app, Nat.add_comm. cbn [List.length Nat.add].
  rewrite Hjudge.
  destruct (except_JSONDecodeError _ _) as [[[relevance explanation] et]|e];
    [|reflexivity].
  destruct (calculate_openai_cost model_choice (resp_usage gen));
    reflexivity.
Qed.

End Judged.

(** The cost is computed for natural token counts that have a float,
    whatever the model identifier. *)
Lemma cost_defined (model_choice : pystr) (tokens : Usage) :
  0 <= prompt_tokens tokens < float_limit ->
  0 <= completion_tokens tokens < float_limit ->
  exists openai_cost,
    calculate_openai_cost model_choice tokens = Ok openai_cost.
Proof.
  intros Hp Hc. rewrite calculate_openai_cost_table.
  destruct (assoc_get model_choice rate_table) as [rates|];
    [|eexists; reflexivity].
  unfold cost_of_rates, int_mul_float, float_div_int. rewrite thousand.
  destruct (of_Z_below_limit _ Hp) as (fp & ->).
  destruct (of_Z_below_limit _ Hc) as (fc & ->).
  eexists; reflexivity.
Qed.

(** X16. When both completions succeed, with natural token counts of the
    generation that have a float, what [json.loads] does with the judge's
    reply decides.  When it raises [JSONDecodeError], [get_answer] still
    returns its report: the answer, the token counts and the cost are those
    of the generation, and the verdict is UNKNOWN with the explanation
    "Failed to parse evaluation".  When it raises another exception,
    [get_answer] raises it and returns no report. *)
Theorem get_answer_unknown (env : Env) (query category model_choice : pystr)
    (search_type : pyval) (w : World) (search_results : list pyval)
    (prompt name : pystr) (gen judge : ChatResponse) :
  fst (retrieve env query category search_type w) = Ok search_results ->
  build_prompt env query search_results = Ok prompt ->
  last_item (split 47%N model_choice) = Ok name ->
  chat_create env (List.length (llm_log w)) (chat_request name prompt)
  = Ok gen ->
  chat_create env (S (List.length (llm_log w)))
    (chat_request (py "gpt-4o-mini") (judge_prompt query (resp_content gen)))
  = Ok judge ->
  0 <= prompt_tokens (resp_usage gen) < float_limit ->
  0 <= completion_tokens (resp_usage gen) < float_limit ->
  (json_loads env (resp_content judge) = Raise JSONDecodeError ->
   exists openai_cost,
     calculate_openai_cost model_choice (resp_usage gen) = Ok openai_cost /\
     fst (get_answer env query category model_choice search_type w)
     = Ok (report_of (resp_content gen)
             (Float.sub (time_time env (S (clock_reads w)))
                        (time_time env (clock_reads w)))
             (PStr (py "UNKNOWN")) (PStr (py "Failed to parse evaluation"))
             model_choice (resp_usage gen) (resp_usage judge) openai_cost))
  /\
  (forall e,
     e <> JSONDecodeError ->
     json_loads env (resp_content judge) = Raise e ->
     fst (get_answer env query category model_choice search_type w)
     = Raise e).
Proof.
  intros Hs Hp Hname Hgen Hjudge Hpt Hct.
  rewrite (get_answer_judged env query category model_choice search_type w
             search_results prompt name gen judge Hs Hp Hname Hgen Hjudge).
  split.
  - intros Hjson.
    destruct (cost_defined model_choice (resp_usage gen) Hpt Hct)
      as (openai_cost & Hcost).
    exists openai_cost. split; [exact Hcost|].
    rewrite Hjson. cbn [rbind except_JSONDecodeError]. rewrite Hcost.
    reflexivity.
  - intros e Hne Hjson. rewrite Hjson. cbn [rbind].
    destruct e; try reflexivity. congruence.
Qed.

Lemma get_answer_unknown_witness :
  exists prompt openai_cost,
    build_prompt env_not_json (py "apple calories") [apple; banana]
    = Ok prompt /\
    calculate_openai_cost (py "openai/gpt-4o") (resp_usage stub_answer)
    = Ok openai_cost /\
    fst (get_answer env_not_json (py "apple calories") (py "Fruits")
           (py "openai/gpt-4o") (PStr (py "Keyword")) world0)
    = Ok (report_of (resp_content stub_answer)
            (Float.sub (time_time env_not_json 1) (time_time env_not_json 0))
            (PStr (py "UNKNOWN")) (PStr (py "Failed to parse evaluation"))
            (py "openai/gpt-4o") (resp_usage stub_answer)
            (resp_usage (stub_judge reply_not_json)) openai_cost).
Proof.
  destruct (build_prompt env_not_json (py "apple calories") [apple; banana])
    as [prompt|e] eqn:E; [|vm_compute in E; discriminate].
  assert (Hpt : 0 <= prompt_tokens (resp_usage stub_answer) < float_limit)
    by (split; [vm_compute; discriminate | vm_compute; reflexivity]).
  assert (Hct : 0 <= completion_tokens (resp_usage stub_answer) < float_limit)
    by (split; [vm_compute; discriminate | vm_compute; reflexivity]).
  assert (Hj : json_loads env_not_json
                 (resp_content (stub_judge reply_not_json))
               = Raise JSONDecodeError) by (vm_compute; reflexivity).
  destruct (proj1 (get_answer_unknown env_not_json (py "apple calories")
                     (py "Fruits") (py "openai/gpt-4o") (PStr (py "Keyword"))
                     world0 [apple; banana] prompt (py "gpt-4o") stub_answer
                     (stub_judge reply_not_json)
                     eq_refl E eq_refl eq_refl eq_refl Hpt Hct) Hj)
    as (openai_cost & Hcost & Hreport).
  exists prompt, openai_cost. split; [reflexivity|]. split; assumption.
Defined.



Lemma build_prompt_nil (env : Env) (query : pystr) :
  build_prompt env query []
  = Ok (prompt_head ++ query ++ nl ++ nl ++ py "CONTEXT:").
Proof.
  rewrite build_prompt_shape. reflexivity.
Qed.

(** X18. When the index finds no record, [get_answer] does not stop: it
    asks the chat API for an answer all the same, with the prompt that ends
    in the [CONTEXT:] header with nothing after it. *)
Theorem get_answer_no_hits (env : Env) (query category model_choice : pystr)
    (search_type : pyval) (w : World) (name : pystr) :
  fst (retrieve env query category search_type w) = Ok [] ->
  last_item (split 47%N model_choice) = Ok name ->
  exists later,
    llm_log (snd (get_answer env query category model_choice search_type w))
    = llm_log w ++
      chat_request name (prompt_head ++ query ++ nl ++ nl ++ py "CONTEXT:")
      :: later.
Proof.
  intros Hs Hname.
  rewrite get_answer_llm_log, Hs, build_prompt_nil, Hname.
  eexists. reflexivity.
Qed.

Lemma get_answer_no_hits_witness :
  exists later,
    llm_log (snd (get_answer env_no_hits (py "apple calories") (py "Fruits")
                    (py "openai/gpt-4o") (PStr (py "Keyword")) world0))
    = llm_log world0 ++
      chat_request (py "gpt-4o")
        (prompt_head ++ py "apple calories" ++ nl ++ nl ++ py "CONTEXT:")
      :: later.
Proof.
  exact (get_answer_no_hits env_no_hits (py "apple calories") (py "Fruits")
           (py "openai/gpt-4o") (PStr (py "Keyword")) world0 (py "gpt-4o")
           eq_refl eq_refl).
Defined.

(** X19. In a run of [get_answer] that returns, the clock is read four
    times, twice around each completion, and [response_time] is the second
    reading minus the first: it is the time of the generation request alone,
    without the search and without the judge. *)
Theorem get_answer_response_time (env : Env)
    (query category model_choice : pystr) (search_type : pyval)
    (w w' : World) (report : pyval) :
  get_answer env query category model_choice search_type w = (Ok report, w') ->
  getitem report (py "response_time")
  = Ok (PFloat (Float.sub (time_time env (S (clock_reads w)))
                          (time_time env (clock_reads w)))) /\
  clock_reads w' = (4 + clock_reads w)%nat.
Proof.
  rewrite get_answer_unfold.
  pose proof (clock_retrieve env query category search_type w) as Hc.
  destruct (retrieve env query category search_type w) as [[docs|e] w1];
    cbn [fst snd] in *; [|discriminate].
  destruct (build_prompt env query docs) as [prompt|e]; [|discriminate].
  destruct (last_item_split_total 47%N model_choice) as (name & Hname).
  rewrite (llm_run env prompt model_choice name w1 Hname).
  destruct (chat_create env _ _) as [gen|e]; [|discriminate].
  rewrite evaluate_full_run. cbn [llm_log].
  destruct (chat_create env _ _) as [judge|e]; [|discriminate].
  destruct (except_JSONDecodeError _ _) as [[[relevance explanation] et]|e];
    [|discriminate].
  destruct (calculate_openai_cost model_choice (resp_usage gen));
    [|discriminate].
  intros H. injection H as <- <-. cbn [clock_reads]. rewrite Hc.
  split; reflexivity.
Qed.

Lemma get_answer_response_time_witness :
  getitem demo_report (py "response_time")
  = Ok (PFloat (Float.sub (time_time env_ok 1) (time_time env_ok 0))) /\
  clock_reads (snd demo_run) = 4%nat.
Proof.
  refine (get_answer_response_time env_ok (py "apple calories") (py "Fruits")
            (py "openai/gpt-4o") (PStr (py "Keyword")) world0 (snd demo_run)
            demo_report _).
  vm_compute. reflexivity.
Defined.
